(** * gemini-chunked-transcribe: a shallow embedding and its properties

    The development follows the two source modules:

    - [gemini_transcribe/api.py]: the [GeminiAPI] client (file listing,
      resumable upload, readiness polling, generation);
    - [gemini_transcribe/transcriber.py]: the [Transcriber] (chunk planning
      and slicing, per-chunk checkpoints, merge pass).

    Python code is embedded as state passing over a [World] (file system,
    process environment, remote service, trace of external calls) in a small
    monad with three outcomes: a returned value, a raised exception, or an
    exhausted iteration budget for the two [while] loops of the program.
    Progress messages ([print], [_log]) are not part of the model. *)

From Stdlib Require Import ZArith QArith Qround Lqa String Ascii List Lia.
From stdpp Require Import base gmap strings list pretty.

Open Scope string_scope.

(** ** Text *)

Module Text.

(** The one-character strings the source writes as escapes. *)
Definition nl : string := String (ascii_of_nat 10) "".
Definition dq : string := String (ascii_of_nat 34) "".

(** [sep.join(parts)]. *)
Fixpoint join (sep : string) (parts : list string) : string :=
  match parts with
  | [] => ""
  | [p] => p
  | p :: rest => p ++ sep ++ join sep rest
  end.

Definition lines (ls : list string) : string := join nl ls.

(** [c in s] for a character. *)
Fixpoint has_char (c : ascii) (s : string) : bool :=
  match s with
  | "" => false
  | String a s' => if decide (a = c) then true else has_char c s'
  end.

(** [s.split(sep)] for a one-character separator: the pieces between the
    separators, empty pieces included. *)
Fixpoint split_go (sep : ascii) (cur : string) (s : string) : list string :=
  match s with
  | "" => [String.rev cur]
  | String a s' =>
      if decide (a = sep) then String.rev cur :: split_go sep "" s'
      else split_go sep (String a cur) s'
  end.
Definition split (sep : ascii) (s : string) : list string := split_go sep "" s.

(** Python's ASCII whitespace, as [str.strip()] sees it. *)
Definition is_whitespace (a : ascii) : bool :=
  let n := nat_of_ascii a in
  ((9 <=? n)%nat && (n <=? 13)%nat) || ((28 <=? n)%nat && (n <=? 32)%nat).

Fixpoint lstrip (s : string) : string :=
  match s with
  | "" => ""
  | String a s' => if is_whitespace a then lstrip s' else s
  end.
Definition rstrip (s : string) : string := String.rev (lstrip (String.rev s)).
Definition strip (s : string) : string := rstrip (lstrip s).

(** [s.startswith(p)]. *)
Definition startswith (p s : string) : bool := String.prefix p s.

(** [s.replace(old, new)] for a non-empty [old]: every occurrence, left to
    right, without overlap. [skip] counts the characters of a match that are
    still to be dropped. *)
Fixpoint replace_go (old new : string) (skip : nat) (s : string) : string :=
  match s with
  | "" => ""
  | String a s' =>
      match skip with
      | S k => replace_go old new k s'
      | O =>
          if String.prefix old s
          then new ++ replace_go old new (String.length old - 1) s'
          else String a (replace_go old new 0 s')
      end
  end.
Definition replace (old new s : string) : string := replace_go old new 0 s.

(** [s.rfind(c)] as a split around the last occurrence of [c]:
    [Some (before, after)], or [None] when [c] does not occur. *)
Fixpoint rsplit_char (c : ascii) (s : string) : option (string * string) :=
  match s with
  | "" => None
  | String a s' =>
      match rsplit_char c s' with
      | Some (b, t) => Some (String a b, t)
      | None => if decide (a = c) then Some ("", s') else None
      end
  end.

Definition quoted (s : string) : string := dq ++ s ++ dq.

(** [enumerate(l)], counting from [i]. *)
Fixpoint enumerate_from {A} (i : nat) (l : list A) : list (nat * A) :=
  match l with
  | [] => []
  | x :: rest => (i, x) :: enumerate_from (S i) rest
  end.
Definition enumerate {A} (l : list A) : list (nat * A) := enumerate_from 0 l.

Definition is_digit (a : ascii) : bool :=
  let n := nat_of_ascii a in (48 <=? n)%nat && (n <=? 57)%nat.

Fixpoint all_chars (P : ascii -> bool) (s : string) : bool :=
  match s with
  | "" => true
  | String a s' => P a && all_chars P s'
  end.

(** [f"{n:02d}"] and [str(n)] for a non-negative integer. *)
Definition str_of_nat (n : nat) : string := pretty n.
Definition fmt_02d (n : nat) : string :=
  let s := str_of_nat n in
  if (String.length s <? 2)%nat then "0" ++ s else s.

End Text.

(** ** Paths ([pathlib.PurePosixPath]) *)

Module Path.

(** A parsed path: whether it is anchored at the root, and its components.
    Empty components and [.] components are dropped when a string is
    parsed, as pathlib does. (A root of exactly two slashes is read as
    the ordinary root.) *)
Record t : Type := mk { is_abs : bool; parts : list string }.

Definition keep_part (p : string) : bool :=
  negb (String.eqb p "") && negb (String.eqb p ".").

Definition parse (s : string) : t :=
  {| is_abs := Text.startswith "/" s;
     parts := List.filter keep_part (Text.split "/" s) |}.

(** [str(p)]. *)
Definition to_str (p : t) : string :=
  match parts p with
  | [] => if is_abs p then "/" else "."
  | _ => (if is_abs p then "/" else "") ++ Text.join "/" (parts p)
  end.

(** [p / s]. *)
Definition div (p : t) (s : string) : t :=
  let q := parse s in
  if is_abs q then q
  else {| is_abs := is_abs p; parts := parts p ++ parts q |}.

(** [p.name]. *)
Definition name (p : t) : string := List.last (parts p) "".

(** [p.stem]: the name without its last suffix; a leading or a trailing dot
    starts no suffix. *)
Definition stem (p : t) : string :=
  let n := name p in
  match Text.rsplit_char "." n with
  | Some (b, a) =>
      if negb (String.eqb b "") && negb (String.eqb a "") then b else n
  | None => n
  end.

(** [p.parent]. *)
Definition parent (p : t) : t :=
  {| is_abs := is_abs p; parts := List.removelast (parts p) |}.

End Path.

(** ** Values decoded from JSON, and the exceptions of the program *)

#[warnings="-register-all"]
Inductive json : Type :=
| JNull
| JBool (b : bool)
| JNum (q : Q)
| JStr (s : string)
| JArr (items : list json)
| JObj (fields : list (string * json)).

Inductive exn : Type :=
| Exception (msg : string)
| ValueError (msg : string)
| KeyError (key_repr : string)
| IndexError (msg : string)
| TypeError (msg : string)
| AttributeError (msg : string)
| FileNotFoundError (msg : string)
| FileExistsError (path : string)
| IsADirectoryError (path : string)
| NotADirectoryError (path : string)
| JSONDecodeError
| RequestException
| Unmodelled (what : string).

(** What running a piece of the program gives: a value, an exception, or
    an unfinished [while] loop when the iteration budget is used up. *)
Inductive outcome (A : Type) : Type :=
| Return (a : A)
| Raise (e : exn)
| OutOfFuel.
Arguments Return {A} a.
Arguments Raise {A} e.
Arguments OutOfFuel {A}.

Definition obind {A B} (o : outcome A) (k : A -> outcome B) : outcome B :=
  match o with
  | Return a => k a
  | Raise e => Raise e
  | OutOfFuel => OutOfFuel
  end.

Module Py.

(** [bool(v)]. *)
Definition truthy (v : json) : bool :=
  match v with
  | JNull => false
  | JBool b => b
  | JNum q => negb (Qeq_bool q 0)
  | JStr s => negb (String.eqb s "")
  | JArr l => match l with [] => false | _ => true end
  | JObj kv => match kv with [] => false | _ => true end
  end.

(** [v == s] for a string [s]. *)
Definition eq_str (v : json) (s : string) : bool :=
  match v with
  | JStr t => String.eqb t s
  | _ => false
  end.

Fixpoint assoc (k : string) (kv : list (string * json)) : option json :=
  match kv with
  | [] => None
  | (k', v) :: rest => if String.eqb k' k then Some v else assoc k rest
  end.

(** [v.get(k, default)]. *)
Definition get (v : json) (k : string) (dflt : json) : outcome json :=
  match v with
  | JObj kv => Return (from_option id dflt (assoc k kv))
  | _ => Raise (AttributeError "get")
  end.

(** [v[k]] for a string key. *)
Definition item (v : json) (k : string) : outcome json :=
  match v with
  | JObj kv =>
      match assoc k kv with
      | Some x => Return x
      | None => Raise (KeyError ("'" ++ k ++ "'"))
      end
  | _ => Raise (TypeError "indices must be integers")
  end.

(** [v[0]]. *)
Definition item0 (v : json) : outcome json :=
  match v with
  | JArr (x :: _) => Return x
  | JArr [] => Raise (IndexError "list index out of range")
  | JStr (String a _) => Return (JStr (String a ""))
  | JStr "" => Raise (IndexError "string index out of range")
  | JObj _ => Raise (KeyError "0")
  | _ => Raise (TypeError "object is not subscriptable")
  end.

Fixpoint chars (s : string) : list json :=
  match s with
  | "" => []
  | String a s' => JStr (String a "") :: chars s'
  end.

(** The items a [for] loop over [v] visits. *)
Definition iter (v : json) : outcome (list json) :=
  match v with
  | JArr l => Return l
  | JObj kv => Return (map (fun p => JStr (fst p)) kv)
  | JStr s => Return (chars s)
  | _ => Raise (TypeError "object is not iterable")
  end.

End Py.

(** ** [template.format(key=value)] with one keyword argument

    Literal text is copied, doubled braces stand for one brace, and a field
    [{key}] is replaced by the value. A field that names anything else
    raises [KeyError] (or [IndexError] when it is positional); fields with a
    conversion, a format specification or an attribute or index lookup are
    outside the model. The template is read left to right and the first
    error is the one raised. *)

Module Format.

Inductive mode : Type :=
| Lit                     (* in literal text *)
| Open                    (* just after an opening brace *)
| Field (acc : string)    (* inside a field; [acc] is its text, reversed *)
| Close.                  (* just after a closing brace in literal text *)

Definition special (a : ascii) : bool :=
  if decide (a = "!"%char) then true
  else if decide (a = ":"%char) then true
  else if decide (a = "."%char) then true
  else if decide (a = "["%char) then true
  else if decide (a = "{"%char) then true
  else false.

Definition resolve (key value name : string) : outcome string :=
  if negb (Text.all_chars (fun a => negb (special a)) name) then
    Raise (Unmodelled "format field with a conversion, a specification or a lookup")
  else if String.eqb name key then Return value
  else if Text.all_chars Text.is_digit name then
    Raise (IndexError "Replacement index out of range for positional args tuple")
  else Raise (KeyError ("'" ++ name ++ "'")).

Fixpoint go (key value : string) (m : mode) (s : string) : outcome string :=
  match s with
  | "" =>
      match m with
      | Lit => Return ""
      | Open => Raise (ValueError "Single '{' encountered in format string")
      | Field _ => Raise (ValueError "expected '}' before end of string")
      | Close => Raise (ValueError "Single '}' encountered in format string")
      end
  | String a s' =>
      match m with
      | Lit =>
          if decide (a = "{"%char) then go key value Open s'
          else if decide (a = "}"%char) then go key value Close s'
          else obind (go key value Lit s') (fun r => Return (String a r))
      | Open =>
          if decide (a = "{"%char) then
            obind (go key value Lit s') (fun r => Return (String a r))
          else if decide (a = "}"%char) then
            obind (resolve key value "") (fun v =>
            obind (go key value Lit s') (fun r => Return (v ++ r)))
          else go key value (Field (String a "")) s'
      | Field acc =>
          if decide (a = "}"%char) then
            obind (resolve key value (String.rev acc)) (fun v =>
            obind (go key value Lit s') (fun r => Return (v ++ r)))
          else go key value (Field (String a acc)) s'
      | Close =>
          if decide (a = "}"%char) then
            obind (go key value Lit s') (fun r => Return (String a r))
          else Raise (ValueError "Single '}' encountered in format string")
      end
  end.

Definition format (template key value : string) : outcome string :=
  go key value Lit template.

End Format.

(** ** The world the program runs in *)

(** The file system maps the text of a normalised path to a regular file
    with its content or to a directory. *)
Inductive node : Type :=
| File (content : string)
| Dir.

(** An HTTP request as the [requests] library receives it. *)
Inductive body : Type :=
| NoBody
| JsonBody (j : json)
| DataBody (data : string).

Record request : Type := mkRequest {
  req_method : string;
  req_url : string;
  req_headers : list (string * string);
  req_body : body;
  req_timeout : option Z
}.

(** The parts of an HTTP response the program reads: [status_code], [text],
    [headers.get("X-Goog-Upload-URL")] and [json()] ([None] when the body
    does not decode). *)
Record response : Type := mkResponse {
  status_code : Z;
  text : string;
  x_goog_upload_url : option string;
  json_body : option json
}.

(** The calls that leave the process, in the order they are made; an HTTP
    request is recorded with the response it received, if any. *)
Inductive event : Type :=
| EvHttp (r : request) (answer : option response)
| EvSleep (secs : Z)
| EvFfprobe (path : string)
| EvFfmpeg (input : string) (ss : Q) (t : Z) (output : string).

(** The external collaborators: the remote service (a state machine that
    answers each request, or fails to answer), the two audio tools (exit
    code, captured output, and for [ffmpeg] the file system it leaves), and
    Python's [float] on text for finite values. *)
Class Env : Type := mkEnv {
  service : Type;
  serve : service -> request -> service * option response;
  ffprobe : gmap string node -> string -> Z * string * string;
  ffmpeg : gmap string node -> string -> Q -> Z -> string
           -> Z * string * gmap string node;
  parse_float : string -> option Q;
  dir_size : nat
}.

Section Worlds.

Context `{E : Env}.

Record World : Type := mkWorld {
  fs : gmap string node;
  environ : gmap string string;
  remote : service;
  trace : list event
}.

Definition set_fs (f : gmap string node) (w : World) : World :=
  {| fs := f; environ := environ w; remote := remote w; trace := trace w |}.

Definition log_event (e : event) (w : World) : World :=
  {| fs := fs w; environ := environ w; remote := remote w;
     trace := trace w ++ [e] |}.

(** *** The monad *)

Definition M (A : Type) : Type := World -> outcome A * World.

Definition ret {A} (a : A) : M A := fun w => (Return a, w).
Definition raise {A} (e : exn) : M A := fun w => (Raise e, w).
Definition out_of_fuel {A} : M A := fun w => (OutOfFuel, w).
Definition lift {A} (o : outcome A) : M A := fun w => (o, w).

Definition bind {A B} (m : M A) (k : A -> M B) : M B :=
  fun w =>
    match m w with
    | (Return a, w') => k a w'
    | (Raise e, w') => (Raise e, w')
    | (OutOfFuel, w') => (OutOfFuel, w')
    end.

(** *** Files *)

(** The root and the working directory always exist. *)
Definition lookup_node (w : World) (p : Path.t) : option node :=
  match Path.parts p with
  | [] => Some Dir
  | _ => fs w !! Path.to_str p
  end.

(** [p.exists()], [os.path.exists(p)]. *)
Definition path_exists (p : Path.t) : M bool :=
  fun w => (Return (match lookup_node w p with Some _ => true | None => false end), w).

(** Why a new entry cannot be created at [p], if it cannot. *)
Definition parent_error (w : World) (p : Path.t) : option exn :=
  match lookup_node w (Path.parent p) with
  | Some Dir => None
  | Some (File _) => Some (NotADirectoryError (Path.to_str p))
  | None => Some (FileNotFoundError (Path.to_str p))
  end.

(** [p.mkdir(exist_ok=True)]. *)
Definition mkdir_exist_ok (p : Path.t) : M unit :=
  fun w =>
    match lookup_node w p with
    | Some Dir => (Return tt, w)
    | Some (File _) => (Raise (FileExistsError (Path.to_str p)), w)
    | None =>
        match parent_error w p with
        | Some e => (Raise e, w)
        | None => (Return tt, set_fs (<[Path.to_str p := Dir]> (fs w)) w)
        end
    end.

(** [p.read_text()], [open(p).read()]. *)
Definition read_text (p : Path.t) : M string :=
  fun w =>
    match lookup_node w p with
    | Some (File c) => (Return c, w)
    | Some Dir => (Raise (IsADirectoryError (Path.to_str p)), w)
    | None => (Raise (FileNotFoundError (Path.to_str p)), w)
    end.

(** [p.stat().st_size]. *)
Definition stat_size (p : Path.t) : M nat :=
  fun w =>
    match lookup_node w p with
    | Some (File c) => (Return (String.length c), w)
    | Some Dir => (Return dir_size, w)
    | None => (Raise (FileNotFoundError (Path.to_str p)), w)
    end.

(** The successive [f.write(v)] of one [with open(p, 'w') as f] block:
    the text written so far, and the [TypeError] of the first value that is
    not a string. *)
Fixpoint write_all (written : string) (vs : list json) : string * option exn :=
  match vs with
  | [] => (written, None)
  | JStr s :: rest => write_all (written ++ s) rest
  | _ :: _ => (written, Some (TypeError "write() argument must be str"))
  end.

(** [with open(p, 'w') as f: f.write(v1); ...]: the file is created or
    truncated on opening, and keeps what was written before a failure.
    The result is the text written. *)
Definition open_write (p : Path.t) (vs : list json) : M string :=
  fun w =>
    match lookup_node w p with
    | Some Dir => (Raise (IsADirectoryError (Path.to_str p)), w)
    | o =>
        match (match o with None => parent_error w p | _ => None end) with
        | Some e => (Raise e, w)
        | None =>
            let '(content, err) := write_all "" vs in
            let w' := set_fs (<[Path.to_str p := File content]> (fs w)) w in
            match err with
            | Some e => (Raise e, w')
            | None => (Return content, w')
            end
        end
    end.

(** *** Processes and the network *)

Definition run_ffprobe (path : string) : M (Z * string * string) :=
  fun w => (Return (ffprobe (fs w) path), log_event (EvFfprobe path) w).

Definition run_ffmpeg (input : string) (ss : Q) (t : Z) (output : string)
  : M (Z * string) :=
  fun w =>
    let '(rc, err, fs') := ffmpeg (fs w) input ss t output in
    (Return (rc, err), log_event (EvFfmpeg input ss t output) (set_fs fs' w)).

Definition sleep (secs : Z) : M unit :=
  fun w => (Return tt, log_event (EvSleep secs) w).

Definition http (r : request) : M response :=
  fun w =>
    let '(s', o) := serve (remote w) r in
    let w' := {| fs := fs w; environ := environ w; remote := s';
                 trace := trace w ++ [EvHttp r o] |} in
    match o with
    | Some resp => (Return resp, w')
    | None => (Raise RequestException, w')
    end.

(** [response.json()]. *)
Definition response_json (r : response) : M json :=
  match json_body r with
  | Some j => ret j
  | None => raise JSONDecodeError
  end.

(** [os.getenv(k)]. *)
Definition getenv (k : string) : M (option string) :=
  fun w => (Return (environ w !! k), w).

End Worlds.

Arguments World {E}.
Arguments M {E} A.

Notation "'let*' p ':=' m 'in' k" := (bind m (fun p => k))
  (at level 10, p pattern, m at level 100, k at level 200).

(** ** [api.py]: the client of the remote service *)

Module GeminiAPI.
Section Api.

Context `{E : Env}.

Definition UPLOAD_URL : string :=
  "https://generativelanguage.googleapis.com/upload/v1beta/files".
Definition FILES_URL : string :=
  "https://generativelanguage.googleapis.com/v1beta/files".
(** [GENERATE_URL_TEMPLATE.format(model=model)]: the template has the one
    field [{model}]. *)
Definition GENERATE_URL (model : string) : string :=
  "https://generativelanguage.googleapis.com/v1beta/models/" ++ model
  ++ ":generateContent".

Record t : Type := mk {
  api_key : string;
  model : string;
  generate_url : string
}.

Definition nonempty (o : option string) : option string :=
  match o with
  | Some s => if String.eqb s "" then None else Some s
  | None => None
  end.

(** [GeminiAPI.__init__]. *)
Definition init (key : option string) (model_name : string) : M t :=
  let* from_env := getenv "GEMINI_API_KEY" in
  let chosen := match nonempty key with Some k => Some k | None => from_env end in
  match nonempty chosen with
  | None =>
      raise (ValueError
        "API key required. Provide via api_key parameter or GEMINI_API_KEY environment variable.")
  | Some k =>
      ret {| api_key := k; model := model_name;
             generate_url := GENERATE_URL model_name |}
  end.

Definition GET (url : string) : request :=
  mkRequest "GET" url [] NoBody None.

(** The [for f in files] loop of [check_existing_file]; running off the
    end of the listing reaches the final [return None, None]. *)
Fixpoint scan_files (display_name : string) (files : list json) : M (json * json) :=
  match files with
  | [] => ret (JNull, JNull)
  | f :: rest =>
      let* dn := lift (Py.get f "displayName" JNull) in
      if Py.eq_str dn display_name then
        let* state := lift (Py.get f "state" JNull) in
        if Py.eq_str state "ACTIVE" then
          let* uri := lift (Py.get f "uri" JNull) in
          let* name := lift (Py.get f "name" JNull) in
          ret (uri, name)
        else scan_files display_name rest
      else scan_files display_name rest
  end.

Definition check_existing_file (self : t) (display_name : string)
  : M (json * json) :=
  let* response := http (GET (FILES_URL ++ "?key=" ++ api_key self)) in
  if (status_code response =? 200)%Z then
    let* listing := response_json response in
    let* files := lift (Py.get listing "files" (JArr [])) in
    let* items := lift (Py.iter files) in
    scan_files display_name items
  else ret (JNull, JNull).

(** The [while True] loop of [_wait_for_file_processing]. *)
Fixpoint poll (self : t) (file_id : string) (fuel : nat) : M unit :=
  match fuel with
  | O => out_of_fuel
  | S fuel' =>
      let* response :=
        http (GET (FILES_URL ++ "/" ++ file_id ++ "?key=" ++ api_key self)) in
      if negb (status_code response =? 200)%Z then
        raise (Exception
          ("Failed to check file status: " ++ pretty (status_code response)))
      else
        let* info := response_json response in
        let* state := lift (Py.get info "state" JNull) in
        if Py.eq_str state "ACTIVE" then ret tt
        else if Py.eq_str state "FAILED" then
          raise (Exception "File processing failed")
        else
          let* _ := sleep 3 in
          poll self file_id fuel'
  end.

Definition _wait_for_file_processing (self : t) (file_name : json) (fuel : nat)
  : M unit :=
  match file_name with
  | JStr s =>
      let file_id :=
        if Text.startswith "files/" s then Text.replace "files/" "" s else s in
      poll self file_id fuel
  | _ => raise (AttributeError "startswith")
  end.

(** [upload_file]; [fuel] bounds the readiness polling. *)
Definition upload_file (self : t) (filepath : Path.t) (mime_type : string)
    (reuse_existing : bool) (fuel : nat) : M (json * json) :=
  let* file_size := stat_size filepath in
  let display_name := Path.stem filepath in
  let* existing :=
    (if reuse_existing then
       let* found := check_existing_file self display_name in
       ret (if Py.truthy (fst found) then Some found else None)
     else ret None) in
  match existing with
  | Some found => ret found
  | None =>
      let headers :=
        [("X-Goog-Upload-Protocol", "resumable");
         ("X-Goog-Upload-Command", "start");
         ("X-Goog-Upload-Header-Content-Length", Text.str_of_nat file_size);
         ("X-Goog-Upload-Header-Content-Type", mime_type);
         ("Content-Type", "application/json")] in
      let metadata := JObj [("file", JObj [("display_name", JStr display_name)])] in
      let* response :=
        http (mkRequest "POST" (UPLOAD_URL ++ "?key=" ++ api_key self)
                        headers (JsonBody metadata) None) in
      if negb (status_code response =? 200)%Z then
        raise (Exception
          ("Failed to initialize upload: " ++ pretty (status_code response)
           ++ " " ++ text response))
      else
        match nonempty (x_goog_upload_url response) with
        | None => raise (Exception "No upload URL returned")
        | Some upload_url =>
            let* file_data := read_text filepath in
            let headers :=
              [("X-Goog-Upload-Command", "upload, finalize");
               ("X-Goog-Upload-Offset", "0");
               ("Content-Length", Text.str_of_nat file_size)] in
            let* response :=
              http (mkRequest "POST" upload_url headers (DataBody file_data) None) in
            if negb (status_code response =? 200)%Z then
              raise (Exception
                ("Failed to upload file: " ++ pretty (status_code response)
                 ++ " " ++ text response))
            else
              let* file_info := response_json response in
              let* info := lift (Py.get file_info "file" (JObj [])) in
              let* file_uri := lift (Py.get info "uri" JNull) in
              let* file_name := lift (Py.get info "name" JNull) in
              let* _ := _wait_for_file_processing self file_name fuel in
              ret (file_uri, file_name)
        end
  end.

(** [result["candidates"][0]["content"]["parts"][0]["text"]]. *)
Definition extract_text (result : json) : outcome json :=
  obind (Py.item result "candidates") (fun cands =>
  obind (Py.item0 cands) (fun cand =>
  obind (Py.item cand "content") (fun content =>
  obind (Py.item content "parts") (fun parts =>
  obind (Py.item0 parts) (fun part =>
  Py.item part "text"))))).

(** The request [generate] posts; [file_uri] is [JNull] for Python's
    [None]. *)
Definition generate_request (self : t) (prompt : string) (file_uri : json)
    (mime_type : string) (temperature : Q) (max_output_tokens : Z)
    (timeout : Z) : request :=
  let parts :=
    ((if Py.truthy file_uri then
        [JObj [("file_data",
                JObj [("mime_type", JStr mime_type); ("file_uri", file_uri)])]]
      else [])
     ++ [JObj [("text", JStr prompt)]])%list in
  let payload :=
    JObj [("contents", JArr [JObj [("parts", JArr parts)]]);
          ("generationConfig",
           JObj [("temperature", JNum temperature);
                 ("maxOutputTokens", JNum (inject_Z max_output_tokens))])] in
  mkRequest "POST" (generate_url self ++ "?key=" ++ api_key self)
            [("Content-Type", "application/json")]
            (JsonBody payload) (Some timeout).

(** [generate]. *)
Definition generate (self : t) (prompt : string) (file_uri : json)
    (mime_type : string) (temperature : Q) (max_output_tokens : Z)
    (timeout : Z) : M json :=
  let* response :=
    http (generate_request self prompt file_uri mime_type temperature
                           max_output_tokens timeout) in
  if negb (status_code response =? 200)%Z then
    raise (Exception
      ("Generation failed: " ++ pretty (status_code response)
       ++ " " ++ text response))
  else
    let* result := response_json response in
    match extract_text result with
    | Raise (KeyError k) =>
        raise (Exception ("Failed to extract response: " ++ k))
    | Raise (IndexError m) =>
        raise (Exception ("Failed to extract response: " ++ m))
    | o => lift o
    end.

End Api.
End GeminiAPI.

(** ** [transcriber.py]: prompts, chunk planning, checkpoints and merge *)

Definition get_chunk_prompt (speakers : option (list string)) : string :=
  let speaker_format :=
    match speakers with
    | Some (a :: b :: rest) =>
        Text.join ", " (map (fun name => "**" ++ name ++ ":**") (a :: b :: rest))
    | _ => "**Speaker 1:** and **Speaker 2:** (or use actual names if identifiable)"
    end in
  let q := Text.quoted in
  Text.lines
    [ "Please transcribe this audio interview/conversation segment.";
      "";
      "FORMAT:";
      "- Speaker names in bold: " ++ speaker_format;
      "- Use proper paragraphing for longer responses";
      "";
      "CLEANING INSTRUCTIONS:";
      "1. Remove filler words: " ++ q "um" ++ ", " ++ q "uh" ++ ", " ++ q "like"
        ++ ", " ++ q "you know" ++ ", " ++ q "sort of" ++ ", " ++ q "kind of"
        ++ " (when used as fillers)";
      "2. Remove pure backchanneling: " ++ q "right" ++ ", " ++ q "yeah" ++ ", "
        ++ q "uh-huh" ++ ", " ++ q "mm-hmm" ++ ", " ++ q "okay" ++ ", " ++ q "sure"
        ++ ", " ++ q "interesting"
        ++ " when they're just acknowledgments (not substantive responses)";
      "3. Keep " ++ q "right" ++ " or " ++ q "yeah"
        ++ " only when part of making a substantive point";
      "4. Clean up false starts, stutters, and repetitions for readability";
      "5. Preserve all intellectual content and nuance";
      "6. Keep substantive questions and responses only";
      "";
      "Provide the complete transcript for this segment." ].

Definition DEFAULT_CHUNK_PROMPT : string := get_chunk_prompt None.

Definition DEFAULT_MERGE_PROMPT : string :=
  let q := Text.quoted in
  Text.lines
    [ "Below is a transcript assembled from multiple audio chunks. Please:";
      "";
      "1. Clean up any duplicate text at chunk boundaries (there was overlap between chunks)";
      "2. Add section headers (## Header) every 15-20 minutes of conversation";
      "   - Section headers should be 5-6 words capturing that section's main topic";
      "   - Example: " ++ q "## Discussion of Main Research Goals" ++ " or "
        ++ q "## Addressing Common Misconceptions";
      "3. Ensure consistent formatting throughout";
      "4. Fix any obvious transcription errors you can identify from context";
      "5. Maintain speaker labels in bold format";
      "";
      "Here is the raw transcript to clean up:";
      "";
      "---";
      "";
      "{transcript}";
      "";
      "---";
      "";
      "Please output the cleaned, formatted transcript with section headers." ].

(** The entries of the list [split_audio] returns. *)
Record Chunk : Type := mkChunk {
  file : Path.t;
  start : Q;
  end_ : Q;
  num : nat
}.

(** [a < b] and Python's [min(a, b)], which keeps [a] unless [b] is
    strictly smaller. Mixed comparisons of Python integers and floats are
    exact, so both are taken over the rationals. *)
Definition Qltb (a b : Q) : bool := negb (Qle_bool b a).
Definition py_min (a b : Q) : Q := if Qltb b a then b else a.

Module Transcriber.
Section Transcriber.

Context `{E : Env}.

Record t : Type := mk {
  api : GeminiAPI.t;
  chunk_duration : Z;
  overlap : Z;
  chunks_dir : Path.t;
  verbose : bool
}.

(** [Transcriber.__init__]. *)
Definition init (api_key : option string) (model : string)
    (chunk_duration overlap : Z) (chunks_dir : string) (verbose : bool) : M t :=
  let* a := GeminiAPI.init api_key model in
  ret {| api := a; chunk_duration := chunk_duration; overlap := overlap;
         chunks_dir := Path.parse chunks_dir; verbose := verbose |}.

Definition get_audio_duration (self : t) (filepath : Path.t) : M Q :=
  let* result := run_ffprobe (Path.to_str filepath) in
  let '(returncode, stdout, stderr) := result in
  if negb (returncode =? 0)%Z then
    raise (Exception ("ffprobe failed: " ++ stderr))
  else
    match parse_float (Text.strip stdout) with
    | Some d => ret d
    | None => raise (ValueError "could not convert string to float")
    end.

Definition chunk_file_name (chunk_num : nat) : string :=
  "chunk_" ++ Text.fmt_02d chunk_num ++ ".wav".

(** The [while start < duration] loop of [split_audio]. *)
Fixpoint split_loop (self : t) (filepath : Path.t) (duration : Q)
    (fuel : nat) (start : Q) (chunk_num : nat) (chunks : list Chunk)
  : M (list Chunk) :=
  match fuel with
  | O => out_of_fuel
  | S fuel' =>
      if Qltb start duration then
        let end_ := py_min (start + inject_Z (chunk_duration self))%Q duration in
        let chunk_file := Path.div (chunks_dir self) (chunk_file_name chunk_num) in
        let* result :=
          run_ffmpeg (Path.to_str filepath) start (chunk_duration self)
                     (Path.to_str chunk_file) in
        if negb (fst result =? 0)%Z then
          raise (Exception ("ffmpeg failed: " ++ snd result))
        else
          let chunks :=
            (chunks ++ [ {| file := chunk_file; start := start;
                            end_ := end_; num := chunk_num |} ])%list in
          let start := (end_ - inject_Z (overlap self))%Q in
          let chunk_num := (chunk_num + 1)%nat in
          if Qle_bool duration end_ then ret chunks
          else split_loop self filepath duration fuel' start chunk_num chunks
      else ret chunks
  end.

Definition split_audio (self : t) (filepath : Path.t) (fuel : nat)
  : M (list Chunk) :=
  let* _ := mkdir_exist_ok (chunks_dir self) in
  let* duration := get_audio_duration self filepath in
  split_loop self filepath duration fuel 0 1%nat [].

Definition transcribe_chunk (self : t) (file_uri : json)
    (chunk_num total_chunks : nat) (prompt : string) : M json :=
  GeminiAPI.generate (api self) prompt file_uri "audio/wav" 0.2 30000 600.

Definition rule : string := Text.nl ++ Text.nl ++ "---" ++ Text.nl ++ Text.nl.

(** The combined text [merge_transcripts] builds from the transcripts. *)
Definition combined (transcripts : list string) : string :=
  Text.join rule
    (map (fun it => "[Chunk " ++ Text.str_of_nat (fst it + 1) ++ "]"
                    ++ Text.nl ++ Text.nl ++ snd it)
         (Text.enumerate transcripts)).

Definition merge_transcripts (self : t) (transcripts : list string)
    (merge_prompt : string) : M json :=
  let* prompt := lift (Format.format merge_prompt "transcript" (combined transcripts)) in
  GeminiAPI.generate (api self) prompt JNull "audio/wav" 0.3 100000 900.

Definition chunk_transcript_file (chunk : Chunk) : string :=
  "transcript_chunk_" ++ Text.fmt_02d (num chunk) ++ ".md".

(** The body of the [for chunk in chunks] loop of [transcribe]: the
    transcript of one chunk, loaded or produced and saved. [f.write]
    accepts only text, so what was written is the transcript. *)
Definition process_chunk (self : t) (chunk_prompt : string)
    (total_chunks fuel : nat) (chunk : Chunk) : M string :=
  let checkpoint := Path.parse (chunk_transcript_file chunk) in
  let* present := path_exists checkpoint in
  if present then read_text checkpoint
  else
    let* uploaded := GeminiAPI.upload_file (api self) (file chunk) "audio/wav" true fuel in
    let* transcript :=
      transcribe_chunk self (fst uploaded) (num chunk) total_chunks chunk_prompt in
    open_write checkpoint [transcript].

Fixpoint process_chunks (self : t) (chunk_prompt : string)
    (total_chunks fuel : nat) (chunks : list Chunk) (transcripts : list string)
  : M (list string) :=
  match chunks with
  | [] => ret transcripts
  | chunk :: rest =>
      let* transcript := process_chunk self chunk_prompt total_chunks fuel chunk in
      process_chunks self chunk_prompt total_chunks fuel rest
                     (transcripts ++ [transcript])%list
  end.

(** Lines 238 to 258 of [transcribe]: the custom instructions and the two
    prompts. *)
Definition load_instructions (instructions_file : option string) : M string :=
  match GeminiAPI.nonempty instructions_file with
  | Some f =>
      let instructions_path := Path.parse f in
      let* present := path_exists instructions_path in
      if present then read_text instructions_path else ret ""
  | None => ret ""
  end.

Definition build_chunk_prompt (chunk_prompt speakers : option string)
    (custom_instructions : string) : string :=
  let speaker_list :=
    match GeminiAPI.nonempty speakers with
    | Some s => Some (map Text.strip (Text.split "," s))
    | None => None
    end in
  let chunk_prompt :=
    match chunk_prompt with
    | None => get_chunk_prompt speaker_list
    | Some p => p
    end in
  if negb (String.eqb custom_instructions "") then
    chunk_prompt ++ Text.nl ++ Text.nl ++ "ADDITIONAL INSTRUCTIONS:" ++ Text.nl
    ++ custom_instructions
  else chunk_prompt.

(** [transcribe]; [fuel] bounds each of the two [while] loops. *)
Definition transcribe (self : t) (audio_file output_file : string)
    (chunk_prompt merge_prompt instructions_file header speakers : option string)
    (fuel : nat) : M json :=
  let audio_path := Path.parse audio_file in
  let* found := path_exists audio_path in
  if negb found then
    raise (FileNotFoundError ("Audio file not found: " ++ audio_file))
  else
    let* custom_instructions := load_instructions instructions_file in
    let chunk_prompt := build_chunk_prompt chunk_prompt speakers custom_instructions in
    let merge_prompt :=
      match merge_prompt with
      | None => DEFAULT_MERGE_PROMPT
      | Some p => p
      end in
    let* chunks := split_audio self audio_path fuel in
    let* transcripts :=
      process_chunks self chunk_prompt (length chunks) fuel chunks [] in
    let* final_transcript := merge_transcripts self transcripts merge_prompt in
    let* _ :=
      open_write (Path.parse output_file)
        ((match GeminiAPI.nonempty header with
          | Some h => [JStr h; JStr rule]
          | None => []
          end) ++ [final_transcript])%list in
    ret final_transcript.

End Transcriber.
End Transcriber.

(** ** A concrete environment, for running the program on examples *)

Module Demo.

(** A scripted service: every request is answered by the next response of
    the script, and goes unanswered once the script is used up. *)
Definition scripted (script : list (option response)) (r : request)
  : list (option response) * option response :=
  match script with
  | [] => ([], None)
  | x :: rest => (rest, x)
  end.

(** [ffprobe] prints a duration that [float] reads as [d]; [ffmpeg] exits
    with [rc] and, when that is zero, leaves the chunk file behind. *)
Definition env (d : Q) (rc : Z) : Env :=
  {| service := list (option response);
     serve := scripted;
     ffprobe := fun _ _ => (0%Z, "duration", "");
     ffmpeg := fun f _ _ _ out =>
       (rc, "", if (rc =? 0)%Z then <[out := File "RIFF"]> f else f);
     parse_float := fun _ => Some d;
     dir_size := 4096 |}.

Definition ok (j : json) : option response :=
  Some {| status_code := 200; text := ""; x_goog_upload_url := None;
          json_body := Some j |}.

Definition failed (status : Z) : option response :=
  Some {| status_code := status; text := "error"; x_goog_upload_url := None;
          json_body := None |}.

Definition remote_file (display_name state uri name : string) : json :=
  JObj [("name", JStr name); ("displayName", JStr display_name);
        ("state", JStr state); ("uri", JStr uri)].

Definition listing (files : list json) : option response :=
  ok (JObj [("files", JArr files)]).

Definition upload_started (url : string) : option response :=
  Some {| status_code := 200; text := ""; x_goog_upload_url := Some url;
          json_body := None |}.

Definition uploaded (uri name : string) : option response :=
  ok (JObj [("file", JObj [("uri", JStr uri); ("name", JStr name)])]).

Definition file_state (state : string) : option response :=
  ok (JObj [("state", JStr state)]).

Definition generated (t : string) : option response :=
  ok (JObj [("candidates",
             JArr [JObj [("content",
                          JObj [("parts", JArr [JObj [("text", JStr t)]])])]])]).

Definition world {d rc} (files : list (string * node))
    (script : list (option response)) : @World (env d rc) :=
  @mkWorld (env d rc) (list_to_map files) ∅ script [].

(** A working directory that holds the recording [talk.wav]. *)
Definition talk_world (d : Q) (rc : Z) (script : list (option response))
  : @World (env d rc) :=
  world [("talk.wav", File "RIFF")] script.

(** A working directory that holds the first chunk of an earlier split. *)
Definition chunk_world (d : Q) (rc : Z) (script : list (option response))
  : @World (env d rc) :=
  world [("audio_chunks", Dir); ("audio_chunks/chunk_01.wav", File "RIFF")] script.

Definition api : GeminiAPI.t :=
  {| GeminiAPI.api_key := "key";
     GeminiAPI.model := "gemini-3-pro-preview";
     GeminiAPI.generate_url := GeminiAPI.GENERATE_URL "gemini-3-pro-preview" |}.

(** The chunk with number [n] in the directory [audio_chunks]. *)
Definition chunk (n : nat) (s e : Q) : Chunk :=
  {| file := Path.div (Path.parse "audio_chunks") (Transcriber.chunk_file_name n);
     start := s; end_ := e; num := n |}.

(** A working directory with the checkpoints of the first two chunks. *)
Definition resumed_world (d : Q) (rc : Z) (script : list (option response))
  : @World (env d rc) :=
  world [("talk.wav", File "RIFF");
         ("transcript_chunk_01.md", File "one");
         ("transcript_chunk_02.md", File "two")] script.

Definition transcriber (chunk_duration overlap : Z) : Transcriber.t :=
  {| Transcriber.api := api;
     Transcriber.chunk_duration := chunk_duration;
     Transcriber.overlap := overlap;
     Transcriber.chunks_dir := Path.parse "audio_chunks";
     Transcriber.verbose := true |}.

End Demo.


(** ** Notions used to state the properties *)

Module Plan.

(** The chunk duration and the overlap, as rationals. *)
Definition cd (self : Transcriber.t) : Q := inject_Z (Transcriber.chunk_duration self).
Definition ov (self : Transcriber.t) : Q := inject_Z (Transcriber.overlap self).

(** The chunks the loop of [split_audio] appends from [start] and
    [chunk_num] on when no [ffmpeg] run fails: the loop with the external
    calls taken out. [None] when [fuel] iterations do not finish it. *)
Fixpoint run (self : Transcriber.t) (d : Q) (fuel : nat) (start : Q)
    (chunk_num : nat) : option (list Chunk) :=
  match fuel with
  | O => None
  | S fuel' =>
      if Qltb start d then
        let e := py_min (start + cd self)%Q d in
        let c := {| file := Path.div (Transcriber.chunks_dir self)
                                     (Transcriber.chunk_file_name chunk_num);
                    start := start; end_ := e; num := chunk_num |} in
        if Qle_bool d e then Some [c]
        else
          option_map (cons c)
            (run self d fuel' (e - ov self)%Q (chunk_num + 1)%nat)
      else Some []
  end.

(** A non-empty run of chunks over an audio of [d] seconds: every chunk
    but the last is [cd] seconds long and ends before [d], the next one
    starts [ov] seconds before that end and has the next number, and the
    last chunk starts before [d], ends at [d] and is no longer than [cd]. *)
Inductive chain (d cd ov : Q) : list Chunk -> Prop :=
| chain_last c :
    (start c < d)%Q -> (end_ c == d)%Q -> (end_ c - start c <= cd)%Q ->
    chain d cd ov [c]
| chain_more c c' l :
    (end_ c - start c == cd)%Q -> (end_ c < d)%Q ->
    (start c' == end_ c - ov)%Q -> num c' = S (num c) ->
    chain d cd ov (c' :: l) ->
    chain d cd ov (c :: c' :: l).

End Plan.

Section Assumptions.

Context `{E : Env}.

(** Before the loop of [split_audio]: the chunks directory is there or
    can be made, and [ffprobe] reports a duration of [d] seconds. *)
Definition measured (self : Transcriber.t) (filepath : Path.t) (w : World)
    (d : Q) : Prop :=
  exists w1 w2,
    mkdir_exist_ok (Transcriber.chunks_dir self) w = (Return tt, w1) /\
    Transcriber.get_audio_duration self filepath w1 = (Return d, w2).

(** The checkpoint of chunk [c] is a regular file that holds [text]. *)
Definition checkpointed (w : World) (c : Chunk) (text : string) : Prop :=
  lookup_node w (Path.parse (Transcriber.chunk_transcript_file c))
  = Some (File text).

(** A computation that leaves the files alone. *)
Definition keeps_files {A} (m : M A) : Prop := forall w, fs (snd (m w)) = fs w.

(** Every [ffmpeg] run exits with code zero. *)
Definition slicing_succeeds : Prop :=
  forall f input ss t output, fst (fst (ffmpeg f input ss t output)) = 0%Z.

End Assumptions.

(** The merge input in the words of the specification: the blocks
    [[Chunk i]] followed by the transcript [t_i], in index order from [i],
    each two consecutive blocks separated by the horizontal rule. *)
Definition spec_block (i : nat) (t : string) : string :=
  "[Chunk " ++ Text.str_of_nat i ++ "]" ++ Text.nl ++ Text.nl ++ t.

Fixpoint spec_merge_input (i : nat) (t : string) (rest : list string) : string :=
  match rest with
  | [] => spec_block i t
  | t' :: rest' => spec_block i t ++ Transcriber.rule ++ spec_merge_input (S i) t' rest'
  end.

(** What the file listing of the remote service shows. *)
Module Listing.
Section Listing.

Context `{E : Env}.

(** The listing request of [check_existing_file]. *)
Definition request (self : GeminiAPI.t) : request :=
  GeminiAPI.GET (GeminiAPI.FILES_URL ++ "?key=" ++ GeminiAPI.api_key self).

(** [f.get(k)] on the fields of an entry. *)
Definition field (kv : list (string * json)) (k : string) : json :=
  from_option id JNull (Py.assoc k kv).

Definition is_object (f : json) : bool :=
  match f with JObj _ => true | _ => false end.

(** The entry carries the display name and is reported ACTIVE. *)
Definition active_match (display_name : string) (f : json) : bool :=
  match f with
  | JObj kv =>
      Py.eq_str (field kv "displayName") display_name
      && Py.eq_str (field kv "state") "ACTIVE"
  | _ => false
  end.

(** A successful listing response that shows the entries [files]. *)
Definition shows (resp : response) (files : list json) : Prop :=
  status_code resp = 200%Z /\
  exists listing, json_body resp = Some listing /\
                  Py.get listing "files" (JArr []) = Return (JArr files).

(** The entry with fields [kv] is the first one, in listing order, that
    carries [display_name] and is ACTIVE. *)
Definition first_match (display_name : string) (files : list json)
    (kv : list (string * json)) : Prop :=
  exists pre post,
    files = (pre ++ JObj kv :: post)%list /\
    Forall (fun g => is_object g = true /\ active_match display_name g = false) pre /\
    active_match display_name (JObj kv) = true.

(** No entry carries [display_name] and is ACTIVE. *)
Definition no_match (display_name : string) (files : list json) : Prop :=
  Forall (fun g => is_object g = true /\ active_match display_name g = false) files.

(** An event is harmless for a run that goes on: it is no HTTP exchange,
    or the listing request, or a request answered with status 200. *)
Definition status_checked (self : GeminiAPI.t) (e : event) : Prop :=
  match e with
  | EvHttp req (Some resp) => req = request self \/ status_code resp = 200%Z
  | EvHttp req None => False
  | _ => True
  end.

(** Whenever [m] returns, every request it made other than the file
    listing was answered with status 200: any other answer is fatal. *)
Definition fatal_on_failure {A} (self : GeminiAPI.t) (m : M A) : Prop :=
  forall w a w', m w = (Return a, w') ->
    exists new, trace w' = (trace w ++ new)%list /\ Forall (status_checked self) new.

(** The same, together with the fact that [m] only ever adds to the
    trace, however it ends. *)
Definition well_behaved {A} (self : GeminiAPI.t) (m : M A) : Prop :=
  forall w, exists new,
    trace (snd (m w)) = (trace w ++ new)%list /\
    (forall a, fst (m w) = Return a -> Forall (status_checked self) new).

End Listing.
End Listing.


(** ** [cli.py]: the command line *)

Module Cli.
Section Cli.

Context `{E : Env}.

(** The parsed arguments ([argparse] has filled in the defaults). *)
Record Args : Type := mkArgs {
  audio_file : string;
  output : string;
  api_key : option string;
  model : string;
  chunk_duration : Z;
  overlap : Z;
  instructions : option string;
  header : option string;
  chunks_dir : string;
  quiet : bool
}.

(** [try: body] followed by the handlers of [main]: every exception of the
    program is an [Exception], so each one ends in [sys.exit(1)]; falling off
    the end is exit code 0. (Interrupts are not part of the model.) *)
Definition exit_code_of {A} (body : M A) : M Z :=
  fun w =>
    match body w with
    | (Return _, w') => (Return 0%Z, w')
    | (Raise _, w') => (Return 1%Z, w')
    | (OutOfFuel, w') => (OutOfFuel, w')
    end.

(** The instructions file [main] passes on: the one given, else
    [transcription_instructions.md] when it exists. *)
Definition choose_instructions (args : Args) : M (option string) :=
  match GeminiAPI.nonempty (instructions args) with
  | Some f => ret (Some f)
  | None =>
      let default_instructions := Path.parse "transcription_instructions.md" in
      let* present := path_exists default_instructions in
      if present then ret (Some (Path.to_str default_instructions))
      else ret (instructions args)
  end.

(** [main], from the parsed arguments to the exit code. *)
Definition main (args : Args) (fuel : nat) : M Z :=
  let* instructions_file := choose_instructions args in
  exit_code_of
    (let* transcriber :=
       Transcriber.init (api_key args) (model args) (chunk_duration args)
                        (overlap args) (chunks_dir args) (negb (quiet args)) in
     Transcriber.transcribe transcriber (audio_file args) (output args)
       None None instructions_file (header args) None fuel).

End Cli.
End Cli.

(** ** More notions used to state properties *)

Section MoreNotions.

Context `{E : Env}.

(** Every event [m] adds to the trace satisfies [P], however [m] ends. *)
Definition emits {A} (P : event -> Prop) (m : M A) : Prop :=
  forall w, exists new,
    trace (snd (m w)) = (trace w ++ new)%list /\ Forall P new.

Definition is_http (e : event) : Prop :=
  match e with EvHttp _ _ => True | _ => False end.

Definition is_tool_run (e : event) : Prop :=
  match e with EvFfprobe _ | EvFfmpeg _ _ _ _ => True | _ => False end.

(** The two requests of a resumable upload. *)
Definition start_request (self : GeminiAPI.t) (file_size : nat)
    (display_name mime_type : string) : request :=
  mkRequest "POST" (GeminiAPI.UPLOAD_URL ++ "?key=" ++ GeminiAPI.api_key self)
    [("X-Goog-Upload-Protocol", "resumable");
     ("X-Goog-Upload-Command", "start");
     ("X-Goog-Upload-Header-Content-Length", Text.str_of_nat file_size);
     ("X-Goog-Upload-Header-Content-Type", mime_type);
     ("Content-Type", "application/json")]
    (JsonBody (JObj [("file", JObj [("display_name", JStr display_name)])]))
    None.

Definition transfer_request (upload_url : string) (file_size : nat)
    (file_data : string) : request :=
  mkRequest "POST" upload_url
    [("X-Goog-Upload-Command", "upload, finalize");
     ("X-Goog-Upload-Offset", "0");
     ("Content-Length", Text.str_of_nat file_size)]
    (DataBody file_data) None.

(** The polling request for a file id. *)
Definition poll_request (self : GeminiAPI.t) (file_id : string) : request :=
  GeminiAPI.GET (GeminiAPI.FILES_URL ++ "/" ++ file_id ++ "?key="
                 ++ GeminiAPI.api_key self).

(** The reuse lookup of [upload_file] hands nothing back and leaves [w1]:
    reuse is disabled, or the lookup returns a handle without a usable
    locator. *)
Definition nothing_to_reuse (self : GeminiAPI.t) (display_name : string)
    (reuse : bool) (w w1 : World) : Prop :=
  (reuse = false /\ w1 = w) \/
  (reuse = true /\ exists found,
     GeminiAPI.check_existing_file self display_name w = (Return found, w1) /\
     Py.truthy (fst found) = false).

(** The one [ffmpeg] run that cuts chunk [c] out of [input]. *)
Definition slice_event (self : Transcriber.t) (input : Path.t) (c : Chunk) : event :=
  EvFfmpeg (Path.to_str input) (start c) (Transcriber.chunk_duration self)
           (Path.to_str (file c)).

(** What is left of [transcribe] once the audio is split into [chunks]. *)
Definition after_split (self : Transcriber.t) (output_file : string)
    (chunk_prompt merge_prompt header speakers : option string)
    (custom_instructions : string) (fuel : nat) (chunks : list Chunk) : M json :=
  let* transcripts :=
    Transcriber.process_chunks self
      (Transcriber.build_chunk_prompt chunk_prompt speakers custom_instructions)
      (length chunks) fuel chunks [] in
  let* final_transcript :=
    Transcriber.merge_transcripts self transcripts
      (match merge_prompt with None => DEFAULT_MERGE_PROMPT | Some p => p end) in
  let* _ :=
    open_write (Path.parse output_file)
      ((match GeminiAPI.nonempty header with
        | Some h => [JStr h; JStr Transcriber.rule]
        | None => []
        end) ++ [final_transcript])%list in
  ret final_transcript.

End MoreNotions.

(** An environment whose service answers every request with status 200 and
    the same file state, for ever. *)
Definition steady_env (state : string) : Env :=
  {| service := unit;
     serve := fun _ _ =>
       (tt, Some {| status_code := 200; text := ""; x_goog_upload_url := None;
                    json_body := Some (JObj [("state", JStr state)]) |});
     ffprobe := fun _ _ => (0%Z, "duration", "");
     ffmpeg := fun f _ _ _ _ => (0%Z, "", f);
     parse_float := fun _ => Some 0%Q;
     dir_size := 4096 |}.

Section PollingNotions.

Context `{E : Env}.

(** The service answers the next [k] polls for [file_id] with status 200
    and a state that is neither ACTIVE nor FAILED; the client sleeps three
    seconds after each. The polls lead from [w] to [w']. *)
Inductive polls_pending (self : GeminiAPI.t) (file_id : string)
  : nat -> World -> World -> Prop :=
| pending_none w : polls_pending self file_id 0 w w
| pending_more k w resp info st w1 w' :
    http (poll_request self file_id) w = (Return resp, w1) ->
    status_code resp = 200%Z ->
    json_body resp = Some info ->
    Py.get info "state" JNull = Return st ->
    Py.eq_str st "ACTIVE" = false ->
    Py.eq_str st "FAILED" = false ->
    polls_pending self file_id k (log_event (EvSleep 3) w1) w' ->
    polls_pending self file_id (S k) w w'.

(** The poll from [w] is answered with status 200 and the state [st]. *)
Definition poll_answered (self : GeminiAPI.t) (file_id : string)
    (st : string) (w w' : World) : Prop :=
  exists resp info,
    http (poll_request self file_id) w = (Return resp, w') /\
    status_code resp = 200%Z /\
    json_body resp = Some info /\
    Py.get info "state" JNull = Return (JStr st).

Definition is_sleep (e : event) : bool :=
  match e with EvSleep _ => true | _ => false end.

Definition slept (w : World) : nat := length (filter is_sleep (trace w)).

End PollingNotions.

(** * Properties *)

(** ** Comparisons on the rationals *)

Lemma Qltb_true a b : Qltb a b = true <-> (a < b)%Q.
Proof.
  unfold Qltb. rewrite negb_true_iff. split.
  - intros H. apply Qnot_le_lt. intros Hle.
    apply Qle_bool_iff in Hle. congruence.
  - intros H. destruct (Qle_bool b a) eqn:Hb; [|done].
    apply Qle_bool_iff in Hb. exfalso. apply (Qlt_not_le _ _ H Hb).
Qed.

Lemma Qltb_false a b : Qltb a b = false <-> (b <= a)%Q.
Proof.
  unfold Qltb. rewrite negb_false_iff. apply Qle_bool_iff.
Qed.

Lemma Qle_bool_false a b : Qle_bool a b = false <-> (b < a)%Q.
Proof.
  rewrite <- (Qltb_true b a). unfold Qltb. by destruct (Qle_bool a b).
Qed.

Lemma py_min_le_l a b : (a <= b)%Q -> py_min a b = a.
Proof. intros H. unfold py_min. apply Qltb_false in H. by rewrite H. Qed.

Lemma py_min_gt_r a b : (b < a)%Q -> py_min a b = b.
Proof. intros H. unfold py_min. apply Qltb_true in H. by rewrite H. Qed.

Lemma py_min_cases a b :
  ((a <= b)%Q /\ py_min a b = a) \/ ((b < a)%Q /\ py_min a b = b).
Proof.
  destruct (Qlt_le_dec b a) as [H|H].
  - right. split; [done|]. by apply py_min_gt_r.
  - left. split; [done|]. by apply py_min_le_l.
Qed.

Lemma inject_nat_S n :
  (inject_Z (Z.of_nat (S n)) == inject_Z (Z.of_nat n) + 1)%Q.
Proof. rewrite Nat2Z.inj_succ. unfold Z.succ. by rewrite inject_Z_plus. Qed.

(** ** The monad *)

Section Monad.

Context `{E : Env}.

Lemma bind_ret_l {A B} (a : A) (k : A -> M B) w : bind (ret a) k w = k a w.
Proof. reflexivity. Qed.

Lemma bind_eq_l {A B} (m1 m2 : M A) (k : A -> M B) w :
  m1 w = m2 w -> bind m1 k w = bind m2 k w.
Proof. unfold bind. by intros ->. Qed.

Lemma bind_assoc {A B C} (m : M A) (k : A -> M B) (h : B -> M C) w :
  bind (bind m k) h w = bind m (fun a => bind (k a) h) w.
Proof. unfold bind. by destruct (m w) as [[a|e|] w1]. Qed.

Lemma bind_path_exists {B} p (k : bool -> M B) w :
  bind (path_exists p) k w
  = k (match lookup_node w p with Some _ => true | None => false end) w.
Proof. reflexivity. Qed.

End Monad.

(** ** The chunk plan *)

Section PlanFacts.

Variable self : Transcriber.t.
Variable d : Q.

Hypothesis ov_nonneg : (0 <= Transcriber.overlap self)%Z.
Hypothesis ov_lt_cd : (Transcriber.overlap self < Transcriber.chunk_duration self)%Z.

Lemma ov_nonneg_Q : (0 <= Plan.ov self)%Q.
Proof. change 0%Q with (inject_Z 0). unfold Plan.ov. by rewrite <- Zle_Qle. Qed.

Lemma step_ge_1 : (Plan.ov self + 1 <= Plan.cd self)%Q.
Proof.
  change 1%Q with (inject_Z 1). unfold Plan.ov, Plan.cd.
  rewrite <- inject_Z_plus, <- Zle_Qle. lia.
Qed.

Lemma ov_lt_cd_Q : (Plan.ov self < Plan.cd self)%Q.
Proof. pose proof step_ge_1. lra. Qed.

(** Enough fuel finishes the plan. *)
Lemma run_finishes fuel s n :
  (d - (s + Plan.cd self) <= inject_Z (Z.of_nat fuel))%Q ->
  is_Some (Plan.run self d (S fuel) s n).
Proof.
  pose proof ov_nonneg_Q as Hov. pose proof step_ge_1 as Hstep.
  revert s n. induction fuel as [|fuel IH]; intros s n Hd.
  - simpl. destruct (Qltb s d) eqn:Hs; [|eauto].
    assert (d <= s + Plan.cd self)%Q as Hle by (change (inject_Z (Z.of_nat 0)) with 0%Q in Hd; lra).
    destruct (Qle_bool d (py_min (s + Plan.cd self) d)) eqn:Hb; [eauto|].
    apply Qle_bool_false in Hb.
    destruct (py_min_cases (s + Plan.cd self) d) as [[? Hm]|[? Hm]];
      rewrite Hm in Hb; lra.
  - rewrite inject_nat_S in Hd.
    change (Plan.run self d (S (S fuel)) s n) with
      (if Qltb s d then
         let e := py_min (s + Plan.cd self)%Q d in
         let c := {| file := Path.div (Transcriber.chunks_dir self)
                                      (Transcriber.chunk_file_name n);
                     start := s; end_ := e; num := n |} in
         if Qle_bool d e then Some [c]
         else option_map (cons c) (Plan.run self d (S fuel) (e - Plan.ov self)%Q (n + 1)%nat)
       else Some []).
    destruct (Qltb s d) eqn:Hs; [|eauto]. cbv zeta.
    destruct (Qle_bool d (py_min (s + Plan.cd self) d)) eqn:Hb; [eauto|].
    apply Qle_bool_false in Hb.
    assert (s + Plan.cd self < d)%Q as Hlt.
    { destruct (py_min_cases (s + Plan.cd self) d) as [[? Hm]|[? Hm]];
        rewrite Hm in Hb; lra. }
    rewrite py_min_le_l by lra.
    destruct (IH (s + Plan.cd self - Plan.ov self)%Q (n + 1)%nat) as [l Hl]; [lra|].
    rewrite Hl. eauto.
Qed.

Lemma run_unfold fuel s n :
  Plan.run self d (S fuel) s n =
  if Qltb s d then
    let e := py_min (s + Plan.cd self)%Q d in
    let c := {| file := Path.div (Transcriber.chunks_dir self)
                                 (Transcriber.chunk_file_name n);
                start := s; end_ := e; num := n |} in
    if Qle_bool d e then Some [c]
    else option_map (cons c) (Plan.run self d fuel (e - Plan.ov self)%Q (n + 1)%nat)
  else Some [].
Proof. reflexivity. Qed.

(** More fuel does not change a finished plan. *)
Lemma run_mono fuel fuel' s n l :
  Plan.run self d fuel s n = Some l -> (fuel <= fuel')%nat ->
  Plan.run self d fuel' s n = Some l.
Proof.
  revert fuel' s n l. induction fuel as [|fuel IH]; intros fuel' s n l Hrun Hle.
  - discriminate.
  - destruct fuel' as [|fuel']; [lia|].
    rewrite run_unfold in *.
    destruct (Qltb s d); [|done]. cbv zeta in *.
    destruct (Qle_bool d _); [done|].
    destruct (Plan.run self d fuel _ _) as [l'|] eqn:Hl'; [|discriminate].
    rewrite (IH fuel' _ _ l' Hl') by lia. done.
Qed.

(** A finished plan that starts inside the audio is a chain beginning at
    the given start and number. *)
Lemma run_chain fuel s n l :
  Plan.run self d fuel s n = Some l -> (s < d)%Q ->
  Plan.chain d (Plan.cd self) (Plan.ov self) l /\
  exists c l', l = c :: l' /\ start c = s /\ num c = n.
Proof.
  pose proof ov_nonneg_Q as Hov. pose proof step_ge_1 as Hstep.
  revert s n l. induction fuel as [|fuel IH]; intros s n l Hrun Hs.
  - discriminate.
  - rewrite run_unfold in Hrun.
    apply Qltb_true in Hs as Hs'. rewrite Hs' in Hrun. cbv zeta in Hrun.
    destruct (Qle_bool d _) eqn:Hb.
    + injection Hrun as <-. split; [|eauto].
      apply Qle_bool_iff in Hb.
      apply Plan.chain_last; simpl;
        destruct (py_min_cases (s + Plan.cd self) d) as [[? Hm]|[? Hm]];
        rewrite Hm in *; lra.
    + apply Qle_bool_false in Hb.
      assert ((s + Plan.cd self < d)%Q /\
              py_min (s + Plan.cd self) d = (s + Plan.cd self)%Q) as [Hlt Hm].
      { destruct (py_min_cases (s + Plan.cd self) d) as [[? Hm]|[? Hm]];
          rewrite Hm in Hb; split; (lra || done). }
      rewrite Hm in Hrun.
      destruct (Plan.run self d fuel _ _) as [l'|] eqn:Hl'; [|discriminate].
      injection Hrun as <-.
      destruct (IH _ _ _ Hl') as [Hch (c' & l'' & -> & Hs1 & Hn1)]; [lra|].
      split; [|eauto].
      apply Plan.chain_more; simpl; try done; try lra.
      * rewrite Hs1. lra.
      * rewrite Hn1. lia.
Qed.

(** Every planned chunk is the file named after its number in the chunks
    directory. *)
Lemma run_files fuel s n l c :
  Plan.run self d fuel s n = Some l -> c ∈ l ->
  file c = Path.div (Transcriber.chunks_dir self)
                    (Transcriber.chunk_file_name (num c)).
Proof.
  revert s n l. induction fuel as [|fuel IH]; intros s n l Hrun Hin.
  - discriminate.
  - rewrite run_unfold in Hrun.
    destruct (Qltb s d); [|injection Hrun as <-; by apply elem_of_nil in Hin].
    cbv zeta in Hrun. destruct (Qle_bool d _).
    + injection Hrun as <-. apply list_elem_of_singleton in Hin. by subst c.
    + destruct (Plan.run self d fuel _ _) as [l'|] eqn:Hl'; [|discriminate].
      injection Hrun as <-. apply elem_of_cons in Hin as [->|Hin]; [done|].
      eapply IH; eauto.
Qed.

End PlanFacts.

Section ChainFacts.

Variables d cd ov : Q.

Lemma chain_nonempty l : Plan.chain d cd ov l -> l <> [].
Proof. by destruct 1. Qed.

(** Numbers are consecutive. *)
Lemma chain_nums l :
  Plan.chain d cd ov l ->
  forall i c c0, l !! 0%nat = Some c0 -> l !! i = Some c -> num c = (num c0 + i)%nat.
Proof.
  induction 1 as [c|c c' l H1 H2 H3 H4 Hch IH]; intros i x c0 Hc0 Hi.
  - destruct i; simpl in *; [|done]. simplify_eq. lia.
  - simpl in Hc0. simplify_eq. destruct i as [|i]; simpl in Hi.
    + simplify_eq. lia.
    + rewrite (IH i x c' eq_refl Hi). lia.
Qed.

(** Every chunk but the last is exactly [cd] long. *)
Lemma chain_full l :
  Plan.chain d cd ov l ->
  forall i c, l !! i = Some c -> (S i < length l)%nat ->
  (end_ c - start c == cd)%Q.
Proof.
  induction 1 as [c|c c' l H1 H2 H3 H4 Hch IH]; intros i x Hi Hlen.
  - simpl in Hlen. lia.
  - destruct i as [|i]; simpl in Hi.
    + by simplify_eq.
    + apply (IH i x Hi). simpl in *. lia.
Qed.

(** The last chunk ends at the end of the audio. *)
Lemma chain_last_end l :
  Plan.chain d cd ov l ->
  forall c, last l = Some c -> (end_ c == d)%Q.
Proof.
  induction 1 as [c|c c' l H1 H2 H3 H4 Hch IH]; intros x Hx.
  - simpl in Hx. by simplify_eq.
  - apply IH. by rewrite last_cons_cons in Hx.
Qed.

(** No chunk is longer than [cd]. *)
Lemma chain_length_le l :
  Plan.chain d cd ov l ->
  forall c, c ∈ l -> (end_ c - start c <= cd)%Q.
Proof.
  induction 1 as [c|c c' l H1 H2 H3 H4 Hch IH]; intros x Hx.
  - apply list_elem_of_singleton in Hx. by subst.
  - apply elem_of_cons in Hx as [->|Hx]; [lra|by apply IH].
Qed.

(** Consecutive chunks share exactly [ov] seconds. *)
Lemma chain_overlap l :
  Plan.chain d cd ov l ->
  forall i c c', l !! i = Some c -> l !! S i = Some c' ->
  (end_ c - start c' == ov)%Q.
Proof.
  induction 1 as [c|c c' l H1 H2 H3 H4 Hch IH]; intros i x x' Hi Hi'.
  - destruct i; simpl in *; done.
  - destruct i as [|i]; simpl in Hi, Hi'.
    + simplify_eq. lra.
    + by apply (IH i).
Qed.

(** Every instant from the first start to the end of the audio lies in a
    chunk. *)
Lemma chain_cover l :
  (0 <= ov)%Q -> Plan.chain d cd ov l ->
  forall c0 t, l !! 0%nat = Some c0 -> (start c0 <= t)%Q -> (t < d)%Q ->
  exists c, c ∈ l /\ (start c <= t)%Q /\ (t < end_ c)%Q.
Proof.
  intros Hov. induction 1 as [c|c c' l H1 H2 H3 H4 Hch IH]; intros c0 t Hc0 Ht Htd;
    simpl in Hc0; simplify_eq.
  - exists c0. split; [apply list_elem_of_here|]. lra.
  - destruct (Qlt_le_dec t (end_ c0)) as [Hlt|Hge].
    + exists c0. split; [apply list_elem_of_here|]. lra.
    + destruct (IH c' t eq_refl) as (x & Hx & ?); [lra|done|].
      exists x. split; [by apply list_elem_of_further|done].
Qed.

(** Starts strictly increase. *)
Lemma chain_advances l :
  (ov < cd)%Q -> Plan.chain d cd ov l ->
  forall i c c', l !! i = Some c -> l !! S i = Some c' ->
  (start c < start c')%Q.
Proof.
  intros Hov. induction 1 as [c|c c' l H1 H2 H3 H4 Hch IH]; intros i x x' Hi Hi'.
  - destruct i; simpl in *; done.
  - destruct i as [|i]; simpl in Hi, Hi'.
    + simplify_eq. lra.
    + by apply (IH i).
Qed.

(** Ends strictly increase too: the stretch two consecutive chunks share
    runs from the start of the later one to the end of the earlier one. *)
Lemma chain_ends_increase l :
  (ov < cd)%Q -> Plan.chain d cd ov l ->
  forall i c c', l !! i = Some c -> l !! S i = Some c' ->
  (end_ c < end_ c')%Q.
Proof.
  intros Hov. induction 1 as [c|c c' l H1 H2 H3 H4 Hch IH]; intros i x x' Hi Hi'.
  - destruct i; simpl in *; done.
  - destruct i as [|i]; simpl in Hi, Hi'.
    + simplify_eq. inversion Hch; subst; lra.
    + by apply (IH i).
Qed.

End ChainFacts.

(** ** The loop of [split_audio] against the plan *)

Section SplitLoop.

Context `{E : Env}.
Variable self : Transcriber.t.
Variable filepath : Path.t.
Variable d : Q.

(** Whatever [ffmpeg] does, a returned list is the accumulated chunks
    followed by the plan, and the loop runs out of fuel only if the plan
    does. *)
Lemma split_loop_plan fuel s n acc w :
  match fst (Transcriber.split_loop self filepath d fuel s n acc w) with
  | Return l => exists l', Plan.run self d fuel s n = Some l' /\ l = (acc ++ l')%list
  | Raise _ => True
  | OutOfFuel => Plan.run self d fuel s n = None
  end.
Proof.
  revert s n acc w. induction fuel as [|fuel IH]; intros s n acc w; [done|].
  rewrite run_unfold. simpl.
  destruct (Qltb s d); simpl; [|exists []; by rewrite app_nil_r].
  unfold bind, run_ffmpeg.
  destruct (ffmpeg _ _ _ _ _) as [[rc err] f']. simpl.
  destruct (rc =? 0)%Z; simpl; [|done].
  destruct (Qle_bool d _); simpl; [eauto|].
  specialize (IH (py_min (s + Plan.cd self) d - Plan.ov self)%Q (n + 1)%nat
    (acc ++ [{| file := Path.div (Transcriber.chunks_dir self)
                                 (Transcriber.chunk_file_name n);
                start := s; end_ := py_min (s + Plan.cd self) d; num := n |}])%list
    (log_event (EvFfmpeg (Path.to_str filepath) s (Transcriber.chunk_duration self)
       (Path.to_str (Path.div (Transcriber.chunks_dir self)
                              (Transcriber.chunk_file_name n))))
       (set_fs f' w))).
  unfold Plan.cd, Plan.ov in *.
  destruct (fst (Transcriber.split_loop _ _ _ _ _ _ _ _)) as [l| |]; [|done|].
  - destruct IH as (l' & -> & ->). eexists. split; [done|].
    by rewrite <- app_assoc.
  - by rewrite IH.
Qed.

(** When no [ffmpeg] run fails the loop returns exactly the plan. *)
Lemma split_loop_ok fuel s n acc w :
  slicing_succeeds ->
  fst (Transcriber.split_loop self filepath d fuel s n acc w) =
  match Plan.run self d fuel s n with
  | Some l' => Return (acc ++ l')%list
  | None => OutOfFuel
  end.
Proof.
  intros Hok. revert s n acc w.
  induction fuel as [|fuel IH]; intros s n acc w; [done|].
  rewrite run_unfold. simpl.
  destruct (Qltb s d); simpl; [|by rewrite app_nil_r].
  unfold bind, run_ffmpeg.
  pose proof (Hok (fs w) (Path.to_str filepath) s (Transcriber.chunk_duration self)
    (Path.to_str (Path.div (Transcriber.chunks_dir self)
                           (Transcriber.chunk_file_name n)))) as Hrc.
  destruct (ffmpeg _ _ _ _ _) as [[rc err] f']. simpl in Hrc. subst rc. simpl.
  destruct (Qle_bool d _); simpl; [done|].
  rewrite IH. unfold Plan.cd, Plan.ov.
  destruct (Plan.run _ _ _ _ _); simpl; [|done].
  by rewrite <- app_assoc.
Qed.

Lemma split_audio_ok fuel w :
  measured self filepath w d -> slicing_succeeds ->
  fst (Transcriber.split_audio self filepath fuel w) =
  match Plan.run self d fuel 0 1 with
  | Some l => Return l
  | None => OutOfFuel
  end.
Proof.
  intros (w1 & w2 & Hmk & Hdur) Hok.
  unfold Transcriber.split_audio, bind. rewrite Hmk, Hdur.
  by rewrite split_loop_ok.
Qed.

End SplitLoop.

Section SplitAudio.

Context `{E : Env}.
Variable self : Transcriber.t.
Variable filepath : Path.t.

Hypothesis ov_nonneg : (0 <= Transcriber.overlap self)%Z.
Hypothesis ov_lt_cd : (Transcriber.overlap self < Transcriber.chunk_duration self)%Z.

(** A number of iterations that is enough for an audio of [d] seconds. *)
Lemma enough_fuel d :
  (d - (0 + Plan.cd self) <= inject_Z (Z.of_nat (Z.to_nat (Qceiling d))))%Q.
Proof.
  pose proof (ov_nonneg_Q self ov_nonneg) as Hov.
  pose proof (step_ge_1 self ov_lt_cd) as Hstep.
  pose proof (Qle_ceiling d) as Hc.
  assert (inject_Z (Qceiling d) <= inject_Z (Z.of_nat (Z.to_nat (Qceiling d))))%Q
    by (rewrite <- Zle_Qle; lia).
  lra.
Qed.

(** The plan of an accepted configuration exists and does not depend on
    the fuel once there is enough of it. *)
Lemma plan_exists d s n :
  (d - (s + Plan.cd self) <= inject_Z (Z.of_nat (Z.to_nat (Qceiling d))))%Q ->
  exists l, forall fuel, (S (Z.to_nat (Qceiling d)) <= fuel)%nat ->
    Plan.run self d fuel s n = Some l.
Proof.
  intros Hd.
  destruct (run_finishes self d ov_nonneg ov_lt_cd _ s n Hd) as [l Hl].
  exists l. intros fuel Hfuel. by apply (run_mono self d _ fuel _ _ _ Hl).
Qed.

(** With working tools and a positive duration, [split_audio] returns a
    chain of chunks that starts at zero with chunk number one. *)
Lemma split_audio_returns d w :
  (0 < d)%Q -> measured self filepath w d -> slicing_succeeds ->
  exists n c0 rest,
    (forall fuel, (n <= fuel)%nat ->
       fst (Transcriber.split_audio self filepath fuel w) = Return (c0 :: rest)) /\
    (forall fuel l, Plan.run self d fuel 0 1 = Some l -> l = c0 :: rest) /\
    Plan.chain d (Plan.cd self) (Plan.ov self) (c0 :: rest) /\
    start c0 = 0%Q /\ num c0 = 1%nat.
Proof.
  intros Hd Hm Hok.
  destruct (plan_exists d 0 1%nat (enough_fuel d)) as [l Hl].
  pose proof (Hl _ (Nat.le_refl _)) as Hl0.
  destruct (run_chain self d ov_nonneg ov_lt_cd _ _ _ _ Hl0 Hd)
    as [Hch (c0 & rest & -> & Hs & Hn)].
  exists (S (Z.to_nat (Qceiling d))), c0, rest. split_and!; try done.
  - intros fuel Hfuel. rewrite (split_audio_ok self filepath d) by done.
    by rewrite Hl.
  - intros fuel l Hrun.
    pose proof (run_mono self d _ (max fuel (S (Z.to_nat (Qceiling d)))) _ _ _
                  Hrun (Nat.le_max_l _ _)) as H1.
    rewrite Hl in H1 by lia. by injection H1.
Qed.

End SplitAudio.

(** ** C2 and C3: the chunk plan *)

(** The plan of the worked example, by evaluation. *)
Lemma example_plan (self : Transcriber.t) :
  Transcriber.chunk_duration self = 1200%Z -> Transcriber.overlap self = 10%Z ->
  exists l, Plan.run self 2500 3 0 1 = Some l /\
    map (fun c => (num c, start c, end_ c)) l
    = [(1%nat, 0%Q, 1200%Q); (2%nat, 1190%Q, 2390%Q); (3%nat, 2380%Q, 2500%Q)].
Proof.
  destruct self as [a cd ov dir v]. simpl. intros -> ->.
  eexists. split; [vm_compute; reflexivity|]. reflexivity.
Qed.

(** C2. For every total duration [d > 0] and every [0 < overlap <
    chunk_duration], given working tools, [split_audio] returns (with enough
    iterations allowed) a list of chunks such that: every instant of
    [[0, d)] lies in some chunk (no gaps); no chunk is longer than
    [chunk_duration]; each two consecutive chunks overlap by exactly
    [overlap] seconds; every chunk but the last has the full length (only
    the final chunk is shortened); and for [d = 2500], [chunk_duration =
    1200], [overlap = 10] the plan is exactly (1: 0-1200), (2: 1190-2390),
    (3: 2380-2500). *)
Theorem C2_plan_covers_with_exact_overlap `{E : Env}
    (self : Transcriber.t) (filepath : Path.t) (w : World) (d : Q) :
  (0 < d)%Q ->
  (0 < Transcriber.overlap self < Transcriber.chunk_duration self)%Z ->
  measured self filepath w d ->
  slicing_succeeds ->
  exists n chunks,
    (forall fuel, (n <= fuel)%nat ->
       fst (Transcriber.split_audio self filepath fuel w) = Return chunks) /\
    (forall t, (0 <= t)%Q -> (t < d)%Q ->
       exists c, c ∈ chunks /\ (start c <= t)%Q /\ (t < end_ c)%Q) /\
    (forall c, c ∈ chunks ->
       (end_ c - start c <= inject_Z (Transcriber.chunk_duration self))%Q) /\
    (forall i c c', chunks !! i = Some c -> chunks !! S i = Some c' ->
       (end_ c - start c' == inject_Z (Transcriber.overlap self))%Q /\
       (end_ c < end_ c')%Q) /\
    (forall i c, chunks !! i = Some c -> (S i < length chunks)%nat ->
       (end_ c - start c == inject_Z (Transcriber.chunk_duration self))%Q) /\
    (d = 2500%Q -> Transcriber.chunk_duration self = 1200%Z ->
     Transcriber.overlap self = 10%Z ->
     map (fun c => (num c, start c, end_ c)) chunks
     = [(1%nat, 0%Q, 1200%Q); (2%nat, 1190%Q, 2390%Q); (3%nat, 2380%Q, 2500%Q)]).
Proof.
  intros Hd [Hov0 Hov] Hm Hok.
  assert (0 <= Transcriber.overlap self)%Z as Hov1 by lia.
  destruct (split_audio_returns self filepath Hov1 Hov d w Hd Hm Hok)
    as (n & c0 & rest & Hret & Hdet & Hch & Hs & Hn).
  exists n, (c0 :: rest). split_and!.
  - done.
  - intros t Ht0 Htd.
    apply (chain_cover _ _ _ _ (ov_nonneg_Q self Hov1) Hch c0 t); [done| |done].
    rewrite Hs. done.
  - apply (chain_length_le _ _ _ _ Hch).
  - intros i c c' Hi Hi'. split.
    + apply (chain_overlap _ _ _ _ Hch i c c' Hi Hi').
    + apply (chain_ends_increase _ _ _ _ (ov_lt_cd_Q self Hov) Hch i c c' Hi Hi').
  - apply (chain_full _ _ _ _ Hch).
  - intros -> Hcd Ho. destruct (example_plan self Hcd Ho) as (l & Hl & Hmap).
    by rewrite <- (Hdet _ _ Hl).
Qed.

(** C3. For every chunk plan produced by [split_audio] with [0 <= overlap <
    chunk_duration] and a total duration [d > 0] (given working tools): the
    plan is not empty, the chunk at position [i] (from zero) has number
    [i + 1], every chunk except the last satisfies [end - start ==
    chunk_duration] exactly, and the last chunk's end equals [d]. *)
Theorem C3_indices_full_chunks_last_end `{E : Env}
    (self : Transcriber.t) (filepath : Path.t) (w : World) (d : Q) :
  (0 < d)%Q ->
  (0 <= Transcriber.overlap self < Transcriber.chunk_duration self)%Z ->
  measured self filepath w d ->
  slicing_succeeds ->
  exists n chunks,
    (forall fuel, (n <= fuel)%nat ->
       fst (Transcriber.split_audio self filepath fuel w) = Return chunks) /\
    chunks <> [] /\
    (forall i c, chunks !! i = Some c -> num c = S i) /\
    (forall i c, chunks !! i = Some c -> (S i < length chunks)%nat ->
       (end_ c - start c == inject_Z (Transcriber.chunk_duration self))%Q) /\
    (forall c, last chunks = Some c -> (end_ c == d)%Q).
Proof.
  intros Hd [Hov0 Hov] Hm Hok.
  destruct (split_audio_returns self filepath Hov0 Hov d w Hd Hm Hok)
    as (n & c0 & rest & Hret & Hdet & Hch & Hs & Hn).
  exists n, (c0 :: rest). split_and!.
  - done.
  - done.
  - intros i c Hi.
    rewrite (chain_nums _ _ _ _ Hch i c c0 eq_refl Hi). lia.
  - apply (chain_full _ _ _ _ Hch).
  - apply (chain_last_end _ _ _ _ Hch).
Qed.

Ltac demo_measured :=
  match goal with
  | |- measured ?self ?p ?w ?d =>
      exists (snd (mkdir_exist_ok (Transcriber.chunks_dir self) w)),
             (snd (Transcriber.get_audio_duration self p
                     (snd (mkdir_exist_ok (Transcriber.chunks_dir self) w))));
      split; vm_compute; reflexivity
  end.

Lemma C2_witness :
  (0 < 2500)%Q /\
  (0 < Transcriber.overlap (Demo.transcriber 1200 10)
     < Transcriber.chunk_duration (Demo.transcriber 1200 10))%Z /\
  exists n chunks,
    (forall fuel, (n <= fuel)%nat ->
       fst (@Transcriber.split_audio (Demo.env 2500 0) (Demo.transcriber 1200 10)
              (Path.parse "talk.wav") fuel (Demo.talk_world 2500 0 []))
       = Return chunks) /\
    map (fun c => (num c, start c, end_ c)) chunks
    = [(1%nat, 0%Q, 1200%Q); (2%nat, 1190%Q, 2390%Q); (3%nat, 2380%Q, 2500%Q)].
Proof.
  split; [reflexivity|]. split; [simpl; lia|].
  destruct (@C2_plan_covers_with_exact_overlap (Demo.env 2500 0)
              (Demo.transcriber 1200 10) (Path.parse "talk.wav")
              (Demo.talk_world 2500 0 []) 2500)
    as (n & chunks & Hret & _ & _ & _ & _ & Hex).
  - reflexivity.
  - simpl; lia.
  - demo_measured.
  - intros f input ss t output. reflexivity.
  - exists n, chunks. split; [exact Hret|]. apply Hex; reflexivity.
Defined.

Lemma C3_witness :
  (0 < 2500)%Q /\
  (0 <= Transcriber.overlap (Demo.transcriber 1200 0)
     < Transcriber.chunk_duration (Demo.transcriber 1200 0))%Z /\
  exists n chunks,
    (forall fuel, (n <= fuel)%nat ->
       fst (@Transcriber.split_audio (Demo.env 2500 0) (Demo.transcriber 1200 0)
              (Path.parse "talk.wav") fuel (Demo.talk_world 2500 0 []))
       = Return chunks) /\
    chunks <> [] /\
    (forall i c, chunks !! i = Some c -> num c = S i) /\
    (forall c, last chunks = Some c -> (end_ c == 2500)%Q).
Proof.
  split; [reflexivity|]. split; [simpl; lia|].
  destruct (@C3_indices_full_chunks_last_end (Demo.env 2500 0)
              (Demo.transcriber 1200 0) (Path.parse "talk.wav")
              (Demo.talk_world 2500 0 []) 2500)
    as (n & chunks & Hret & Hne & Hnum & _ & Hlast).
  - reflexivity.
  - simpl; lia.
  - demo_measured.
  - intros f input ss t output. reflexivity.
  - exists n, chunks. split_and!; assumption.
Defined.

(** ** C1: the configuration is not checked; accepted configurations terminate *)

Section Termination.

Context `{E : Env}.
Variable self : Transcriber.t.
Variable filepath : Path.t.

Hypothesis ov_nonneg : (0 <= Transcriber.overlap self)%Z.
Hypothesis ov_lt_cd : (Transcriber.overlap self < Transcriber.chunk_duration self)%Z.

(** The loop finishes for every duration and whatever the tools do, and
    the starts of the chunks it returns strictly increase. *)
Lemma split_loop_finishes d w :
  forall fuel, (S (Z.to_nat (Qceiling d)) <= fuel)%nat ->
    fst (Transcriber.split_loop self filepath d fuel 0 1 [] w) <> OutOfFuel /\
    forall l, fst (Transcriber.split_loop self filepath d fuel 0 1 [] w) = Return l ->
      forall i c c', l !! i = Some c -> l !! S i = Some c' ->
        (start c < start c')%Q.
Proof.
  intros fuel Hfuel.
  destruct (plan_exists self ov_nonneg ov_lt_cd d 0 1%nat
              (enough_fuel self ov_nonneg ov_lt_cd d)) as [l Hl].
  specialize (Hl fuel Hfuel).
  pose proof (split_loop_plan self filepath d fuel 0 1%nat [] w) as Hplan.
  destruct (fst (Transcriber.split_loop _ _ _ _ _ _ _ _)) as [l0|e|].
  - split; [done|]. intros ? [= <-].
    destruct Hplan as (l' & Hl' & ->). simpl.
    rewrite Hl in Hl'. injection Hl' as <-.
    destruct (Qlt_le_dec 0 d) as [Hd|Hd].
    + destruct (run_chain self d ov_nonneg ov_lt_cd _ _ _ _ Hl Hd) as [Hch _].
      apply (chain_advances d (Plan.cd self) (Plan.ov self) l); [|done].
      pose proof (step_ge_1 self ov_lt_cd). lra.
    + destruct fuel as [|fuel]; [lia|]. rewrite run_unfold in Hl.
      apply Qltb_false in Hd. rewrite Hd in Hl. injection Hl as <-.
      intros i c c' Hi. by destruct i.
  - split; [done|]. intros ? [=].
  - congruence.
Qed.

Lemma split_audio_finishes w :
  exists n, forall fuel, (n <= fuel)%nat ->
    fst (Transcriber.split_audio self filepath fuel w) <> OutOfFuel /\
    forall l, fst (Transcriber.split_audio self filepath fuel w) = Return l ->
      forall i c c', l !! i = Some c -> l !! S i = Some c' ->
        (start c < start c')%Q.
Proof.
  unfold Transcriber.split_audio, bind.
  destruct (mkdir_exist_ok _ w) as [[[]|e|] w1] eqn:Hmk.
  - destruct (Transcriber.get_audio_duration self filepath w1) as [[d|e|] w2] eqn:Hd.
    + exists (S (Z.to_nat (Qceiling d))). intros fuel Hfuel.
      by apply split_loop_finishes.
    + exists 0%nat. intros fuel _. simpl. split; [done|]. intros ? [=].
    + exfalso. unfold Transcriber.get_audio_duration, bind, run_ffprobe in Hd.
      destruct (ffprobe _ _) as [[rc out] err]. simpl in Hd.
      destruct (rc =? 0)%Z; simpl in Hd; [|discriminate].
      destruct (parse_float _); discriminate.
  - exists 0%nat. intros fuel _. simpl. split; [done|]. intros ? [=].
  - exfalso. unfold mkdir_exist_ok in Hmk.
    repeat case_match; discriminate.
Qed.

End Termination.

(** The other side: with [overlap >= chunk_duration], on an audio longer
    than one chunk, the plan is never finished and the loop never returns,
    however many iterations it is given. *)
Lemma run_never_finishes (self : Transcriber.t) (d : Q) fuel s n :
  (Transcriber.chunk_duration self <= Transcriber.overlap self)%Z ->
  (s < d)%Q -> (s + Plan.cd self < d)%Q ->
  Plan.run self d fuel s n = None.
Proof.
  intros Hov. assert (Plan.cd self <= Plan.ov self)%Q as Hq
    by (unfold Plan.cd, Plan.ov; by rewrite <- Zle_Qle).
  revert s n. induction fuel as [|fuel IH]; intros s n Hs Hlt; [done|].
  rewrite run_unfold. apply Qltb_true in Hs as Hs'. rewrite Hs'. cbv zeta.
  rewrite py_min_le_l by lra.
  assert (Qle_bool d (s + Plan.cd self) = false) as -> by (apply Qle_bool_false; lra).
  rewrite IH; [done|lra|lra].
Qed.

Lemma split_loop_never_returns `{E : Env} (self : Transcriber.t)
    (filepath : Path.t) (d : Q) fuel w l :
  (Transcriber.chunk_duration self <= Transcriber.overlap self)%Z ->
  (0 < d)%Q -> (inject_Z (Transcriber.chunk_duration self) < d)%Q ->
  fst (Transcriber.split_loop self filepath d fuel 0 1 [] w) <> Return l.
Proof.
  intros Hov Hd Hcd Hret.
  pose proof (split_loop_plan self filepath d fuel 0 1%nat [] w) as Hplan.
  rewrite Hret in Hplan. destruct Hplan as (l' & Hrun & _).
  rewrite run_never_finishes in Hrun; [done|done|done|].
  unfold Plan.cd. lra.
Qed.

(** C1 (as amended). The constructor does not compare [overlap] with
    [chunk_duration]: given a non-empty API key it returns, for every pair
    of values, a transcriber that holds both unchanged and leaves the world
    as it was. For every configuration with [0 <= overlap < chunk_duration],
    [split_audio] finishes once enough iterations are allowed, whatever the
    duration is and whatever the tools do, and the starts of the chunks it
    returns strictly increase: the loop neither regresses nor stalls. *)
Theorem C1_no_overlap_check_and_accepted_configs_terminate `{E : Env}
    (model : string) (cd ov : Z) (dir : string) (v : bool)
    (self : Transcriber.t) (filepath : Path.t) (w : World) :
  (forall k, k <> "" ->
     Transcriber.init (Some k) model cd ov dir v w =
     (Return {| Transcriber.api :=
                  {| GeminiAPI.api_key := k; GeminiAPI.model := model;
                     GeminiAPI.generate_url := GeminiAPI.GENERATE_URL model |};
                Transcriber.chunk_duration := cd;
                Transcriber.overlap := ov;
                Transcriber.chunks_dir := Path.parse dir;
                Transcriber.verbose := v |}, w)) /\
  ((0 <= Transcriber.overlap self < Transcriber.chunk_duration self)%Z ->
   exists n, forall fuel, (n <= fuel)%nat ->
     fst (Transcriber.split_audio self filepath fuel w) <> OutOfFuel /\
     forall l, fst (Transcriber.split_audio self filepath fuel w) = Return l ->
       forall i c c', l !! i = Some c -> l !! S i = Some c' ->
         (start c < start c')%Q).
Proof.
  split.
  - intros k Hk.
    unfold Transcriber.init, GeminiAPI.init, bind, getenv, ret. simpl.
    destruct (String.eqb_spec k "") as [->|_]; [done|]. simpl.
    destruct (String.eqb_spec k "") as [->|_]; done.
  - intros [H0 H1]. by apply split_audio_finishes.
Qed.

Lemma C1_witness :
  "key" <> "" /\
  (0 <= Transcriber.overlap (Demo.transcriber 1200 10)
     < Transcriber.chunk_duration (Demo.transcriber 1200 10))%Z /\
  @Transcriber.init (Demo.env 2500 0) (Some "key") "gemini-3-pro-preview"
     1200 10 "audio_chunks" true (Demo.talk_world 2500 0 [])
  = (Return (Demo.transcriber 1200 10), Demo.talk_world 2500 0 []) /\
  exists n, forall fuel, (n <= fuel)%nat ->
    fst (@Transcriber.split_audio (Demo.env 2500 0) (Demo.transcriber 1200 10)
           (Path.parse "talk.wav") fuel (Demo.talk_world 2500 0 []))
    <> OutOfFuel.
Proof.
  destruct (@C1_no_overlap_check_and_accepted_configs_terminate (Demo.env 2500 0)
              "gemini-3-pro-preview" 1200 10 "audio_chunks" true
              (Demo.transcriber 1200 10) (Path.parse "talk.wav")
              (Demo.talk_world 2500 0 [])) as [Hinit Hterm].
  split; [discriminate|]. split; [simpl; lia|]. split.
  - apply (Hinit "key"). discriminate.
  - destruct Hterm as [n Hn]; [simpl; lia|].
    exists n. intros fuel Hfuel. apply (Hn fuel Hfuel).
Defined.

(** C1 as stated fails: with [chunk_duration = 1200] and [overlap = 1200]
    the constructor returns a transcriber and raises nothing, and
    [split_audio] on a recording of 2500 seconds enters the loop: three
    iterations run [ffmpeg] three times, each from start 0, and the loop has
    not finished. *)
Lemma C1_counterexample :
  @Transcriber.init (Demo.env 2500 0) (Some "key") "gemini-3-pro-preview"
     1200 1200 "audio_chunks" true (Demo.talk_world 2500 0 [])
  = (Return (Demo.transcriber 1200 1200), Demo.talk_world 2500 0 []) /\
  fst (@Transcriber.split_audio (Demo.env 2500 0) (Demo.transcriber 1200 1200)
         (Path.parse "talk.wav") 3 (Demo.talk_world 2500 0 []))
  = OutOfFuel /\
  trace (snd (@Transcriber.split_audio (Demo.env 2500 0) (Demo.transcriber 1200 1200)
                (Path.parse "talk.wav") 3 (Demo.talk_world 2500 0 [])))
  = [EvFfprobe "talk.wav";
     EvFfmpeg "talk.wav" 0 1200 "audio_chunks/chunk_01.wav";
     EvFfmpeg "talk.wav" 0 1200 "audio_chunks/chunk_02.wav";
     EvFfmpeg "talk.wav" 0 1200 "audio_chunks/chunk_03.wav"].
Proof.
  split; [reflexivity|]. split; vm_compute; reflexivity.
Qed.

(** ** C8: the merge input *)

Lemma combined_from i t ts :
  Text.join Transcriber.rule
    (map (fun it => "[Chunk " ++ Text.str_of_nat (fst it + 1) ++ "]"
                    ++ Text.nl ++ Text.nl ++ snd it)
         (Text.enumerate_from i (t :: ts)))
  = spec_merge_input (S i) t ts.
Proof.
  revert i t. induction ts as [|t' ts IH]; intros i t.
  - simpl. unfold spec_block. by rewrite Nat.add_1_r.
  - change (Text.enumerate_from i (t :: t' :: ts))
      with ((i, t) :: Text.enumerate_from (S i) (t' :: ts)).
    rewrite map_cons.
    change (spec_merge_input (S i) t (t' :: ts))
      with (spec_block (S i) t ++ Transcriber.rule ++ spec_merge_input (S (S i)) t' ts).
    rewrite <- IH. simpl. unfold spec_block. by rewrite Nat.add_1_r.
Qed.

(** C8. For every non-empty list of chunk transcripts [t_1 .. t_N], the
    merge input built by [merge_transcripts] is the concatenation, in index
    order, of the blocks [[Chunk i]] followed by [t_i], each two consecutive
    blocks separated by the horizontal rule. *)
Theorem C8_merge_input_is_marked_blocks_in_order (t : string) (ts : list string) :
  Transcriber.combined (t :: ts) = spec_merge_input 1 t ts.
Proof. apply combined_from. Qed.

Example combined_two :
  Transcriber.combined ["a"; "b"]
  = "[Chunk 1]" ++ Text.nl ++ Text.nl ++ "a" ++ Text.nl ++ Text.nl ++ "---"
    ++ Text.nl ++ Text.nl ++ "[Chunk 2]" ++ Text.nl ++ Text.nl ++ "b".
Proof. vm_compute. reflexivity. Qed.

(** ** C4: a merge template without the placeholder *)

Example format_default_merge_prompt :
  Format.format DEFAULT_MERGE_PROMPT "transcript" "TEXT"
  = Return (Text.replace "{transcript}" "TEXT" DEFAULT_MERGE_PROMPT).
Proof. vm_compute. reflexivity. Qed.

Example format_unknown_field :
  Format.format "Merge {text} please" "transcript" "TEXT" = Raise (KeyError "'text'").
Proof. vm_compute. reflexivity. Qed.

Example format_doubled_braces :
  Format.format "{{x}} {transcript}" "transcript" "TEXT" = Return "{x} TEXT".
Proof. vm_compute. reflexivity. Qed.

(** A template without braces is returned as it is. *)
Lemma format_without_braces key value template :
  Text.has_char "{" template = false -> Text.has_char "}" template = false ->
  Format.format template key value = Return template.
Proof.
  unfold Format.format. induction template as [|a s IH]; intros Ho Hc; [done|].
  simpl in *.
  destruct (decide (a = "{"%char)); [done|].
  destruct (decide (a = "}"%char)); [done|].
  by rewrite IH.
Qed.

(** C4, on the code: a merge template that lacks the placeholder is not
    rejected. [merge_transcripts] with the template [Tidy up the
    transcript.] and two chunk transcripts sends the generation request,
    whose prompt is the template without any transcript text, and returns
    what the service answers. *)
Lemma C4_template_without_placeholder_is_sent :
  @Transcriber.merge_transcripts (Demo.env 2500 0) (Demo.transcriber 1200 10)
     ["first"; "second"] "Tidy up the transcript."
     (Demo.talk_world 2500 0 [Demo.generated "merged"])
  = (Return (JStr "merged"),
     @mkWorld (Demo.env 2500 0) (fs (Demo.talk_world 2500 0 [])) ∅ []
       [EvHttp
          (mkRequest "POST"
             (GeminiAPI.GENERATE_URL "gemini-3-pro-preview" ++ "?key=key")
             [("Content-Type", "application/json")]
             (JsonBody
                (JObj [("contents",
                        JArr [JObj [("parts",
                                     JArr [JObj [("text",
                                                  JStr "Tidy up the transcript.")]])]]);
                       ("generationConfig",
                        JObj [("temperature", JNum 0.3);
                              ("maxOutputTokens", JNum 100000)])]))
             (Some 900%Z))
          (Demo.generated "merged")]).
Proof. vm_compute. reflexivity. Qed.

(** ** The reuse lookup *)

Section Reuse.

Context `{E : Env}.
Variable self : GeminiAPI.t.

Lemma get_object kv k dflt :
  Py.get (JObj kv) k dflt = Return (from_option id dflt (Py.assoc k kv)).
Proof. reflexivity. Qed.

(** Scanning the listing leaves the world alone. *)
Lemma scan_files_world dn files w :
  snd (GeminiAPI.scan_files dn files w) = w.
Proof.
  induction files as [|f files IH]; [done|].
  simpl. unfold bind, lift, ret.
  destruct (Py.get f "displayName" JNull) as [x| |]; simpl; try done.
  destruct (Py.eq_str x dn); [|done].
  destruct (Py.get f "state" JNull) as [st| |]; simpl; try done.
  destruct (Py.eq_str st "ACTIVE"); [|done].
  destruct (Py.get f "uri" JNull) as [u| |]; simpl; try done.
  destruct (Py.get f "name" JNull) as [n| |]; simpl; done.
Qed.

Lemma scan_files_skip dn g files w :
  Listing.is_object g = true -> Listing.active_match dn g = false ->
  GeminiAPI.scan_files dn (g :: files) w = GeminiAPI.scan_files dn files w.
Proof.
  destruct g as [| | | | |kv]; try done. intros _ Hm.
  simpl in Hm. unfold Listing.field in Hm.
  simpl. unfold bind, lift. simpl.
  destruct (Py.eq_str _ dn); [|done]. simpl in Hm. by rewrite Hm.
Qed.

(** The scan returns the handle of the first ACTIVE entry with the
    display name. *)
Lemma scan_files_first dn files kv w :
  Listing.first_match dn files kv ->
  GeminiAPI.scan_files dn files w
  = (Return (Listing.field kv "uri", Listing.field kv "name"), w).
Proof.
  intros (pre & post & -> & Hpre & Hm).
  induction Hpre as [|g pre [Hg1 Hg2] _ IH].
  - simpl in Hm. unfold Listing.field in Hm.
    apply andb_true_iff in Hm as [Hm1 Hm2].
    simpl. unfold bind, lift. simpl. by rewrite Hm1, Hm2.
  - simpl app. by rewrite scan_files_skip.
Qed.

Lemma scan_files_none dn files w :
  Listing.no_match dn files ->
  GeminiAPI.scan_files dn files w = (Return (JNull, JNull), w).
Proof.
  induction 1 as [|g files [Hg1 Hg2] _ IH]; [done|].
  by rewrite scan_files_skip.
Qed.

Lemma check_existing_file_shows dn files resp w w1 :
  http (Listing.request self) w = (Return resp, w1) ->
  Listing.shows resp files ->
  GeminiAPI.check_existing_file self dn w = GeminiAPI.scan_files dn files w1.
Proof.
  intros Hhttp (Hst & listing & Hj & Hfiles).
  unfold GeminiAPI.check_existing_file, bind. fold (Listing.request self).
  rewrite Hhttp, Hst. simpl.
  unfold response_json. rewrite Hj. unfold ret, lift. by rewrite Hfiles.
Qed.

(** With reuse enabled a first ACTIVE match with a usable locator is
    returned after the listing request alone. *)
Lemma upload_file_reuses filepath mime fuel files kv resp w w1 :
  is_Some (lookup_node w filepath) ->
  http (Listing.request self) w = (Return resp, w1) ->
  Listing.shows resp files ->
  Listing.first_match (Path.stem filepath) files kv ->
  Py.truthy (Listing.field kv "uri") = true ->
  GeminiAPI.upload_file self filepath mime true fuel w
  = (Return (Listing.field kv "uri", Listing.field kv "name"), w1).
Proof.
  intros [nd Hnd] Hhttp Hshows Hfirst Huri.
  unfold GeminiAPI.upload_file, bind at 1, stat_size. rewrite Hnd.
  destruct nd as [c|]; simpl.
  all: unfold bind; rewrite (check_existing_file_shows _ files resp w w1) by done.
  all: rewrite (scan_files_first _ _ kv) by done.
  all: simpl; by rewrite Huri.
Qed.

End Reuse.

Lemma http_trace `{E : Env} (r : request) (w w1 : World) (resp : response) :
  http r w = (Return resp, w1) ->
  trace w1 = (trace w ++ [EvHttp r (Some resp)])%list.
Proof.
  unfold http. destruct (serve (remote w) r) as [s' [x|]]; [|done].
  by intros [= <- <-].
Qed.

(** ** C6: reuse of an upload that is already there *)

(** C6. Let the file listing succeed and show, as its first entry that
    carries the requested display name and is reported ACTIVE, an entry with
    a usable locator. Then [check_existing_file] returns the handle of that
    entry, [upload_file] with reuse enabled returns the same handle, and the
    only request made is the listing: no upload is initiated. Entries before
    it that carry the name in another state are passed over, and a listing
    without an ACTIVE entry of that name gives no handle. *)
Theorem C6_upload_reuses_first_active_match `{E : Env}
    (self : GeminiAPI.t) (filepath : Path.t) (mime : string) (fuel : nat)
    (files : list json) (kv : list (string * json)) (resp : response)
    (w w1 : World) :
  is_Some (lookup_node w filepath) ->
  http (Listing.request self) w = (Return resp, w1) ->
  Listing.shows resp files ->
  Listing.first_match (Path.stem filepath) files kv ->
  Py.truthy (Listing.field kv "uri") = true ->
  GeminiAPI.check_existing_file self (Path.stem filepath) w
  = (Return (Listing.field kv "uri", Listing.field kv "name"), w1) /\
  GeminiAPI.upload_file self filepath mime true fuel w
  = (Return (Listing.field kv "uri", Listing.field kv "name"), w1) /\
  trace w1 = (trace w ++ [EvHttp (Listing.request self) (Some resp)])%list /\
  (forall dn, Listing.no_match dn files ->
     GeminiAPI.check_existing_file self dn w = (Return (JNull, JNull), w1)).
Proof.
  intros Hfile Hhttp Hshows Hfirst Huri. split_and!.
  - rewrite (check_existing_file_shows self _ files resp w w1) by done.
    by apply scan_files_first.
  - by apply (upload_file_reuses self filepath mime fuel files kv resp).
  - by apply http_trace.
  - intros dn Hno.
    rewrite (check_existing_file_shows self _ files resp w w1) by done.
    by apply scan_files_none.
Qed.

Lemma C6_witness :
  @GeminiAPI.upload_file (Demo.env 2500 0) Demo.api
     (Path.parse "audio_chunks/chunk_01.wav") "audio/wav" true 5
     (Demo.chunk_world 2500 0
        [Demo.listing
           [Demo.remote_file "chunk_01" "PROCESSING" "uri-a" "files/a";
            Demo.remote_file "chunk_02" "ACTIVE" "uri-b" "files/b";
            Demo.remote_file "chunk_01" "ACTIVE" "uri-c" "files/c";
            Demo.remote_file "chunk_01" "ACTIVE" "uri-d" "files/d"]])
  = (Return (JStr "uri-c", JStr "files/c"),
     @mkWorld (Demo.env 2500 0) (fs (Demo.chunk_world 2500 0 [])) ∅ []
       [EvHttp (Listing.request Demo.api)
          (Demo.listing
             [Demo.remote_file "chunk_01" "PROCESSING" "uri-a" "files/a";
              Demo.remote_file "chunk_02" "ACTIVE" "uri-b" "files/b";
              Demo.remote_file "chunk_01" "ACTIVE" "uri-c" "files/c";
              Demo.remote_file "chunk_01" "ACTIVE" "uri-d" "files/d"])]).
Proof.
  pose proof (@C6_upload_reuses_first_active_match (Demo.env 2500 0)
    Demo.api (Path.parse "audio_chunks/chunk_01.wav") "audio/wav" 5
    [Demo.remote_file "chunk_01" "PROCESSING" "uri-a" "files/a";
     Demo.remote_file "chunk_02" "ACTIVE" "uri-b" "files/b";
     Demo.remote_file "chunk_01" "ACTIVE" "uri-c" "files/c";
     Demo.remote_file "chunk_01" "ACTIVE" "uri-d" "files/d"]
    [("name", JStr "files/c"); ("displayName", JStr "chunk_01");
     ("state", JStr "ACTIVE"); ("uri", JStr "uri-c")]) as H.
  edestruct H as (_ & Hup & _ & _); [| | | | |exact Hup].
  - eexists. vm_compute. reflexivity.
  - reflexivity.
  - split; [reflexivity|]. eexists. split; reflexivity.
  - exists [Demo.remote_file "chunk_01" "PROCESSING" "uri-a" "files/a";
            Demo.remote_file "chunk_02" "ACTIVE" "uri-b" "files/b"],
           [Demo.remote_file "chunk_01" "ACTIVE" "uri-d" "files/d"].
    split; [reflexivity|]. split; [|reflexivity].
    repeat constructor.
  - reflexivity.
Defined.

(** ** Facts about text and paths *)

Lemma app_cons a (s t : string) : String a s ++ t = String a (s ++ t).
Proof. reflexivity. Qed.

Lemma app_empty_r (s : string) : s ++ "" = s.
Proof. induction s as [|a s IH]; [done|]. by rewrite app_cons, IH. Qed.

Lemma app_assoc_s (s t u : string) : (s ++ t) ++ u = s ++ (t ++ u).
Proof. induction s as [|a s IH]; [done|]. by rewrite !app_cons, IH. Qed.

Lemma has_char_app c (s t : string) :
  Text.has_char c (s ++ t) = Text.has_char c s || Text.has_char c t.
Proof.
  induction s as [|a s IH]; [done|].
  rewrite app_cons. simpl. by destruct (decide (a = c)).
Qed.

Lemma rev_app_spec (s t : string) : String.rev_app s t = String.rev s ++ t.
Proof.
  unfold String.rev. revert t. induction s as [|a s IH]; intros t; [done|].
  simpl. rewrite (IH (String a "")), IH. by rewrite app_assoc_s.
Qed.

Lemma rev_rev_app (s t : string) : String.rev (String.rev_app s t) = String.rev t ++ s.
Proof.
  revert t. induction s as [|a s IH]; intros t; simpl.
  - by rewrite app_empty_r.
  - rewrite IH. unfold String.rev at 1. simpl. rewrite rev_app_spec.
    by rewrite app_assoc_s.
Qed.

(** Splitting a text that does not hold the separator gives the text. *)
Lemma split_without_sep sep (s : string) :
  Text.has_char sep s = false -> Text.split sep s = [s].
Proof.
  unfold Text.split.
  assert (forall cur, Text.has_char sep s = false ->
            Text.split_go sep cur s = [String.rev (String.rev_app s cur)]) as H.
  { induction s as [|a s IH]; intros cur Hs; [done|].
    simpl in *. destruct (decide (a = sep)); [done|]. by apply IH. }
  intros Hs. rewrite H by done. by rewrite rev_rev_app.
Qed.

Lemma rsplit_char_absent c (s : string) :
  Text.has_char c s = false -> Text.rsplit_char c s = None.
Proof.
  induction s as [|a s IH]; [done|]. simpl.
  destruct (decide (a = c)); [done|]. intros Hs. by rewrite IH.
Qed.

(** The split around the last occurrence of a character. *)
Lemma rsplit_char_last c (s t : string) :
  Text.has_char c t = false ->
  Text.rsplit_char c (s ++ String c t) = Some (s, t).
Proof.
  intros Ht. induction s as [|a s IH].
  - simpl. rewrite rsplit_char_absent by done.
    by destruct (decide (c = c)).
  - rewrite app_cons. simpl. by rewrite IH.
Qed.

Lemma digits_without c (s : string) :
  Text.is_digit c = false -> Text.all_chars Text.is_digit s = true ->
  Text.has_char c s = false.
Proof.
  intros Hc. induction s as [|a s IH]; [done|]. simpl.
  intros [Ha Hs]%andb_true_iff.
  destruct (decide (a = c)) as [->|_]; [congruence|by apply IH].
Qed.

Lemma pretty_N_char_digit x : Text.is_digit (pretty_N_char x) = true.
Proof. unfold pretty_N_char. by repeat case_match. Qed.

Lemma pretty_N_go_digits x s :
  Text.all_chars Text.is_digit s = true ->
  Text.all_chars Text.is_digit (pretty_N_go x s) = true.
Proof.
  revert s. induction (N.lt_wf_0 x) as [x _ IH]; intros s Hs.
  destruct (decide (x = 0)%N) as [->|Hx]; [by rewrite pretty_N_go_0|].
  rewrite pretty_N_go_step by lia.
  apply IH; [apply N.div_lt; lia|].
  simpl. by rewrite pretty_N_char_digit.
Qed.

(** A formatted chunk number is made of digits. *)
Lemma fmt_02d_digits n : Text.all_chars Text.is_digit (Text.fmt_02d n) = true.
Proof.
  assert (Text.all_chars Text.is_digit (Text.str_of_nat n) = true) as H.
  { unfold Text.str_of_nat, pretty, pretty_nat, pretty, pretty_N.
    case_decide; [done|]. by apply pretty_N_go_digits. }
  unfold Text.fmt_02d. cbv zeta.
  generalize dependent (Text.str_of_nat n). intros s Hs.
  destruct (_ <? 2)%nat; [|done].
  change ("0" ++ s) with (String "0"%char s). simpl. done.
Qed.

(** The name of a chunk file is one path component, and its stem is
    [chunk_] followed by the formatted number. *)
Lemma chunk_file_name_parse n :
  Path.parse (Transcriber.chunk_file_name n)
  = {| Path.is_abs := false; Path.parts := [Transcriber.chunk_file_name n] |}.
Proof.
  unfold Path.parse, Transcriber.chunk_file_name.
  rewrite split_without_sep.
  - reflexivity.
  - rewrite !has_char_app.
    rewrite (digits_without "/" (Text.fmt_02d n)) by (done || apply fmt_02d_digits).
    reflexivity.
Qed.

Lemma chunk_file_name_rsplit n :
  Text.rsplit_char "." (Transcriber.chunk_file_name n)
  = Some ("chunk_" ++ Text.fmt_02d n, "wav").
Proof.
  unfold Transcriber.chunk_file_name.
  change ".wav" with (String "."%char "wav").
  rewrite <- app_assoc_s. rewrite rsplit_char_last by done. done.
Qed.

Lemma stem_chunk_file (dir : Path.t) n :
  Path.stem (Path.div dir (Transcriber.chunk_file_name n))
  = "chunk_" ++ Text.fmt_02d n.
Proof.
  unfold Path.stem, Path.name, Path.div.
  rewrite chunk_file_name_parse. simpl.
  rewrite List.last_last, chunk_file_name_rsplit. reflexivity.
Qed.

Example stem_chunk_01 :
  Path.stem (Path.div (Path.parse "audio_chunks") (Transcriber.chunk_file_name 1))
  = "chunk_01".
Proof. vm_compute. reflexivity. Qed.

Example stem_of_dotted_names :
  Path.stem (Path.parse "a/b.tar.gz") = "b.tar" /\
  Path.stem (Path.parse ".profile") = ".profile" /\
  Path.stem (Path.parse "notes.") = "notes.".
Proof. vm_compute. done. Qed.

Example to_str_chunk_12 :
  Path.to_str (Path.div (Path.parse "./out//chunks/") (Transcriber.chunk_file_name 12))
  = "out/chunks/chunk_12.wav".
Proof. vm_compute. reflexivity. Qed.

Example replace_files_prefix : Text.replace "files/" "" "files/abc-123" = "abc-123".
Proof. vm_compute. reflexivity. Qed.

Example strip_name : Text.strip "  Robin Hanson " = "Robin Hanson".
Proof. vm_compute. reflexivity. Qed.

(** ** Every computation adds to the trace, and returns only after checked
    answers *)

Section WellBehaved.

Context `{E : Env}.
Variable self : GeminiAPI.t.

Lemma wb_fatal {A} (m : M A) :
  Listing.well_behaved self m -> Listing.fatal_on_failure self m.
Proof.
  intros H w a w' Hm. destruct (H w) as (new & Ht & Hok).
  rewrite Hm in *. simpl in *. eauto.
Qed.

Lemma wb_silent {A} (m : M A) :
  (forall w, trace (snd (m w)) = trace w) -> Listing.well_behaved self m.
Proof.
  intros H w. exists []. rewrite H, app_nil_r. split; [done|]. by constructor.
Qed.

Lemma wb_ret {A} (a : A) : Listing.well_behaved self (ret a).
Proof. by apply wb_silent. Qed.

Lemma wb_raise {A} e : Listing.well_behaved self (@raise _ A e).
Proof. by apply wb_silent. Qed.

Lemma wb_out_of_fuel {A} : Listing.well_behaved self (@out_of_fuel _ A).
Proof. by apply wb_silent. Qed.

Lemma wb_lift {A} (o : outcome A) : Listing.well_behaved self (lift o).
Proof. by apply wb_silent. Qed.

Lemma wb_bind {A B} (m : M A) (k : A -> M B) :
  Listing.well_behaved self m -> (forall a, Listing.well_behaved self (k a)) ->
  Listing.well_behaved self (bind m k).
Proof.
  intros Hm Hk w. destruct (Hm w) as (new1 & Ht1 & Hok1).
  unfold bind. destruct (m w) as [[a|e|] w1]; simpl in *.
  - destruct (Hk a w1) as (new2 & Ht2 & Hok2).
    exists (new1 ++ new2)%list. rewrite Ht2, Ht1, app_assoc. split; [done|].
    intros b Hb. apply Forall_app. split; [by eapply Hok1|by eapply Hok2].
  - exists new1. split; [done|]. intros ? [=].
  - exists new1. split; [done|]. intros ? [=].
Qed.

Lemma wb_path_exists p : Listing.well_behaved self (path_exists p).
Proof. by apply wb_silent. Qed.

Lemma wb_getenv k : Listing.well_behaved self (getenv k).
Proof. by apply wb_silent. Qed.

Lemma wb_read_text p : Listing.well_behaved self (read_text p).
Proof. apply wb_silent. intros w. unfold read_text. by repeat case_match. Qed.

Lemma wb_stat_size p : Listing.well_behaved self (stat_size p).
Proof. apply wb_silent. intros w. unfold stat_size. by repeat case_match. Qed.

Lemma wb_mkdir p : Listing.well_behaved self (mkdir_exist_ok p).
Proof. apply wb_silent. intros w. unfold mkdir_exist_ok. by repeat case_match. Qed.

Lemma wb_open_write p vs : Listing.well_behaved self (open_write p vs).
Proof.
  apply wb_silent. intros w. unfold open_write.
  destruct (write_all "" vs) as [content [e|]]; by repeat case_match.
Qed.

Lemma wb_response_json r : Listing.well_behaved self (response_json r).
Proof. unfold response_json. destruct (json_body r); [apply wb_ret|apply wb_raise]. Qed.

Lemma wb_event {A} (m : M A) e :
  (forall w, trace (snd (m w)) = (trace w ++ [e])%list) ->
  Listing.status_checked self e -> Listing.well_behaved self m.
Proof. intros H He w. exists [e]. split; [done|]. intros _ _. by repeat constructor. Qed.

Lemma wb_sleep secs : Listing.well_behaved self (sleep secs).
Proof. by apply (wb_event _ (EvSleep secs)). Qed.

Lemma wb_ffprobe p : Listing.well_behaved self (run_ffprobe p).
Proof. by apply (wb_event _ (EvFfprobe p)). Qed.

Lemma wb_ffmpeg i ss t o : Listing.well_behaved self (run_ffmpeg i ss t o).
Proof.
  apply (wb_event _ (EvFfmpeg i ss t o)); [|done].
  intros w. unfold run_ffmpeg. by destruct (ffmpeg _ _ _ _ _) as [[??]?].
Qed.

Lemma http_snd_trace r w :
  trace (snd (http r w)) = (trace w ++ [EvHttp r (snd (serve (remote w) r))])%list.
Proof. unfold http. by destruct (serve _ _) as [s' [x|]]. Qed.

(** The listing request may be answered with any status. *)
Lemma wb_http_listing : Listing.well_behaved self (http (Listing.request self)).
Proof.
  intros w. eexists. split; [apply http_snd_trace|].
  intros a Ha. repeat constructor. unfold http in Ha.
  destruct (serve _ _) as [s' [x|]]; simpl in *; [by left|done].
Qed.

(** A request whose answer is checked against 200 before going on. *)
Lemma wb_http_checked {A} req (e : response -> exn) (k : response -> M A) :
  (forall r, Listing.well_behaved self (k r)) ->
  Listing.well_behaved self
    (bind (http req) (fun r =>
       if negb (status_code r =? 200)%Z then raise (e r) else k r)).
Proof.
  intros Hk w. unfold bind, http.
  destruct (serve (remote w) req) as [s' [x|]] eqn:Hs; simpl.
  - destruct (status_code x =? 200)%Z eqn:Hst; simpl.
    + match goal with |- context [k x ?w1] => destruct (Hk x w1) as (new & Ht & Hok) end.
      exists (EvHttp req (Some x) :: new). simpl in Ht. rewrite Ht.
      rewrite <- app_assoc. split; [done|].
      intros a Ha. constructor; [|by eapply Hok].
      right. by apply Z.eqb_eq.
    + eexists. split; [done|]. intros ? [=].
  - eexists. split; [done|]. intros ? [=].
Qed.

End WellBehaved.

Ltac wb_step :=
  first
    [ apply wb_ret | apply wb_raise | apply wb_out_of_fuel | apply wb_lift
    | apply wb_path_exists | apply wb_getenv | apply wb_read_text
    | apply wb_stat_size | apply wb_mkdir | apply wb_open_write
    | apply wb_response_json | apply wb_sleep | apply wb_ffprobe
    | apply wb_ffmpeg | apply wb_http_listing
    | apply wb_http_checked; intro
    | apply wb_bind; [|intro]
    | assumption
    | match goal with
      | |- Listing.well_behaved _ (if ?b then _ else _) => destruct b
      | |- Listing.well_behaved _ (match ?x with _ => _ end) => destruct x
      | |- Listing.well_behaved _ (let '(_, _) := ?x in _) => destruct x
      end ].

Ltac wb := repeat wb_step.

Section ProgramWellBehaved.

Context `{E : Env}.
Variable self : GeminiAPI.t.

Lemma wb_scan_files dn files :
  Listing.well_behaved self (GeminiAPI.scan_files dn files).
Proof. induction files as [|f files IH]; simpl; wb. Qed.

Lemma wb_check_existing_file dn :
  Listing.well_behaved self (GeminiAPI.check_existing_file self dn).
Proof.
  unfold GeminiAPI.check_existing_file. fold (Listing.request self).
  repeat first [apply wb_scan_files | wb_step].
Qed.

Lemma wb_poll file_id fuel :
  Listing.well_behaved self (GeminiAPI.poll self file_id fuel).
Proof. induction fuel as [|fuel IH]; simpl; wb. Qed.

Lemma wb_wait file_name fuel :
  Listing.well_behaved self (GeminiAPI._wait_for_file_processing self file_name fuel).
Proof.
  unfold GeminiAPI._wait_for_file_processing.
  destruct file_name; repeat first [apply wb_poll | wb_step].
Qed.

Lemma wb_upload_file filepath mime reuse fuel :
  Listing.well_behaved self (GeminiAPI.upload_file self filepath mime reuse fuel).
Proof.
  unfold GeminiAPI.upload_file.
  repeat first [apply wb_check_existing_file | apply wb_wait | wb_step].
Qed.

Lemma wb_generate prompt file_uri mime temperature max_tokens timeout :
  Listing.well_behaved self
    (GeminiAPI.generate self prompt file_uri mime temperature max_tokens timeout).
Proof. unfold GeminiAPI.generate. wb. Qed.

End ProgramWellBehaved.

Section TranscriberWellBehaved.

Context `{E : Env}.
Variable self : Transcriber.t.

Lemma wb_get_audio_duration p :
  Listing.well_behaved (Transcriber.api self) (Transcriber.get_audio_duration self p).
Proof.
  unfold Transcriber.get_audio_duration.
  apply wb_bind; [apply wb_ffprobe|]. intros [[rc out] err]. wb.
Qed.

Lemma wb_split_loop p d fuel s n acc :
  Listing.well_behaved (Transcriber.api self) (Transcriber.split_loop self p d fuel s n acc).
Proof.
  revert s n acc. induction fuel as [|fuel IH]; intros s n acc; simpl; wb.
  apply IH.
Qed.

Lemma wb_split_audio p fuel :
  Listing.well_behaved (Transcriber.api self) (Transcriber.split_audio self p fuel).
Proof.
  unfold Transcriber.split_audio.
  repeat first [apply wb_get_audio_duration | apply wb_split_loop | wb_step].
Qed.

Lemma wb_transcribe_chunk uri n total prompt :
  Listing.well_behaved (Transcriber.api self) (Transcriber.transcribe_chunk self uri n total prompt).
Proof. apply wb_generate. Qed.

Lemma wb_merge_transcripts ts prompt :
  Listing.well_behaved (Transcriber.api self) (Transcriber.merge_transcripts self ts prompt).
Proof.
  unfold Transcriber.merge_transcripts.
  repeat first [apply wb_generate | wb_step].
Qed.

Lemma wb_process_chunk prompt total fuel c :
  Listing.well_behaved (Transcriber.api self) (Transcriber.process_chunk self prompt total fuel c).
Proof.
  unfold Transcriber.process_chunk.
  repeat first [apply wb_upload_file | apply wb_transcribe_chunk | wb_step].
Qed.

Lemma wb_process_chunks prompt total fuel cs acc :
  Listing.well_behaved (Transcriber.api self) (Transcriber.process_chunks self prompt total fuel cs acc).
Proof.
  revert acc. induction cs as [|c cs IH]; intros acc; simpl.
  - wb.
  - apply wb_bind; [apply wb_process_chunk|]. intros t. apply IH.
Qed.

Lemma wb_load_instructions f :
  Listing.well_behaved (Transcriber.api self) (Transcriber.load_instructions f).
Proof. unfold Transcriber.load_instructions. wb. Qed.

Lemma wb_transcribe audio out cp mp ins header speakers fuel :
  Listing.well_behaved (Transcriber.api self)
    (Transcriber.transcribe self audio out cp mp ins header speakers fuel).
Proof.
  unfold Transcriber.transcribe.
  repeat first
    [ apply wb_load_instructions | apply wb_split_audio
    | apply wb_process_chunks | apply wb_merge_transcripts | wb_step ].
Qed.

End TranscriberWellBehaved.

(** ** C7: which failed requests are fatal *)

(** C7 (as amended). A status other than 200, and so every non-success
    status, received at upload initiation, byte transfer, readiness polling
    or generation is fatal: whenever [upload_file], [generate] or the whole
    of [transcribe] returns, every request it made other than the file
    listing was answered with status 200; in particular [generate] and a
    polling step raise as soon as their request is answered otherwise. The
    file listing is different: a
    listing answered with a status other than 200 makes
    [check_existing_file] report that there is no existing file, raising
    nothing. *)
Theorem C7_failed_requests_fatal_except_listing `{E : Env}
    (self : Transcriber.t) (filepath : Path.t) (mime : string) (reuse : bool)
    (prompt : string) (file_uri : json) (temperature : Q) (max_tokens timeout : Z)
    (audio out : string) (cp mp ins header speakers : option string)
    (fuel : nat) :
  Listing.fatal_on_failure (Transcriber.api self)
    (GeminiAPI.upload_file (Transcriber.api self) filepath mime reuse fuel) /\
  Listing.fatal_on_failure (Transcriber.api self)
    (GeminiAPI.generate (Transcriber.api self) prompt file_uri mime temperature
       max_tokens timeout) /\
  Listing.fatal_on_failure (Transcriber.api self)
    (Transcriber.transcribe self audio out cp mp ins header speakers fuel) /\
  (forall w resp w1,
     http (GeminiAPI.generate_request (Transcriber.api self) prompt file_uri mime
             temperature max_tokens timeout) w = (Return resp, w1) ->
     status_code resp <> 200%Z ->
     GeminiAPI.generate (Transcriber.api self) prompt file_uri mime temperature
       max_tokens timeout w
     = (Raise (Exception ("Generation failed: " ++ pretty (status_code resp)
                          ++ " " ++ text resp)), w1)) /\
  (forall file_id w resp w1,
     http (GeminiAPI.GET (GeminiAPI.FILES_URL ++ "/" ++ file_id ++ "?key="
                          ++ GeminiAPI.api_key (Transcriber.api self))) w
     = (Return resp, w1) ->
     status_code resp <> 200%Z ->
     GeminiAPI.poll (Transcriber.api self) file_id (S fuel) w
     = (Raise (Exception ("Failed to check file status: "
                          ++ pretty (status_code resp))), w1)) /\
  (forall dn w resp w1,
     http (Listing.request (Transcriber.api self)) w = (Return resp, w1) ->
     status_code resp <> 200%Z ->
     GeminiAPI.check_existing_file (Transcriber.api self) dn w
     = (Return (JNull, JNull), w1)).
Proof.
  split_and!.
  - apply wb_fatal, wb_upload_file.
  - apply wb_fatal, wb_generate.
  - apply wb_fatal, wb_transcribe.
  - intros w resp w1 Hhttp Hst. unfold GeminiAPI.generate, bind.
    rewrite Hhttp. apply Z.eqb_neq in Hst. by rewrite Hst.
  - intros file_id w resp w1 Hhttp Hst. simpl. unfold bind.
    rewrite Hhttp. apply Z.eqb_neq in Hst. by rewrite Hst.
  - intros dn w resp w1 Hhttp Hst.
    unfold GeminiAPI.check_existing_file, bind.
    fold (Listing.request (Transcriber.api self)). rewrite Hhttp.
    apply Z.eqb_neq in Hst. by rewrite Hst.
Qed.

Lemma C7_witness :
  (exists new,
     trace (snd (@GeminiAPI.generate (Demo.env 2500 0) Demo.api "Transcribe."
                   (JStr "uri-c") "audio/wav" 0.2 30000 600
                   (Demo.chunk_world 2500 0 [Demo.generated "text"])))
     = (trace (Demo.chunk_world 2500 0 [Demo.generated "text"]) ++ new)%list /\
     Forall (Listing.status_checked Demo.api) new) /\
  @GeminiAPI.check_existing_file (Demo.env 2500 0) Demo.api "chunk_01"
     (Demo.chunk_world 2500 0 [Demo.failed 503])
  = (Return (JNull, JNull),
     @mkWorld (Demo.env 2500 0) (fs (Demo.chunk_world 2500 0 [])) ∅ []
       [EvHttp (Listing.request Demo.api) (Demo.failed 503)]).
Proof.
  destruct (@C7_failed_requests_fatal_except_listing (Demo.env 2500 0)
              (Demo.transcriber 1200 10) (Path.parse "audio_chunks/chunk_01.wav")
              "audio/wav" true "Transcribe." (JStr "uri-c") 0.2 30000 600
              "talk.wav" "transcript.md" None None None None None 5)
    as (_ & Hgen & _ & _ & _ & Hlist).
  split.
  - apply (Hgen (Demo.chunk_world 2500 0 [Demo.generated "text"]) (JStr "text")).
    vm_compute. reflexivity.
  - apply (Hlist "chunk_01" (Demo.chunk_world 2500 0 [Demo.failed 503])
             {| status_code := 503; text := "error"; x_goog_upload_url := None;
                json_body := None |}).
    + reflexivity.
    + discriminate.
Defined.

(** C7 as stated fails at the file listing: the listing is answered with
    status 500, and [upload_file] goes on to upload the file and returns its
    new handle. *)
Lemma C7_counterexample :
  fst (@GeminiAPI.upload_file (Demo.env 2500 0) Demo.api
         (Path.parse "audio_chunks/chunk_01.wav") "audio/wav" true 5
         (Demo.chunk_world 2500 0
            [Demo.failed 500; Demo.upload_started "https://upload.example/session";
             Demo.uploaded "uri-new" "files/new"; Demo.file_state "ACTIVE"]))
  = Return (JStr "uri-new", JStr "files/new") /\
  head (trace (snd (@GeminiAPI.upload_file (Demo.env 2500 0) Demo.api
         (Path.parse "audio_chunks/chunk_01.wav") "audio/wav" true 5
         (Demo.chunk_world 2500 0
            [Demo.failed 500; Demo.upload_started "https://upload.example/session";
             Demo.uploaded "uri-new" "files/new"; Demo.file_state "ACTIVE"]))))
  = Some (EvHttp (Listing.request Demo.api) (Demo.failed 500)).
Proof. split; vm_compute; reflexivity. Qed.

(** ** C9: the display name of a chunk *)

Section DisplayName.

Context `{E : Env}.

(** After a request, the trace holds that request next, whatever follows. *)
Lemma trace_after_http {A} (self : GeminiAPI.t) (r : request)
    (k : response -> M A) (w : World) :
  (forall x, Listing.well_behaved self (k x)) ->
  exists answer rest,
    trace (snd (bind (http r) k w)) = (trace w ++ EvHttp r answer :: rest)%list.
Proof.
  intros Hk. unfold bind, http.
  destruct (serve (remote w) r) as [s' [x|]]; simpl.
  - match goal with |- context [k x ?w1] => destruct (Hk x w1) as (new & Ht & _) end.
    exists (Some x), new. rewrite Ht. simpl. by rewrite <- app_assoc.
  - by exists None, [].
Qed.

(** Every chunk [split_audio] returns is the file named after its number. *)
Lemma split_audio_files (self : Transcriber.t) (audio : Path.t) fuel w l c :
  fst (Transcriber.split_audio self audio fuel w) = Return l -> c ∈ l ->
  file c = Path.div (Transcriber.chunks_dir self)
                    (Transcriber.chunk_file_name (num c)).
Proof.
  unfold Transcriber.split_audio, bind.
  destruct (mkdir_exist_ok _ w) as [[[]|e|] w1]; simpl; try done.
  destruct (Transcriber.get_audio_duration self audio w1) as [[d|e|] w2];
    simpl; try done.
  intros Hret Hc.
  pose proof (split_loop_plan self audio d fuel 0 1%nat [] w2) as Hplan.
  rewrite Hret in Hplan. destruct Hplan as (l' & Hrun & ->).
  by apply (run_files self d fuel 0 1%nat l').
Qed.

(** When the lookup finds nothing, the next request initiates the upload
    under the stem of the file. *)
Lemma upload_file_initiates (self : GeminiAPI.t) filepath mime fuel w w1 :
  is_Some (lookup_node w filepath) ->
  GeminiAPI.check_existing_file self (Path.stem filepath) w
  = (Return (JNull, JNull), w1) ->
  exists headers answer rest,
    trace (snd (GeminiAPI.upload_file self filepath mime true fuel w))
    = (trace w1 ++
       EvHttp (mkRequest "POST"
                 (GeminiAPI.UPLOAD_URL ++ "?key=" ++ GeminiAPI.api_key self)
                 headers
                 (JsonBody (JObj [("file",
                    JObj [("display_name", JStr (Path.stem filepath))])]))
                 None) answer :: rest)%list.
Proof.
  intros [nd Hnd] Hcheck.
  unfold GeminiAPI.upload_file, bind at 1, stat_size. rewrite Hnd.
  assert (exists size,
    (match nd with
     | File c => (Return (String.length c), w)
     | Dir => (Return dir_size, w)
     end) = (Return size, w)) as [size ->] by (destruct nd; eauto).
  unfold bind at 1. unfold bind at 1. rewrite Hcheck. simpl.
  eexists. apply (trace_after_http self). intros x.
  repeat first [apply wb_wait | wb_step].
Qed.

End DisplayName.

(** C9. The display name under which a chunk is looked up and uploaded is
    the stem of its file, [chunk_] followed by the two-digit chunk number:
    it is the same for every chunks directory, and every chunk that
    [split_audio] returns, for whatever audio file, has it. With reuse
    enabled, when the listing shows as first ACTIVE entry of that name one
    with a usable locator, [upload_file] returns that entry's handle after
    the listing request alone; when the lookup finds nothing, the next
    request initiates an upload under that same name. *)
Theorem C9_display_name_is_the_chunk_stem `{E : Env}
    (self : Transcriber.t) (n : nat) (mime : string) (fuel : nat)
    (files : list json) (kv : list (string * json)) (resp : response)
    (w w1 : World) :
  (forall dir : Path.t,
     Path.stem (Path.div dir (Transcriber.chunk_file_name n))
     = "chunk_" ++ Text.fmt_02d n) /\
  (forall audio fuel' w0 l c,
     fst (Transcriber.split_audio self audio fuel' w0) = Return l -> c ∈ l ->
     Path.stem (file c) = "chunk_" ++ Text.fmt_02d (num c)) /\
  (is_Some (lookup_node w (Path.div (Transcriber.chunks_dir self)
                                    (Transcriber.chunk_file_name n))) ->
   http (Listing.request (Transcriber.api self)) w = (Return resp, w1) ->
   Listing.shows resp files ->
   Listing.first_match ("chunk_" ++ Text.fmt_02d n) files kv ->
   Py.truthy (Listing.field kv "uri") = true ->
   GeminiAPI.upload_file (Transcriber.api self)
     (Path.div (Transcriber.chunks_dir self) (Transcriber.chunk_file_name n))
     mime true fuel w
   = (Return (Listing.field kv "uri", Listing.field kv "name"), w1) /\
   trace w1
   = (trace w ++ [EvHttp (Listing.request (Transcriber.api self)) (Some resp)])%list) /\
  (is_Some (lookup_node w (Path.div (Transcriber.chunks_dir self)
                                    (Transcriber.chunk_file_name n))) ->
   GeminiAPI.check_existing_file (Transcriber.api self)
     ("chunk_" ++ Text.fmt_02d n) w = (Return (JNull, JNull), w1) ->
   exists headers answer rest,
     trace (snd (GeminiAPI.upload_file (Transcriber.api self)
                   (Path.div (Transcriber.chunks_dir self)
                             (Transcriber.chunk_file_name n))
                   mime true fuel w))
     = (trace w1 ++
        EvHttp (mkRequest "POST"
                  (GeminiAPI.UPLOAD_URL ++ "?key="
                   ++ GeminiAPI.api_key (Transcriber.api self))
                  headers
                  (JsonBody (JObj [("file",
                     JObj [("display_name", JStr ("chunk_" ++ Text.fmt_02d n))])]))
                  None) answer :: rest)%list).
Proof.
  split_and!.
  - intros dir. apply stem_chunk_file.
  - intros audio fuel' w0 l c Hret Hc.
    rewrite (split_audio_files self audio fuel' w0 l c Hret Hc).
    apply stem_chunk_file.
  - intros Hfile Hhttp Hshows Hfirst Huri. split.
    + apply (upload_file_reuses _ _ mime fuel files kv resp); try done.
      by rewrite stem_chunk_file.
    + by apply http_trace.
  - intros Hfile Hcheck.
    rewrite <- (stem_chunk_file (Transcriber.chunks_dir self) n).
    apply upload_file_initiates; [done|].
    by rewrite stem_chunk_file.
Qed.

Lemma C9_witness :
  Path.stem (Path.div (Path.parse "/srv/other/run")
                      (Transcriber.chunk_file_name 1)) = "chunk_01" /\
  @GeminiAPI.upload_file (Demo.env 2500 0) Demo.api
     (Path.div (Path.parse "audio_chunks") (Transcriber.chunk_file_name 1))
     "audio/wav" true 5
     (Demo.chunk_world 2500 0
        [Demo.listing [Demo.remote_file "chunk_01" "ACTIVE" "uri-old" "files/old"]])
  = (Return (JStr "uri-old", JStr "files/old"),
     @mkWorld (Demo.env 2500 0) (fs (Demo.chunk_world 2500 0 [])) ∅ []
       [EvHttp (Listing.request Demo.api)
          (Demo.listing [Demo.remote_file "chunk_01" "ACTIVE" "uri-old" "files/old"])]).
Proof.
  pose proof (@C9_display_name_is_the_chunk_stem (Demo.env 2500 0)
    (Demo.transcriber 1200 10) 1 "audio/wav" 5
    [Demo.remote_file "chunk_01" "ACTIVE" "uri-old" "files/old"]
    [("name", JStr "files/old"); ("displayName", JStr "chunk_01");
     ("state", JStr "ACTIVE"); ("uri", JStr "uri-old")]) as H.
  edestruct H as (Hstem & _ & Hreuse & _).
  split; [apply Hstem|].
  edestruct Hreuse as [Hup _]; [| | | | |exact Hup].
  - eexists. vm_compute. reflexivity.
  - reflexivity.
  - split; [reflexivity|]. eexists. split; reflexivity.
  - exists [], []. split; [reflexivity|]. split; [constructor|reflexivity].
  - reflexivity.
Defined.

(** ** Checkpoints *)

Section Checkpoints.

Context `{E : Env}.

Lemma kf_bind {A B} (m : M A) (k : A -> M B) :
  keeps_files m -> (forall a, keeps_files (k a)) -> keeps_files (bind m k).
Proof.
  intros Hm Hk w. unfold bind. specialize (Hm w).
  destruct (m w) as [[a|e|] w1]; simpl in *; [|done..].
  by rewrite Hk.
Qed.

Lemma kf_const {A} (o : outcome A) : keeps_files (fun w => (o, w)).
Proof. done. Qed.

Lemma kf_http r : keeps_files (http r).
Proof. intros w. unfold http. by destruct (serve _ _) as [s' [x|]]. Qed.

Lemma kf_sleep secs : keeps_files (sleep secs).
Proof. done. Qed.

Lemma kf_stat_size p : keeps_files (stat_size p).
Proof. intros w. unfold stat_size. by repeat case_match. Qed.

Lemma kf_read_text p : keeps_files (read_text p).
Proof. intros w. unfold read_text. by repeat case_match. Qed.

Lemma kf_response_json r : keeps_files (response_json r).
Proof. unfold response_json. by destruct (json_body r). Qed.

End Checkpoints.

Ltac kf_step :=
  first
    [ apply kf_http | apply kf_sleep | apply kf_stat_size | apply kf_read_text
    | apply kf_response_json
    | apply (kf_const (Return _)) | apply (kf_const (Raise _))
    | apply (kf_const OutOfFuel) | apply kf_const
    | apply kf_bind; [|intro]
    | assumption
    | match goal with
      | |- keeps_files (if ?b then _ else _) => destruct b
      | |- keeps_files (match ?x with _ => _ end) => destruct x
      end ].

Section CheckpointFacts.

Context `{E : Env}.
Variable self : Transcriber.t.

Lemma kf_scan_files dn files : keeps_files (GeminiAPI.scan_files dn files).
Proof. induction files as [|f files IH]; simpl; repeat kf_step. Qed.

Lemma kf_check_existing_file a dn :
  keeps_files (GeminiAPI.check_existing_file a dn).
Proof.
  unfold GeminiAPI.check_existing_file.
  repeat first [apply kf_scan_files | kf_step].
Qed.

Lemma kf_poll a file_id fuel : keeps_files (GeminiAPI.poll a file_id fuel).
Proof. induction fuel as [|fuel IH]; simpl; repeat kf_step. Qed.

Lemma kf_wait a file_name fuel :
  keeps_files (GeminiAPI._wait_for_file_processing a file_name fuel).
Proof.
  unfold GeminiAPI._wait_for_file_processing.
  destruct file_name; repeat first [apply kf_poll | kf_step].
Qed.

Lemma kf_upload_file a filepath mime reuse fuel :
  keeps_files (GeminiAPI.upload_file a filepath mime reuse fuel).
Proof.
  unfold GeminiAPI.upload_file.
  repeat first [apply kf_check_existing_file | apply kf_wait | kf_step].
Qed.

Lemma kf_generate a prompt file_uri mime temperature max_tokens timeout :
  keeps_files (GeminiAPI.generate a prompt file_uri mime temperature max_tokens timeout).
Proof. unfold GeminiAPI.generate. repeat kf_step. Qed.

(** A chunk whose checkpoint is a file is loaded, and nothing else
    happens. *)
Lemma process_chunk_loaded prompt total fuel c text w :
  lookup_node w (Path.parse (Transcriber.chunk_transcript_file c)) = Some (File text) ->
  Transcriber.process_chunk self prompt total fuel c w = (Return text, w).
Proof.
  intros Hc. unfold Transcriber.process_chunk, bind, path_exists, read_text.
  by rewrite !Hc.
Qed.

(** Processing a chunk leaves every existing file as it is. *)
Lemma process_chunk_preserves prompt total fuel c w p nd :
  lookup_node w p = Some nd ->
  lookup_node (snd (Transcriber.process_chunk self prompt total fuel c w)) p = Some nd.
Proof.
  intros Hp. unfold Transcriber.process_chunk, bind at 1, path_exists.
  destruct (lookup_node w (Path.parse _)) as [x|] eqn:Hck.
  - unfold read_text. rewrite Hck. by destruct x.
  - unfold bind at 1.
    pose proof (kf_upload_file (Transcriber.api self) (file c) "audio/wav" true fuel w) as H1.
    destruct (GeminiAPI.upload_file _ _ _ _ _ w) as [[up|e|] w1]; simpl in *;
      try (unfold lookup_node in *; by rewrite H1).
    unfold bind.
    pose proof (kf_generate (Transcriber.api self) prompt (fst up) "audio/wav"
                  0.2 30000 600 w1) as H2.
    unfold Transcriber.transcribe_chunk.
    destruct (GeminiAPI.generate _ _ _ _ _ _ _ w1) as [[tr|e|] w2]; simpl in *;
      try (unfold lookup_node in *; by rewrite H2, H1).
    assert (lookup_node w2 (Path.parse (Transcriber.chunk_transcript_file c)) = None)
      as Hck2 by (unfold lookup_node in *; by rewrite H2, H1).
    assert (lookup_node w2 p = Some nd) as Hp2
      by (unfold lookup_node in *; by rewrite H2, H1).
    clear Hck Hp H1 H2.
    unfold open_write. rewrite Hck2.
    destruct (parent_error w2 _); [done|].
    assert (forall f', lookup_node
              (set_fs (<[Path.to_str (Path.parse (Transcriber.chunk_transcript_file c))
                         := f']> (fs w2)) w2) p = Some nd) as Hins.
    { intros f'. unfold lookup_node in *. simpl.
      destruct (Path.parts p); [done|].
      destruct (Path.parts (Path.parse (Transcriber.chunk_transcript_file c)));
        [done|].
      rewrite lookup_insert_ne; [done|]. intros Heq. rewrite Heq in Hck2. congruence. }
    destruct (write_all "" [tr]) as [content [e|]]; simpl; apply Hins.
Qed.

Lemma process_chunks_preserves prompt total fuel cs acc w p nd :
  lookup_node w p = Some nd ->
  lookup_node (snd (Transcriber.process_chunks self prompt total fuel cs acc w)) p
  = Some nd.
Proof.
  revert acc w. induction cs as [|c cs IH]; intros acc w Hp; [done|].
  simpl. unfold bind.
  pose proof (process_chunk_preserves prompt total fuel c w p nd Hp) as H1.
  destruct (Transcriber.process_chunk _ _ _ _ _ w) as [[t|e|] w1]; simpl in *;
    [|done..].
  by apply IH.
Qed.

Lemma process_chunks_app prompt total fuel l1 l2 acc w :
  Transcriber.process_chunks self prompt total fuel (l1 ++ l2) acc w
  = bind (Transcriber.process_chunks self prompt total fuel l1 acc)
         (fun ts => Transcriber.process_chunks self prompt total fuel l2 ts) w.
Proof.
  revert acc w. induction l1 as [|c l1 IH]; intros acc w; [done|].
  simpl. unfold bind.
  destruct (Transcriber.process_chunk _ _ _ _ _ w) as [[t|e|] w1]; [|done..].
  by rewrite IH.
Qed.

(** Chunks whose checkpoints are all files are loaded in order, and the
    world stays as it is. *)
Lemma process_chunks_loaded prompt total fuel l texts acc w :
  Forall2 (fun c t =>
    lookup_node w (Path.parse (Transcriber.chunk_transcript_file c)) = Some (File t))
    l texts ->
  Transcriber.process_chunks self prompt total fuel l acc w
  = (Return (acc ++ texts)%list, w).
Proof.
  intros H. revert acc. induction H as [|c t l texts Hc _ IH]; intros acc.
  - simpl. by rewrite app_nil_r.
  - simpl. unfold bind. rewrite (process_chunk_loaded _ _ _ _ t) by done.
    rewrite IH. by rewrite <- app_assoc.
Qed.

End CheckpointFacts.

(** ** C5: checkpoints short-circuit the remote work *)

(** C5. A chunk whose checkpoint file exists contributes its loaded text
    and nothing else: running the loop of [transcribe] over a plan that
    contains it does to the world exactly what running it over the chunks
    before and after does, with the loaded text at its place among the
    transcripts. Hence when all chunks are checkpointed the loop returns the
    loaded texts and leaves the world, its trace of remote calls included,
    as it was; when the first chunks are checkpointed the loop does what it
    does on the remaining chunks alone; and a whole run of [transcribe]
    whose chunks are all checkpointed goes from splitting straight to the
    merge call on the loaded texts. *)
Theorem C5_checkpointed_chunks_are_loaded_not_transcribed `{E : Env}
    (self : Transcriber.t) (prompt : string) (total fuel : nat)
    (before after loaded remaining : list Chunk) (c : Chunk)
    (text : string) (texts : list string) (w : World) :
  checkpointed w c text ->
  Forall2 (checkpointed w) loaded texts ->
  Transcriber.process_chunks self prompt total fuel (before ++ c :: after) [] w
  = (let* ts := Transcriber.process_chunks self prompt total fuel before [] in
     Transcriber.process_chunks self prompt total fuel after (ts ++ [text])%list) w /\
  Transcriber.process_chunks self prompt total fuel loaded [] w = (Return texts, w) /\
  Transcriber.process_chunks self prompt total fuel (loaded ++ remaining) [] w
  = Transcriber.process_chunks self prompt total fuel remaining texts w /\
  (forall audio out cp mp ins header speakers w0 instructions,
     lookup_node w0 (Path.parse audio) <> None ->
     Transcriber.load_instructions ins w0 = (Return instructions, w0) ->
     Transcriber.split_audio self (Path.parse audio) fuel w0 = (Return loaded, w) ->
     Transcriber.transcribe self audio out cp mp ins header speakers fuel w0
     = (let* final_transcript :=
          Transcriber.merge_transcripts self texts
            (match mp with None => DEFAULT_MERGE_PROMPT | Some p => p end) in
        let* _ :=
          open_write (Path.parse out)
            ((match GeminiAPI.nonempty header with
              | Some h => [JStr h; JStr Transcriber.rule]
              | None => []
              end) ++ [final_transcript])%list in
        ret final_transcript) w).
Proof.
  intros Hc Hloaded. split_and!.
  - rewrite process_chunks_app. unfold bind at 1 2.
    pose proof (process_chunks_preserves self prompt total fuel before [] w _ _ Hc) as Hc'.
    destruct (Transcriber.process_chunks self prompt total fuel before [] w)
      as [[ts|e|] w1]; [|done..].
    simpl in Hc'. simpl. unfold bind.
    by rewrite (process_chunk_loaded self prompt total fuel c text w1 Hc').
  - by rewrite (process_chunks_loaded self prompt total fuel loaded texts [] w).
  - rewrite process_chunks_app. unfold bind.
    by rewrite (process_chunks_loaded self prompt total fuel loaded texts [] w).
  - intros audio out cp mp ins header speakers w0 instructions Haudio Hins Hsplit.
    unfold Transcriber.transcribe, bind at 1, path_exists.
    destruct (lookup_node w0 (Path.parse audio)); [|done]. simpl.
    unfold bind at 1. rewrite Hins.
    unfold bind at 1. rewrite Hsplit.
    unfold bind at 1.
    by rewrite (process_chunks_loaded self _ _ fuel loaded texts [] w).
Qed.

Lemma C5_witness :
  @Transcriber.process_chunks (Demo.env 2500 0) (Demo.transcriber 1200 10)
     DEFAULT_CHUNK_PROMPT 2 5
     [Demo.chunk 1 0 1200; Demo.chunk 2 1190 2390] []
     (Demo.resumed_world 2500 0 [])
  = (Return ["one"; "two"], Demo.resumed_world 2500 0 []).
Proof.
  refine (proj1 (proj2
    (@C5_checkpointed_chunks_are_loaded_not_transcribed (Demo.env 2500 0)
       (Demo.transcriber 1200 10) DEFAULT_CHUNK_PROMPT 2 5
       [] [Demo.chunk 2 1190 2390] [Demo.chunk 1 0 1200; Demo.chunk 2 1190 2390] []
       (Demo.chunk 1 0 1200) "one" ["one"; "two"]
       (Demo.resumed_world 2500 0 []) _ _))).
  - vm_compute. reflexivity.
  - repeat constructor; vm_compute; reflexivity.
Defined.

(** A resumed run: the first two chunks are loaded, the third is uploaded
    and transcribed, and only its requests reach the service. *)
Example resumed_run :
  let r :=
    @Transcriber.process_chunks (Demo.env 2500 0) (Demo.transcriber 1200 10)
      "Transcribe." 3 5
      [Demo.chunk 1 0 1200; Demo.chunk 2 1190 2390; Demo.chunk 3 2380 2500] []
      (Demo.world
         [("audio_chunks/chunk_03.wav", File "RIFF");
          ("transcript_chunk_01.md", File "one");
          ("transcript_chunk_02.md", File "two")]
         [Demo.listing []; Demo.upload_started "https://upload.example/session";
          Demo.uploaded "uri-3" "files/3"; Demo.file_state "ACTIVE";
          Demo.generated "three"]) in
  fst r = Return ["one"; "two"; "three"] /\
  length (trace (snd r)) = 5%nat /\
  fs (snd r) !! "transcript_chunk_03.md" = Some (File "three").
Proof. vm_compute. done. Qed.

(** ** C10: an instructions file that does not exist *)

(** C10. When [instructions_file] names a path that does not exist,
    loading the instructions raises nothing and gives the empty text, as
    with no instructions file; the whole run of [transcribe] is then the run
    without an instructions file, and the per-chunk prompt it uses is the
    given or default chunk prompt with nothing appended. *)
Theorem C10_missing_instructions_file_is_ignored `{E : Env}
    (self : Transcriber.t) (audio out : string)
    (cp mp header speakers : option string) (fuel : nat)
    (f : string) (w : World) :
  lookup_node w (Path.parse f) = None ->
  Transcriber.load_instructions (Some f) w = (Return "", w) /\
  Transcriber.load_instructions (Some f) w = Transcriber.load_instructions None w /\
  Transcriber.transcribe self audio out cp mp (Some f) header speakers fuel w
  = Transcriber.transcribe self audio out cp mp None header speakers fuel w /\
  Transcriber.build_chunk_prompt cp speakers ""
  = match cp with
    | Some p => p
    | None => Transcriber.build_chunk_prompt None speakers ""
    end /\
  Transcriber.build_chunk_prompt None None "" = DEFAULT_CHUNK_PROMPT.
Proof.
  intros Hf.
  assert (Transcriber.load_instructions (Some f) w = (Return "", w)) as Hload.
  { unfold Transcriber.load_instructions. simpl.
    destruct (String.eqb f ""); [done|].
    unfold bind, path_exists. by rewrite Hf. }
  split_and!.
  - done.
  - by rewrite Hload.
  - unfold Transcriber.transcribe. rewrite !bind_path_exists.
    destruct (negb _); [done|].
    apply bind_eq_l. by rewrite Hload.
  - by destruct cp.
  - reflexivity.
Qed.

Lemma C10_witness :
  @Transcriber.load_instructions (Demo.env 2500 0) (Some "missing.md")
     (Demo.talk_world 2500 0 [])
  = (Return "", Demo.talk_world 2500 0 []) /\
  @Transcriber.transcribe (Demo.env 2500 0) (Demo.transcriber 1200 10)
     "talk.wav" "transcript.md" None None (Some "missing.md") None None 5
     (Demo.talk_world 2500 0 [])
  = @Transcriber.transcribe (Demo.env 2500 0) (Demo.transcriber 1200 10)
     "talk.wav" "transcript.md" None None None None None 5
     (Demo.talk_world 2500 0 []).
Proof.
  destruct (@C10_missing_instructions_file_is_ignored (Demo.env 2500 0)
              (Demo.transcriber 1200 10) "talk.wav" "transcript.md"
              None None None None 5 "missing.md" (Demo.talk_world 2500 0 []))
    as (H1 & _ & H3 & _).
  - vm_compute. reflexivity.
  - split; [exact H1|exact H3].
Defined.

(** A run with an instructions file that is there: the instructions are
    appended to the chunk prompt under their heading. *)
Example build_chunk_prompt_with_instructions :
  Transcriber.build_chunk_prompt (Some "Transcribe.") None "Keep names."
  = "Transcribe." ++ Text.nl ++ Text.nl ++ "ADDITIONAL INSTRUCTIONS:" ++ Text.nl
    ++ "Keep names.".
Proof. vm_compute. reflexivity. Qed.

Example chunk_prompt_speakers :
  exists before after,
    get_chunk_prompt (Some ["Ivan Vendrov"; "Robin Hanson"])
    = before ++ "- Speaker names in bold: **Ivan Vendrov:**, **Robin Hanson:**"
      ++ after.
Proof.
  exists ("Please transcribe this audio interview/conversation segment."
          ++ Text.nl ++ Text.nl ++ "FORMAT:" ++ Text.nl).
  eexists. vm_compute. reflexivity.
Qed.


(** * Further properties of the code *)

(** ** The client: construction, lookup and upload *)

Section MonadInversion.

Context `{E : Env}.

Lemma bind_return_inv {A B} (m : M A) (k : A -> M B) w b w' :
  bind m k w = (Return b, w') ->
  exists a w1, m w = (Return a, w1) /\ k a w1 = (Return b, w').
Proof.
  unfold bind. destruct (m w) as [[a|e|] w1]; [eauto|done..].
Qed.

Lemma bind_return {A B} (m : M A) (k : A -> M B) w a w1 :
  m w = (Return a, w1) -> bind m k w = k a w1.
Proof. unfold bind. by intros ->. Qed.

Lemma bind_raise {A B} (m : M A) (k : A -> M B) w e w1 :
  m w = (Raise e, w1) -> bind m k w = (Raise e, w1).
Proof. unfold bind. by intros ->. Qed.

End MonadInversion.

(** X1. The API key: a non-empty key given to the constructor is used,
    whatever the environment holds; without one, a non-empty
    [GEMINI_API_KEY] of the environment is used; with neither, the
    constructor raises [ValueError]. The world is never changed. *)
Theorem X1_api_key_resolution `{E : Env} (key : option string)
    (model : string) (w : World) :
  (forall k, key = Some k -> k <> "" ->
     GeminiAPI.init key model w
     = (Return {| GeminiAPI.api_key := k; GeminiAPI.model := model;
                  GeminiAPI.generate_url := GeminiAPI.GENERATE_URL model |}, w)) /\
  (forall k, key = None \/ key = Some "" ->
     environ w !! "GEMINI_API_KEY" = Some k -> k <> "" ->
     GeminiAPI.init key model w
     = (Return {| GeminiAPI.api_key := k; GeminiAPI.model := model;
                  GeminiAPI.generate_url := GeminiAPI.GENERATE_URL model |}, w)) /\
  (key = None \/ key = Some "" ->
   environ w !! "GEMINI_API_KEY" = None \/ environ w !! "GEMINI_API_KEY" = Some "" ->
   exists msg, GeminiAPI.init key model w = (Raise (ValueError msg), w)).
Proof.
  unfold GeminiAPI.init, bind, getenv, ret, raise. split_and!.
  - intros k -> Hk. simpl.
    destruct (String.eqb_spec k "") as [->|_]; [done|]. simpl.
    by destruct (String.eqb_spec k "") as [->|_].
  - intros k Hkey Henv Hk. rewrite Henv.
    destruct Hkey as [-> | ->]; simpl;
      by destruct (String.eqb_spec k "") as [->|_].
  - intros Hkey Henv. eexists.
    destruct Hkey as [-> | ->], Henv as [-> | ->]; simpl; reflexivity.
Qed.

Lemma X1_witness :
  @GeminiAPI.init (Demo.env 2500 0) (Some "")
     "gemini-3-pro-preview"
     (@mkWorld (Demo.env 2500 0) ∅ {["GEMINI_API_KEY" := "from-env"]} [] [])
  = (Return {| GeminiAPI.api_key := "from-env";
               GeminiAPI.model := "gemini-3-pro-preview";
               GeminiAPI.generate_url :=
                 GeminiAPI.GENERATE_URL "gemini-3-pro-preview" |},
     @mkWorld (Demo.env 2500 0) ∅ {["GEMINI_API_KEY" := "from-env"]} [] []).
Proof.
  destruct (@X1_api_key_resolution (Demo.env 2500 0) (Some "")
              "gemini-3-pro-preview"
              (@mkWorld (Demo.env 2500 0) ∅ {["GEMINI_API_KEY" := "from-env"]} [] []))
    as (_ & Henv & _).
  apply Henv; [by right|reflexivity|discriminate].
Defined.

Section Upload.

Context `{E : Env}.
Variable self : GeminiAPI.t.

Lemma stat_size_file p content w :
  lookup_node w p = Some (File content) ->
  stat_size p w = (Return (String.length content), w).
Proof. unfold stat_size. by intros ->. Qed.

Lemma read_text_file p content w :
  lookup_node w p = Some (File content) ->
  read_text p w = (Return content, w).
Proof. unfold read_text. by intros ->. Qed.

Lemma http_keeps_files r w resp w1 :
  http r w = (Return resp, w1) -> fs w1 = fs w.
Proof.
  unfold http. destruct (serve _ _) as [s' [x|]]; [|done]. by intros [= _ <-].
Qed.

Lemma lookup_node_fs (w w1 : World) p :
  fs w1 = fs w -> lookup_node w1 p = lookup_node w p.
Proof. unfold lookup_node. by intros ->. Qed.

(** The lookup makes one request, the listing, and touches no file,
    however it ends. *)
Lemma check_existing_file_one_request dn w :
  exists answer,
    trace (snd (GeminiAPI.check_existing_file self dn w))
    = (trace w ++ [EvHttp (Listing.request self) answer])%list /\
    fs (snd (GeminiAPI.check_existing_file self dn w)) = fs w.
Proof.
  unfold GeminiAPI.check_existing_file. fold (Listing.request self).
  unfold bind, http, response_json, lift, ret, raise.
  destruct (serve (remote w) (Listing.request self)) as [s' [resp|]]; simpl;
    [|by exists None].
  exists (Some resp).
  destruct (status_code resp =? 200)%Z; [|done].
  destruct (json_body resp) as [listing|]; [|done].
  destruct (Py.get listing "files" (JArr [])) as [files| |]; simpl; try done.
  destruct (Py.iter files) as [items| |]; simpl; try done.
  match goal with
  | |- context [GeminiAPI.scan_files dn items ?w1] =>
      pose proof (scan_files_world dn items w1) as Hs;
      destruct (GeminiAPI.scan_files dn items w1) as [o w2]
  end.
  simpl in Hs. subst w2. by destruct o.
Qed.

(** The head of [upload_file] up to the first upload request. *)
Lemma upload_file_starts filepath mime reuse fuel content w w1 :
  lookup_node w filepath = Some (File content) ->
  nothing_to_reuse self (Path.stem filepath) reuse w w1 ->
  fs w1 = fs w /\
  forall r1 w2,
    http (start_request self (String.length content) (Path.stem filepath) mime) w1
    = (Return r1, w2) ->
    status_code r1 = 200%Z ->
    GeminiAPI.upload_file self filepath mime reuse fuel w
    = match GeminiAPI.nonempty (x_goog_upload_url r1) with
      | None => (Raise (Exception "No upload URL returned"), w2)
      | Some upload_url =>
          (let* response :=
             http (transfer_request upload_url (String.length content) content) in
           if negb (status_code response =? 200)%Z then
             raise (Exception
               ("Failed to upload file: " ++ pretty (status_code response)
                ++ " " ++ text response))
           else
             let* file_info := response_json response in
             let* info := lift (Py.get file_info "file" (JObj [])) in
             let* file_uri := lift (Py.get info "uri" JNull) in
             let* file_name := lift (Py.get info "name" JNull) in
             let* _ := GeminiAPI._wait_for_file_processing self file_name fuel in
             ret (file_uri, file_name)) w2
      end.
Proof.
  intros Hfile Hnone.
  assert (fs w1 = fs w) as Hfs.
  { destruct Hnone as [[_ ->]|(_ & found & Hcheck & _)]; [done|].
    destruct (check_existing_file_one_request (Path.stem filepath) w) as (_ & _ & H).
    by rewrite Hcheck in H. }
  split; [done|]. intros r1 w2 Hstart Hst.
  unfold GeminiAPI.upload_file.
  rewrite (bind_return _ _ w _ w (stat_size_file _ _ _ Hfile)).
  assert ((if reuse
           then let* found := GeminiAPI.check_existing_file self (Path.stem filepath) in
                ret (if Py.truthy found.1 then Some found else None)
           else ret None) w = (Return None, w1)) as Hlook.
  { destruct Hnone as [[-> ->]|(-> & found & Hcheck & Htr)]; [done|].
    rewrite (bind_return _ _ _ _ _ Hcheck). by rewrite Htr. }
  rewrite (bind_return _ _ _ _ _ Hlook).
  unfold start_request in Hstart.
  rewrite (bind_return _ _ _ _ _ Hstart). rewrite Hst. simpl.
  destruct (GeminiAPI.nonempty (x_goog_upload_url r1)) as [url|]; [|done].
  assert (lookup_node w2 filepath = Some (File content)) as Hfile2.
  { rewrite (lookup_node_fs w w2); [done|].
    by rewrite (http_keeps_files _ _ _ _ Hstart). }
  by rewrite (bind_return _ _ _ _ _ (read_text_file _ _ _ Hfile2)).
Qed.

End Upload.

(** X2. Uploading a file that is not there raises [FileNotFoundError]
    before any request is made: the world, trace included, is unchanged,
    with or without reuse. *)
Theorem X2_upload_of_missing_file `{E : Env} (self : GeminiAPI.t)
    (filepath : Path.t) (mime : string) (reuse : bool) (fuel : nat) (w : World) :
  lookup_node w filepath = None ->
  GeminiAPI.upload_file self filepath mime reuse fuel w
  = (Raise (FileNotFoundError (Path.to_str filepath)), w).
Proof.
  intros Hf. unfold GeminiAPI.upload_file, bind, stat_size. by rewrite Hf.
Qed.

Lemma X2_witness :
  @GeminiAPI.upload_file (Demo.env 2500 0) Demo.api
     (Path.parse "audio_chunks/chunk_07.wav") "audio/wav" true 5
     (Demo.chunk_world 2500 0 [Demo.listing []])
  = (Raise (FileNotFoundError "audio_chunks/chunk_07.wav"),
     Demo.chunk_world 2500 0 [Demo.listing []]).
Proof.
  apply (@X2_upload_of_missing_file (Demo.env 2500 0)).
  vm_compute. reflexivity.
Defined.

(** X3. The reuse lookup makes exactly one request, the file listing, and
    changes no local file, whether it returns or raises. *)
Theorem X3_lookup_makes_one_request `{E : Env} (self : GeminiAPI.t)
    (display_name : string) (w : World) :
  exists answer,
    trace (snd (GeminiAPI.check_existing_file self display_name w))
    = (trace w ++ [EvHttp (Listing.request self) answer])%list /\
    fs (snd (GeminiAPI.check_existing_file self display_name w)) = fs w.
Proof. apply check_existing_file_one_request. Qed.

(** X4. A fresh upload. When there is nothing to reuse, the file's size
    and stem are announced in the first request; if that is answered with
    status 200 and an upload URL, the bytes of the file are posted to that
    URL; if that is answered with status 200 and a file description, the
    file is polled under the name given there, and once it is ready
    [upload_file] returns the uri and the name of the description. *)
Theorem X4_fresh_upload `{E : Env} (self : GeminiAPI.t) (filepath : Path.t)
    (mime : string) (reuse : bool) (fuel : nat) (content url : string)
    (r1 r2 : response) (file_info : json) (kv : list (string * json))
    (w w1 w2 w3 w4 : World) :
  lookup_node w filepath = Some (File content) ->
  nothing_to_reuse self (Path.stem filepath) reuse w w1 ->
  http (start_request self (String.length content) (Path.stem filepath) mime) w1
  = (Return r1, w2) ->
  status_code r1 = 200%Z ->
  x_goog_upload_url r1 = Some url -> url <> "" ->
  http (transfer_request url (String.length content) content) w2 = (Return r2, w3) ->
  status_code r2 = 200%Z ->
  json_body r2 = Some file_info ->
  Py.get file_info "file" (JObj []) = Return (JObj kv) ->
  GeminiAPI._wait_for_file_processing self (Listing.field kv "name") fuel w3
  = (Return tt, w4) ->
  GeminiAPI.upload_file self filepath mime reuse fuel w
  = (Return (Listing.field kv "uri", Listing.field kv "name"), w4).
Proof.
  intros Hfile Hnone Hstart Hst1 Hurl Hne Htransfer Hst2 Hjson Hinfo Hwait.
  destruct (upload_file_starts self filepath mime reuse fuel content w w1 Hfile Hnone)
    as [_ Hup].
  rewrite (Hup r1 w2 Hstart Hst1), Hurl. simpl.
  destruct (String.eqb_spec url "") as [->|_]; [done|].
  rewrite (bind_return _ _ _ _ _ Htransfer), Hst2. simpl.
  unfold response_json. rewrite Hjson.
  rewrite bind_ret_l. unfold lift at 1. unfold bind at 1. rewrite Hinfo.
  unfold bind at 1. simpl. unfold bind at 1. simpl.
  by rewrite (bind_return _ _ _ _ _ Hwait).
Qed.

(** X5. An upload that cannot start. When there is nothing to reuse and
    the first request is answered with status 200 but without an upload URL
    (none, or an empty one), [upload_file] raises and the bytes of the file
    are never sent: the first request is the last one. *)
Theorem X5_upload_without_url `{E : Env} (self : GeminiAPI.t) (filepath : Path.t)
    (mime : string) (reuse : bool) (fuel : nat) (content : string)
    (r1 : response) (w w1 w2 : World) :
  lookup_node w filepath = Some (File content) ->
  nothing_to_reuse self (Path.stem filepath) reuse w w1 ->
  http (start_request self (String.length content) (Path.stem filepath) mime) w1
  = (Return r1, w2) ->
  status_code r1 = 200%Z ->
  x_goog_upload_url r1 = None \/ x_goog_upload_url r1 = Some "" ->
  GeminiAPI.upload_file self filepath mime reuse fuel w
  = (Raise (Exception "No upload URL returned"), w2) /\
  trace w2
  = (trace w1 ++ [EvHttp (start_request self (String.length content)
                            (Path.stem filepath) mime) (Some r1)])%list.
Proof.
  intros Hfile Hnone Hstart Hst1 Hurl. split; [|by apply http_trace].
  destruct (upload_file_starts self filepath mime reuse fuel content w w1 Hfile Hnone)
    as [_ Hup].
  rewrite (Hup r1 w2 Hstart Hst1). by destruct Hurl as [-> | ->].
Qed.

Lemma X4_witness :
  fst (@GeminiAPI.upload_file (Demo.env 2500 0) Demo.api
         (Path.parse "audio_chunks/chunk_01.wav") "audio/wav" false 5
         (Demo.chunk_world 2500 0
            [Demo.upload_started "https://upload.example/session";
             Demo.uploaded "uri-new" "files/new"; Demo.file_state "ACTIVE"]))
  = Return (JStr "uri-new", JStr "files/new").
Proof.
  erewrite (@X4_fresh_upload (Demo.env 2500 0) Demo.api
              (Path.parse "audio_chunks/chunk_01.wav") "audio/wav" false 5
              "RIFF" "https://upload.example/session" _ _ _
              [("uri", JStr "uri-new"); ("name", JStr "files/new")]).
  - reflexivity.
  - vm_compute. reflexivity.
  - left. split; reflexivity.
  - reflexivity.
  - reflexivity.
  - reflexivity.
  - discriminate.
  - reflexivity.
  - reflexivity.
  - reflexivity.
  - reflexivity.
  - lazy. reflexivity.
Defined.

Lemma X5_witness :
  fst (@GeminiAPI.upload_file (Demo.env 2500 0) Demo.api
         (Path.parse "audio_chunks/chunk_01.wav") "audio/wav" true 5
         (Demo.chunk_world 2500 0 [Demo.listing []; Demo.ok JNull]))
  = Raise (Exception "No upload URL returned").
Proof.
  edestruct (@X5_upload_without_url (Demo.env 2500 0) Demo.api
               (Path.parse "audio_chunks/chunk_01.wav") "audio/wav" true 5 "RIFF")
    as [Hup _]; [| | | | |rewrite Hup; reflexivity].
  - vm_compute. reflexivity.
  - right. split; [reflexivity|]. eexists. split; reflexivity.
  - reflexivity.
  - reflexivity.
  - by left.
Defined.

(** ** Readiness polling *)

Section Polling.

Context `{E : Env}.
Variable self : GeminiAPI.t.

Lemma poll_unfold file_id fuel w :
  GeminiAPI.poll self file_id (S fuel) w
  = (let* response := http (poll_request self file_id) in
     if negb (status_code response =? 200)%Z then
       raise (Exception
         ("Failed to check file status: " ++ pretty (status_code response)))
     else
       let* info := response_json response in
       let* state := lift (Py.get info "state" JNull) in
       if Py.eq_str state "ACTIVE" then ret tt
       else if Py.eq_str state "FAILED" then
         raise (Exception "File processing failed")
       else
         let* _ := sleep 3 in
         GeminiAPI.poll self file_id fuel) w.
Proof. reflexivity. Qed.

Lemma poll_last file_id st fuel w w' :
  poll_answered self file_id st w w' ->
  GeminiAPI.poll self file_id (S fuel) w
  = (if String.eqb st "ACTIVE" then (Return tt, w')
     else if String.eqb st "FAILED"
          then (Raise (Exception "File processing failed"), w')
          else GeminiAPI.poll self file_id fuel (log_event (EvSleep 3) w')).
Proof.
  intros (resp & info & Hhttp & Hst & Hjson & Hstate).
  rewrite poll_unfold, (bind_return _ _ _ _ _ Hhttp), Hst. simpl.
  unfold response_json. rewrite Hjson, bind_ret_l.
  unfold lift, bind at 1. rewrite Hstate. simpl.
  destruct (String.eqb st "ACTIVE"); [done|].
  by destruct (String.eqb st "FAILED").
Qed.

Lemma http_slept r w resp w1 :
  http r w = (Return resp, w1) -> slept w1 = slept w.
Proof.
  intros H. unfold slept. rewrite (http_trace _ _ _ _ H), filter_app.
  rewrite length_app. simpl. lia.
Qed.

Lemma polls_pending_run file_id k w w' :
  polls_pending self file_id k w w' ->
  slept w' = (slept w + k)%nat /\
  forall fuel,
    GeminiAPI.poll self file_id (k + fuel) w = GeminiAPI.poll self file_id fuel w'.
Proof.
  induction 1 as [w|k w resp info st w1 w' Hhttp Hst Hjson Hstate Ha Hf _ [IH1 IH2]].
  - split; [lia|done].
  - split.
    + rewrite IH1. unfold slept at 1, log_event. simpl.
      rewrite filter_app, length_app. simpl.
      fold (slept w1). rewrite (http_slept _ _ _ _ Hhttp). lia.
    + intros fuel. change (S k + fuel)%nat with (S (k + fuel)).
      rewrite poll_unfold, (bind_return _ _ _ _ _ Hhttp), Hst. simpl.
      unfold response_json. rewrite Hjson, bind_ret_l.
      unfold lift, bind at 1. rewrite Hstate. rewrite Ha, Hf.
      unfold bind, sleep. apply IH2.
Qed.

End Polling.

(** X6. Polling until the file is ready. If the service reports a state
    other than ACTIVE or FAILED for the next [k] polls and ACTIVE for the one
    after, polling returns after those [k + 1] requests, having slept [k]
    times, provided more than [k] iterations are allowed; with [k] or fewer
    it has not finished. If the poll after the [k] pending ones reports
    FAILED, polling raises. *)
Theorem X6_polling_waits_until_ready `{E : Env} (self : GeminiAPI.t)
    (file_id st : string) (k : nat) (w w' w'' : World) :
  polls_pending self file_id k w w' ->
  poll_answered self file_id st w' w'' ->
  slept w'' = (slept w + k)%nat /\
  (forall fuel, (fuel <= k)%nat ->
     fst (GeminiAPI.poll self file_id fuel w) = OutOfFuel) /\
  (forall fuel, (k < fuel)%nat -> st = "ACTIVE" ->
     GeminiAPI.poll self file_id fuel w = (Return tt, w'')) /\
  (forall fuel, (k < fuel)%nat -> st = "FAILED" ->
     GeminiAPI.poll self file_id fuel w
     = (Raise (Exception "File processing failed"), w'')).
Proof.
  intros Hpend Hlast.
  destruct (polls_pending_run self file_id k w w' Hpend) as [Hs Hrun].
  split_and!.
  - destruct Hlast as (resp & info & Hhttp & _).
    by rewrite (http_slept _ _ _ _ Hhttp).
  - clear Hlast Hs Hrun. induction Hpend
      as [w|k w resp info st' w1 w' Hhttp Hst Hjson Hstate Ha Hf Hp IH];
      intros fuel Hfuel.
    + by replace fuel with 0%nat by lia.
    + destruct fuel as [|fuel]; [done|].
      rewrite poll_unfold, (bind_return _ _ _ _ _ Hhttp), Hst. simpl.
      unfold response_json. rewrite Hjson, bind_ret_l.
      unfold lift, bind at 1. rewrite Hstate. rewrite Ha, Hf.
      unfold bind, sleep. apply IH. lia.
  - intros fuel Hfuel ->.
    replace fuel with (k + S (fuel - k - 1))%nat by lia.
    rewrite Hrun. by rewrite (poll_last self file_id "ACTIVE" _ w' w'').
  - intros fuel Hfuel ->.
    replace fuel with (k + S (fuel - k - 1))%nat by lia.
    rewrite Hrun. by rewrite (poll_last self file_id "FAILED" _ w' w'').
Qed.

Lemma X6_witness :
  fst (@GeminiAPI.poll (Demo.env 2500 0) Demo.api "new" 3
         (Demo.chunk_world 2500 0
            [Demo.file_state "PROCESSING"; Demo.file_state "PROCESSING";
             Demo.file_state "ACTIVE"]))
  = Return tt /\
  fst (@GeminiAPI.poll (Demo.env 2500 0) Demo.api "new" 2
         (Demo.chunk_world 2500 0
            [Demo.file_state "PROCESSING"; Demo.file_state "PROCESSING";
             Demo.file_state "ACTIVE"]))
  = OutOfFuel.
Proof.
  edestruct (@X6_polling_waits_until_ready (Demo.env 2500 0) Demo.api "new"
               "ACTIVE" 2
               (Demo.chunk_world 2500 0
                  [Demo.file_state "PROCESSING"; Demo.file_state "PROCESSING";
                   Demo.file_state "ACTIVE"]))
    as (_ & Hshort & Hready & _).
  - eapply pending_more; try (lazy; reflexivity).
    eapply pending_more; try (lazy; reflexivity).
    apply pending_none.
  - eexists _, _. split_and!; lazy; reflexivity.
  - split.
    + rewrite (Hready 3%nat); [reflexivity|lia|reflexivity].
    + apply (Hshort 2%nat). lia.
Defined.

(** X7. Polling has no time limit of its own. While the service keeps
    answering the poll with status 200 and one state that is neither ACTIVE
    nor FAILED, polling neither returns nor raises, however many iterations
    it is given, and it sleeps once in each of them. *)
Theorem X7_polling_never_gives_up `{E : Env} (self : GeminiAPI.t)
    (file_id : string) (st : json) :
  Py.eq_str st "ACTIVE" = false -> Py.eq_str st "FAILED" = false ->
  (forall s, exists s' resp info,
     serve s (poll_request self file_id) = (s', Some resp) /\
     status_code resp = 200%Z /\
     json_body resp = Some info /\
     Py.get info "state" JNull = Return st) ->
  forall fuel w,
    fst (GeminiAPI.poll self file_id fuel w) = OutOfFuel /\
    slept (snd (GeminiAPI.poll self file_id fuel w)) = (slept w + fuel)%nat.
Proof.
  intros Ha Hf Hserve fuel. induction fuel as [|fuel IH]; intros w.
  - simpl. split; [done|lia].
  - destruct (Hserve (remote w)) as (s' & resp & info & Hs & Hst & Hjson & Hstate).
    assert (exists w1, http (poll_request self file_id) w = (Return resp, w1))
      as [w1 Hhttp] by (unfold http; rewrite Hs; eauto).
    rewrite poll_unfold, (bind_return _ _ _ _ _ Hhttp), Hst. simpl.
    unfold response_json. rewrite Hjson, bind_ret_l.
    unfold lift, bind at 1 3. rewrite Hstate. rewrite Ha, Hf.
    unfold bind, sleep.
    destruct (IH (log_event (EvSleep 3) w1)) as [IH1 IH2].
    split; [done|]. rewrite IH2.
    unfold slept at 1, log_event. simpl. rewrite filter_app, length_app. simpl.
    fold (slept w1). rewrite (http_slept _ _ _ _ Hhttp). lia.
Qed.

Lemma X7_witness :
  fst (@GeminiAPI.poll (steady_env "PROCESSING") Demo.api "new" 40
         (@mkWorld (steady_env "PROCESSING") ∅ ∅ tt []))
  = OutOfFuel.
Proof.
  apply (@X7_polling_never_gives_up (steady_env "PROCESSING") Demo.api "new"
           (JStr "PROCESSING")); try reflexivity.
  intros []. eexists _, _, _. split_and!; reflexivity.
Defined.

(** ** The name a file is polled under *)

Lemma prefix_has_char c (p s : string) :
  String.prefix p s = true -> Text.has_char c p = true -> Text.has_char c s = true.
Proof.
  revert s. induction p as [|a p IH]; intros s Hp Hc; [done|].
  destruct s as [|b s]; [done|].
  change (String.prefix (String a p) (String b s))
    with (if ascii_dec a b then String.prefix p s else false) in Hp.
  destruct (ascii_dec a b) as [->|]; [|done].
  simpl in *. destruct (decide (b = c)); [done|]. by apply IH.
Qed.

Lemma prefix_files_has_slash (s : string) :
  String.prefix "files/" s = true -> Text.has_char "/" s = true.
Proof. intros H. by apply (prefix_has_char "/" "files/" s). Qed.

Lemma replace_files_absent (s : string) :
  Text.has_char "/" s = false -> Text.replace_go "files/" "" 0 s = s.
Proof.
  induction s as [|a s IH]; [done|]. intros Hs.
  change (Text.replace_go "files/" "" 0 (String a s))
    with (if String.prefix "files/" (String a s)
          then "" ++ Text.replace_go "files/" "" (String.length "files/" - 1) s
          else String a (Text.replace_go "files/" "" 0 s)).
  destruct (String.prefix "files/" (String a s)) eqn:Hp.
  - apply prefix_files_has_slash in Hp. congruence.
  - rewrite IH; [done|]. simpl in Hs. by destruct (decide (a = "/"%char)).
Qed.

Lemma replace_files_prefix_id (id : string) :
  Text.has_char "/" id = false -> Text.replace "files/" "" ("files/" ++ id) = id.
Proof.
  intros Hid. unfold Text.replace.
  change ("files/" ++ id)
    with (String "f" (String "i" (String "l" (String "e" (String "s" (String "/" id)))))).
  simpl. assert (String.prefix "" id = true) as -> by (by destruct id).
  by apply replace_files_absent.
Qed.

(** X8. The name under which an uploaded file is polled. A name of the
    form [files/ID] (with no further slash) is polled as [ID]; a name that
    does not start with [files/] is polled as it is; and a name that is not
    a string, as when the upload response carries none, raises
    [AttributeError] without any request. *)
Theorem X8_polled_file_id `{E : Env} (self : GeminiAPI.t) (fuel : nat) (w : World) :
  (forall id, Text.has_char "/" id = false ->
     GeminiAPI._wait_for_file_processing self (JStr ("files/" ++ id)) fuel w
     = GeminiAPI.poll self id fuel w) /\
  (forall name, Text.startswith "files/" name = false ->
     GeminiAPI._wait_for_file_processing self (JStr name) fuel w
     = GeminiAPI.poll self name fuel w) /\
  (forall v, (forall s, v <> JStr s) ->
     GeminiAPI._wait_for_file_processing self v fuel w
     = (Raise (AttributeError "startswith"), w)).
Proof.
  split_and!.
  - intros id Hid. unfold GeminiAPI._wait_for_file_processing.
    rewrite replace_files_prefix_id by done.
    assert (Text.startswith "files/" ("files/" ++ id) = true) as ->; [|done].
    change ("files/" ++ id)
      with (String "f" (String "i" (String "l" (String "e" (String "s" (String "/" id)))))).
    unfold Text.startswith. simpl. by destruct id.
  - intros name Hname. unfold GeminiAPI._wait_for_file_processing. by rewrite Hname.
  - intros v Hv. destruct v; try done. by destruct (Hv s).
Qed.

Lemma X8_witness :
  @GeminiAPI._wait_for_file_processing (Demo.env 2500 0) Demo.api
     (JStr "files/abc-123") 1 (Demo.chunk_world 2500 0 [Demo.file_state "ACTIVE"])
  = @GeminiAPI.poll (Demo.env 2500 0) Demo.api "abc-123" 1
      (Demo.chunk_world 2500 0 [Demo.file_state "ACTIVE"]) /\
  @GeminiAPI._wait_for_file_processing (Demo.env 2500 0) Demo.api
     JNull 1 (Demo.chunk_world 2500 0 [Demo.file_state "ACTIVE"])
  = (Raise (AttributeError "startswith"),
     Demo.chunk_world 2500 0 [Demo.file_state "ACTIVE"]).
Proof.
  destruct (@X8_polled_file_id (Demo.env 2500 0) Demo.api 1
              (Demo.chunk_world 2500 0 [Demo.file_state "ACTIVE"]))
    as (Hid & _ & Hnone).
  split.
  - apply (Hid "abc-123"). reflexivity.
  - apply Hnone. discriminate.
Defined.

(** ** Generation *)

(** X9. What [generate] gives back. When the request is answered with
    status 200 and a body whose first candidate has a content whose first
    part has a text, that text is returned, whatever else the body holds.
    And whatever the answer is, [generate] never lets a [KeyError] or an
    [IndexError] out: a body of another shape ends in a plain [Exception]. *)
Theorem X9_generate_extracts_first_text `{E : Env} (self : GeminiAPI.t)
    (prompt : string) (file_uri : json) (mime : string) (temperature : Q)
    (max_tokens timeout : Z) (w : World) :
  (forall resp w1 top cand cands content part parts v,
     http (GeminiAPI.generate_request self prompt file_uri mime temperature
             max_tokens timeout) w = (Return resp, w1) ->
     status_code resp = 200%Z ->
     json_body resp = Some (JObj top) ->
     Py.assoc "candidates" top = Some (JArr (JObj cand :: cands)) ->
     Py.assoc "content" cand = Some (JObj content) ->
     Py.assoc "parts" content = Some (JArr (JObj part :: parts)) ->
     Py.assoc "text" part = Some v ->
     GeminiAPI.generate self prompt file_uri mime temperature max_tokens timeout w
     = (Return v, w1)) /\
  (forall k, fst (GeminiAPI.generate self prompt file_uri mime temperature
                    max_tokens timeout w) <> Raise (KeyError k)) /\
  (forall m, fst (GeminiAPI.generate self prompt file_uri mime temperature
                    max_tokens timeout w) <> Raise (IndexError m)).
Proof.
  split_and!.
  - intros resp w1 top cand cands content part parts v
      Hhttp Hst Hjson Hc Hct Hp Ht.
    unfold GeminiAPI.generate.
    rewrite (bind_return _ _ _ _ _ Hhttp), Hst. simpl.
    unfold response_json. rewrite Hjson, bind_ret_l.
    unfold GeminiAPI.extract_text. simpl. rewrite Hc. simpl. rewrite Hct. simpl.
    rewrite Hp. simpl. by rewrite Ht.
  - intros k. unfold GeminiAPI.generate, bind, http, response_json, raise, ret, lift.
    destruct (serve _ _) as [s' [resp|]]; simpl; [|done].
    destruct (status_code resp =? 200)%Z; simpl; [|done].
    destruct (json_body resp) as [result|]; simpl; [|done].
    destruct (GeminiAPI.extract_text result) as [v|e|]; simpl; try done.
    by destruct e.
  - intros m. unfold GeminiAPI.generate, bind, http, response_json, raise, ret, lift.
    destruct (serve _ _) as [s' [resp|]]; simpl; [|done].
    destruct (status_code resp =? 200)%Z; simpl; [|done].
    destruct (json_body resp) as [result|]; simpl; [|done].
    destruct (GeminiAPI.extract_text result) as [v|e|]; simpl; try done.
    by destruct e.
Qed.

Lemma X9_witness :
  fst (@GeminiAPI.generate (Demo.env 2500 0) Demo.api "Transcribe."
         (JStr "uri-c") "audio/wav" 0.2 30000 600
         (Demo.chunk_world 2500 0 [Demo.generated "Hello."]))
  = Return (JStr "Hello.").
Proof.
  destruct (@X9_generate_extracts_first_text (Demo.env 2500 0) Demo.api
              "Transcribe." (JStr "uri-c") "audio/wav" 0.2 30000 600
              (Demo.chunk_world 2500 0 [Demo.generated "Hello."]))
    as (Hok & _ & _).
  erewrite Hok; [reflexivity| lazy; reflexivity | reflexivity | reflexivity
                | reflexivity | reflexivity | reflexivity | reflexivity].
Defined.

Example generate_on_empty_candidates :
  fst (@GeminiAPI.generate (Demo.env 2500 0) Demo.api "Transcribe."
         JNull "audio/wav" 0.2 30000 600
         (Demo.chunk_world 2500 0 [Demo.ok (JObj [("candidates", JArr [])])]))
  = Raise (Exception "Failed to extract response: list index out of range").
Proof. vm_compute. reflexivity. Qed.

(** ** Splitting: edge cases, failures and the tools that are run *)

Section Emits.

Context `{E : Env}.
Variable P : event -> Prop.

Lemma emits_silent {A} (m : M A) :
  (forall w, trace (snd (m w)) = trace w) -> emits P m.
Proof. intros H w. exists []. rewrite H, app_nil_r. by split. Qed.

Lemma emits_bind {A B} (m : M A) (k : A -> M B) :
  emits P m -> (forall a, emits P (k a)) -> emits P (bind m k).
Proof.
  intros Hm Hk w. destruct (Hm w) as (new1 & Ht1 & Hok1).
  unfold bind. destruct (m w) as [[a|e|] w1]; simpl in *; [|by eauto..].
  destruct (Hk a w1) as (new2 & Ht2 & Hok2).
  exists (new1 ++ new2)%list. rewrite Ht2, Ht1, app_assoc. split; [done|].
  by apply Forall_app.
Qed.

Lemma emits_one {A} (m : M A) e :
  (forall w, trace (snd (m w)) = (trace w ++ [e])%list) -> P e -> emits P m.
Proof. intros H He w. exists [e]. split; [done|]. by repeat constructor. Qed.

End Emits.

Section Splitting.

Context `{E : Env}.
Variable self : Transcriber.t.

Lemma emits_get_audio_duration p :
  emits is_tool_run (Transcriber.get_audio_duration self p).
Proof.
  unfold Transcriber.get_audio_duration.
  apply emits_bind; [by apply (emits_one _ _ (EvFfprobe (Path.to_str p)))|].
  intros [[rc out] err].
  destruct (negb _); [by apply emits_silent|].
  destruct (parse_float _); by apply emits_silent.
Qed.

Lemma emits_split_loop p d fuel s n acc :
  emits is_tool_run (Transcriber.split_loop self p d fuel s n acc).
Proof.
  revert s n acc. induction fuel as [|fuel IH]; intros s n acc; simpl.
  - by apply emits_silent.
  - destruct (Qltb s d); [|by apply emits_silent].
    apply emits_bind.
    + match goal with
      | |- emits _ (run_ffmpeg ?i ?ss ?t ?o) =>
          apply (emits_one _ _ (EvFfmpeg i ss t o)); [|exact I]
      end.
      intros w. unfold run_ffmpeg. by destruct (ffmpeg _ _ _ _ _) as [[??]?].
    + intros result. destruct (negb _); [by apply emits_silent|].
      destruct (Qle_bool d _); [by apply emits_silent|apply IH].
Qed.

(** Splitting runs the audio tools and does nothing else that leaves the
    process. *)
Lemma emits_split_audio p fuel :
  emits is_tool_run (Transcriber.split_audio self p fuel).
Proof.
  unfold Transcriber.split_audio.
  apply emits_bind.
  { apply emits_silent. intros w. unfold mkdir_exist_ok. by repeat case_match. }
  intros _. apply emits_bind; [apply emits_get_audio_duration|].
  intros d. apply emits_split_loop.
Qed.

(** A returned plan comes with one [ffmpeg] run per chunk, in order. *)
Lemma split_loop_trace p d fuel s n acc w l w' :
  Transcriber.split_loop self p d fuel s n acc w = (Return l, w') ->
  exists l', l = (acc ++ l')%list /\
             trace w' = (trace w ++ map (slice_event self p) l')%list.
Proof.
  revert s n acc w. induction fuel as [|fuel IH]; intros s n acc w; [done|].
  simpl. destruct (Qltb s d).
  - unfold bind, run_ffmpeg.
    destruct (ffmpeg _ _ _ _ _) as [[rc err] f']. simpl.
    destruct (rc =? 0)%Z; simpl; [|done].
    destruct (Qle_bool d _).
    + intros [= <- <-]. eexists [_]. split; [done|]. reflexivity.
    + intros Hrec. apply IH in Hrec as (l'' & -> & Ht).
      eexists (_ :: l''). rewrite <- app_assoc. split; [done|].
      rewrite Ht. simpl. by rewrite <- app_assoc.
  - intros [= <- <-]. exists []. by rewrite !app_nil_r.
Qed.

Lemma mkdir_trace p w w1 :
  mkdir_exist_ok p w = (Return tt, w1) -> trace w1 = trace w.
Proof. unfold mkdir_exist_ok. repeat case_match; by intros [= <-]. Qed.

Lemma get_audio_duration_trace p w d w1 :
  Transcriber.get_audio_duration self p w = (Return d, w1) ->
  trace w1 = (trace w ++ [EvFfprobe (Path.to_str p)])%list.
Proof.
  unfold Transcriber.get_audio_duration, bind, run_ffprobe.
  destruct (ffprobe _ _) as [[rc out] err]. simpl.
  destruct (rc =? 0)%Z; simpl; [|done].
  destruct (parse_float _); [|done]. by intros [= _ <-].
Qed.

(** What [transcribe] does once the audio file is found and the
    instructions are loaded. *)
Lemma transcribe_after_split audio out cp mp ins header speakers fuel w ci :
  lookup_node w (Path.parse audio) <> None ->
  Transcriber.load_instructions ins w = (Return ci, w) ->
  Transcriber.transcribe self audio out cp mp ins header speakers fuel w
  = bind (Transcriber.split_audio self (Path.parse audio) fuel)
         (after_split self out cp mp header speakers ci fuel) w.
Proof.
  intros Haudio Hins. unfold Transcriber.transcribe.
  rewrite bind_path_exists.
  destruct (lookup_node w (Path.parse audio)); [|done]. simpl.
  by rewrite (bind_return _ _ _ _ _ Hins).
Qed.

End Splitting.

(** X10. A recording no longer than one chunk. For [0 < d <=
    chunk_duration], whatever the overlap is (also when it is not smaller
    than [chunk_duration]), [split_audio] returns exactly one chunk, with
    number 1, from 0 to [d], after a single [ffmpeg] run, as soon as one
    iteration is allowed. *)
Theorem X10_short_audio_is_one_chunk `{E : Env} (self : Transcriber.t)
    (filepath : Path.t) (w : World) (d : Q) (fuel : nat) :
  (0 < d)%Q -> (d <= inject_Z (Transcriber.chunk_duration self))%Q ->
  measured self filepath w d -> slicing_succeeds ->
  exists c w',
    Transcriber.split_audio self filepath (S fuel) w = (Return [c], w') /\
    num c = 1%nat /\ start c = 0%Q /\ (end_ c == d)%Q /\
    trace w' = (trace w ++ [EvFfprobe (Path.to_str filepath);
                            slice_event self filepath c])%list.
Proof.
  intros Hd Hcd Hm Hok.
  pose proof (split_audio_ok self filepath d (S fuel) w Hm Hok) as Hfst.
  rewrite run_unfold in Hfst.
  apply Qltb_true in Hd as Hd'. rewrite Hd' in Hfst. cbv zeta in Hfst.
  assert (Qle_bool d (py_min (0 + Plan.cd self) d) = true) as Hb.
  { apply Qle_bool_iff.
    destruct (py_min_cases (0 + Plan.cd self) d) as [[? ->]|[? ->]];
      unfold Plan.cd in *; lra. }
  rewrite Hb in Hfst.
  destruct (Transcriber.split_audio self filepath (S fuel) w) as [o w'] eqn:Hrun.
  simpl in Hfst. subst o. eexists _, w'. split; [done|]. split_and!; try done.
  - simpl. apply Qle_bool_iff in Hb.
    destruct (py_min_cases (0 + Plan.cd self) d) as [[? Hm']|[? Hm']];
      rewrite Hm' in *; unfold Plan.cd in *; lra.
  - destruct Hm as (w1 & w2 & Hmk & Hdur).
    unfold Transcriber.split_audio in Hrun.
    rewrite (bind_return _ _ _ _ _ Hmk), (bind_return _ _ _ _ _ Hdur) in Hrun.
    apply split_loop_trace in Hrun as (l' & Hl & Ht). simpl in Hl. subst l'.
    rewrite Ht, (get_audio_duration_trace _ _ _ _ _ Hdur), (mkdir_trace _ _ _ Hmk).
    by rewrite <- app_assoc.
Qed.

Lemma X10_witness :
  fst (@Transcriber.split_audio (Demo.env 600 0) (Demo.transcriber 1200 1200)
         (Path.parse "talk.wav") 1 (Demo.talk_world 600 0 []))
  = Return [Demo.chunk 1 0 600].
Proof.
  destruct (@X10_short_audio_is_one_chunk (Demo.env 600 0)
              (Demo.transcriber 1200 1200) (Path.parse "talk.wav")
              (Demo.talk_world 600 0 []) 600 0)
    as (c & w' & Hrun & _).
  - reflexivity.
  - vm_compute. discriminate.
  - demo_measured.
  - intros f input ss t output. reflexivity.
  - vm_compute in Hrun. injection Hrun as <- _. vm_compute. reflexivity.
Defined.

(** X11. A recording of no length. When [ffprobe] reports a duration that
    is not positive, [split_audio] returns no chunk and runs [ffmpeg] not
    once; [transcribe] then uploads and transcribes nothing and goes on to
    the merge call with an empty transcript. *)
Theorem X11_empty_audio `{E : Env} (self : Transcriber.t)
    (audio out : string) (cp mp ins header speakers : option string)
    (fuel : nat) (d : Q) (ci : string) (w w1 w2 : World) :
  (d <= 0)%Q ->
  lookup_node w (Path.parse audio) <> None ->
  Transcriber.load_instructions ins w = (Return ci, w) ->
  mkdir_exist_ok (Transcriber.chunks_dir self) w = (Return tt, w1) ->
  Transcriber.get_audio_duration self (Path.parse audio) w1 = (Return d, w2) ->
  Transcriber.split_audio self (Path.parse audio) (S fuel) w = (Return [], w2) /\
  trace w2 = (trace w ++ [EvFfprobe (Path.to_str (Path.parse audio))])%list /\
  Transcriber.combined [] = "" /\
  Transcriber.transcribe self audio out cp mp ins header speakers (S fuel) w
  = (let* final_transcript :=
       Transcriber.merge_transcripts self []
         (match mp with None => DEFAULT_MERGE_PROMPT | Some p => p end) in
     let* _ :=
       open_write (Path.parse out)
         ((match GeminiAPI.nonempty header with
           | Some h => [JStr h; JStr Transcriber.rule]
           | None => []
           end) ++ [final_transcript])%list in
     ret final_transcript) w2.
Proof.
  intros Hd Haudio Hins Hmk Hdur.
  assert (Transcriber.split_audio self (Path.parse audio) (S fuel) w = (Return [], w2))
    as Hsplit.
  { unfold Transcriber.split_audio.
    rewrite (bind_return _ _ _ _ _ Hmk), (bind_return _ _ _ _ _ Hdur). simpl.
    apply Qltb_false in Hd. by rewrite Hd. }
  split_and!.
  - done.
  - by rewrite (get_audio_duration_trace _ _ _ _ _ Hdur), (mkdir_trace _ _ _ Hmk).
  - reflexivity.
  - rewrite (transcribe_after_split self audio out cp mp ins header speakers _ w ci)
      by done.
    by rewrite (bind_return _ _ _ _ _ Hsplit).
Qed.

Lemma X11_witness :
  @Transcriber.split_audio (Demo.env 0 0) (Demo.transcriber 1200 10)
     (Path.parse "talk.wav") 1 (Demo.talk_world 0 0 [])
  = (Return [],
     snd (@Transcriber.get_audio_duration (Demo.env 0 0) (Demo.transcriber 1200 10)
            (Path.parse "talk.wav")
            (snd (@mkdir_exist_ok (Demo.env 0 0) (Path.parse "audio_chunks")
                    (Demo.talk_world 0 0 []))))).
Proof.
  refine (proj1 (@X11_empty_audio (Demo.env 0 0) (Demo.transcriber 1200 10)
    "talk.wav" "transcript.md" None None None None None 0 0 ""
    (Demo.talk_world 0 0 []) _ _ _ _ _ _ _)).
  - vm_compute. discriminate.
  - vm_compute. discriminate.
  - reflexivity.
  - vm_compute. reflexivity.
  - vm_compute. reflexivity.
Defined.

(** X12. A failure while splitting ends the run before anything is sent.
    When [split_audio] raises, [transcribe] raises the same exception in the
    same world, and all that has left the process by then are runs of the
    audio tools: no request was made. *)
Theorem X12_split_failure_precedes_remote_calls `{E : Env} (self : Transcriber.t)
    (audio out : string) (cp mp ins header speakers : option string)
    (fuel : nat) (ci : string) (e : exn) (w w1 : World) :
  lookup_node w (Path.parse audio) <> None ->
  Transcriber.load_instructions ins w = (Return ci, w) ->
  Transcriber.split_audio self (Path.parse audio) fuel w = (Raise e, w1) ->
  Transcriber.transcribe self audio out cp mp ins header speakers fuel w
  = (Raise e, w1) /\
  exists new, trace w1 = (trace w ++ new)%list /\ Forall is_tool_run new.
Proof.
  intros Haudio Hins Hsplit. split.
  - rewrite (transcribe_after_split self audio out cp mp ins header speakers _ w ci)
      by done.
    by rewrite (bind_raise _ _ _ _ _ Hsplit).
  - destruct (emits_split_audio self (Path.parse audio) fuel w) as (new & Ht & Hnew).
    rewrite Hsplit in Ht. eauto.
Qed.

Lemma X12_witness :
  @Transcriber.transcribe (Demo.env 2500 1) (Demo.transcriber 1200 10)
     "talk.wav" "transcript.md" None None None None None 5
     (Demo.talk_world 2500 1 [])
  = (Raise (Exception "ffmpeg failed: "),
     snd (@Transcriber.split_audio (Demo.env 2500 1) (Demo.transcriber 1200 10)
            (Path.parse "talk.wav") 5 (Demo.talk_world 2500 1 []))).
Proof.
  refine (proj1 (@X12_split_failure_precedes_remote_calls (Demo.env 2500 1)
    (Demo.transcriber 1200 10) "talk.wav" "transcript.md" None None None None None
    5 "" _ (Demo.talk_world 2500 1 []) _ _ _ _)).
  - vm_compute. discriminate.
  - reflexivity.
  - vm_compute. reflexivity.
Defined.

(** X13. Failing tools. When [ffprobe] exits with a code other than zero,
    [split_audio] raises with its error output; when it exits with zero but
    prints no number, [split_audio] raises [ValueError]; in both cases
    [ffmpeg] is not run. When the first [ffmpeg] run exits with a code other
    than zero, [split_audio] raises with its error output and returns no
    chunk. *)
Theorem X13_tool_failures `{E : Env} (self : Transcriber.t) (filepath : Path.t)
    (fuel : nat) (rc : Z) (out err : string) (w w1 : World) :
  mkdir_exist_ok (Transcriber.chunks_dir self) w = (Return tt, w1) ->
  ffprobe (fs w1) (Path.to_str filepath) = (rc, out, err) ->
  (rc <> 0%Z ->
   Transcriber.split_audio self filepath fuel w
   = (Raise (Exception ("ffprobe failed: " ++ err)),
      log_event (EvFfprobe (Path.to_str filepath)) w1)) /\
  (rc = 0%Z -> parse_float (Text.strip out) = None ->
   exists msg,
     Transcriber.split_audio self filepath fuel w
     = (Raise (ValueError msg), log_event (EvFfprobe (Path.to_str filepath)) w1)) /\
  (forall d rc' err' f',
     rc = 0%Z -> parse_float (Text.strip out) = Some d -> (0 < d)%Q ->
     ffmpeg (fs w1) (Path.to_str filepath) 0 (Transcriber.chunk_duration self)
            (Path.to_str (Path.div (Transcriber.chunks_dir self)
                                   (Transcriber.chunk_file_name 1)))
     = (rc', err', f') ->
     rc' <> 0%Z ->
     fst (Transcriber.split_audio self filepath (S fuel) w)
     = Raise (Exception ("ffmpeg failed: " ++ err'))).
Proof.
  intros Hmk Hprobe.
  assert (Transcriber.get_audio_duration self filepath w1
          = (if negb (rc =? 0)%Z then Raise (Exception ("ffprobe failed: " ++ err))
             else match parse_float (Text.strip out) with
                  | Some d => Return d
                  | None => Raise (ValueError "could not convert string to float")
                  end,
             log_event (EvFfprobe (Path.to_str filepath)) w1)) as Hdur.
  { unfold Transcriber.get_audio_duration, bind, run_ffprobe. rewrite Hprobe.
    destruct (negb _); [done|]. by destruct (parse_float _). }
  unfold Transcriber.split_audio.
  split_and!.
  - intros Hrc. apply Z.eqb_neq in Hrc. rewrite Hrc in Hdur. simpl in Hdur.
    rewrite (bind_return _ _ _ _ _ Hmk). by apply bind_raise.
  - intros -> Hparse. rewrite Hparse in Hdur. simpl in Hdur. eexists.
    rewrite (bind_return _ _ _ _ _ Hmk). by apply bind_raise.
  - intros d rc' err' f' -> Hparse Hd Hff Hrc'. rewrite Hparse in Hdur.
    simpl in Hdur.
    rewrite (bind_return _ _ _ _ _ Hmk).
    erewrite bind_return by exact Hdur. simpl.
    apply Qltb_true in Hd. rewrite Hd.
    unfold bind, run_ffmpeg. simpl. rewrite Hff. simpl.
    apply Z.eqb_neq in Hrc'. by rewrite Hrc'.
Qed.

Lemma X13_witness :
  fst (@Transcriber.split_audio (Demo.env 2500 1) (Demo.transcriber 1200 10)
         (Path.parse "talk.wav") 5 (Demo.talk_world 2500 1 []))
  = Raise (Exception "ffmpeg failed: ").
Proof.
  destruct (@X13_tool_failures (Demo.env 2500 1) (Demo.transcriber 1200 10)
              (Path.parse "talk.wav") 4 0 "duration" ""
              (Demo.talk_world 2500 1 [])
              (snd (@mkdir_exist_ok (Demo.env 2500 1) (Path.parse "audio_chunks")
                      (Demo.talk_world 2500 1 []))))
    as (_ & _ & Hff).
  - vm_compute. reflexivity.
  - reflexivity.
  - apply (Hff 2500%Q 1%Z ""
             (fs (snd (@mkdir_exist_ok (Demo.env 2500 1) (Path.parse "audio_chunks")
                         (Demo.talk_world 2500 1 []))))).
    + reflexivity.
    + reflexivity.
    + reflexivity.
    + reflexivity.
    + discriminate.
Defined.

(** X14. A missing audio file. [transcribe] raises [FileNotFoundError]
    and leaves the world as it is: no directory is made, no tool is run, no
    request is sent, whatever the other arguments are. *)
Theorem X14_missing_audio_file `{E : Env} (self : Transcriber.t)
    (audio out : string) (cp mp ins header speakers : option string)
    (fuel : nat) (w : World) :
  lookup_node w (Path.parse audio) = None ->
  Transcriber.transcribe self audio out cp mp ins header speakers fuel w
  = (Raise (FileNotFoundError ("Audio file not found: " ++ audio)), w).
Proof.
  intros Haudio. unfold Transcriber.transcribe.
  rewrite bind_path_exists. by rewrite Haudio.
Qed.

Lemma X14_witness :
  @Transcriber.transcribe (Demo.env 2500 0) (Demo.transcriber 1200 10)
     "other.wav" "transcript.md" None None (Some "dir") None None 5
     (Demo.talk_world 2500 0 [])
  = (Raise (FileNotFoundError "Audio file not found: other.wav"),
     Demo.talk_world 2500 0 []).
Proof.
  apply (@X14_missing_audio_file (Demo.env 2500 0)). vm_compute. reflexivity.
Defined.

(** X15. What splitting runs. Whenever [split_audio] returns its chunks,
    it has run [ffprobe] once and then [ffmpeg] exactly once per returned
    chunk, in order, each from the start of its chunk, for the full
    [chunk_duration] (the last chunk included), into the file of that chunk;
    nothing else has left the process. *)
Theorem X15_one_ffmpeg_run_per_chunk `{E : Env} (self : Transcriber.t)
    (filepath : Path.t) (fuel : nat) (chunks : list Chunk) (w w' : World) :
  Transcriber.split_audio self filepath fuel w = (Return chunks, w') ->
  trace w'
  = (trace w ++ EvFfprobe (Path.to_str filepath)
             :: map (slice_event self filepath) chunks)%list.
Proof.
  unfold Transcriber.split_audio. intros Hrun.
  apply bind_return_inv in Hrun as ([] & w1 & Hmk & Hrun).
  apply bind_return_inv in Hrun as (d & w2 & Hdur & Hrun).
  apply split_loop_trace in Hrun as (l' & Hl & Ht). simpl in Hl. subst l'.
  rewrite Ht, (get_audio_duration_trace _ _ _ _ _ Hdur), (mkdir_trace _ _ _ Hmk).
  by rewrite <- app_assoc.
Qed.

Lemma X15_witness :
  trace (snd (@Transcriber.split_audio (Demo.env 2500 0) (Demo.transcriber 1200 10)
                (Path.parse "talk.wav") 5 (Demo.talk_world 2500 0 [])))
  = [EvFfprobe "talk.wav";
     EvFfmpeg "talk.wav" 0 1200 "audio_chunks/chunk_01.wav";
     EvFfmpeg "talk.wav" 1190 1200 "audio_chunks/chunk_02.wav";
     EvFfmpeg "talk.wav" 2380 1200 "audio_chunks/chunk_03.wav"].
Proof.
  rewrite (@X15_one_ffmpeg_run_per_chunk (Demo.env 2500 0) (Demo.transcriber 1200 10)
             (Path.parse "talk.wav") 5
             [Demo.chunk 1 0 1200; Demo.chunk 2 1190 2390; Demo.chunk 3 2380 2500]
             (Demo.talk_world 2500 0 [])
             (snd (@Transcriber.split_audio (Demo.env 2500 0)
                     (Demo.transcriber 1200 10) (Path.parse "talk.wav") 5
                     (Demo.talk_world 2500 0 [])))).
  - vm_compute. reflexivity.
  - vm_compute. reflexivity.
Defined.

(** ** Checkpoints: saving, reloading and surviving a failure *)

Section Saving.

Context `{E : Env}.
Variable self : Transcriber.t.

Lemma open_write_return p vs content w w' :
  open_write p vs w = (Return content, w') ->
  lookup_node w' p = Some (File content) /\
  write_all "" vs = (content, None) /\
  environ w' = environ w /\ remote w' = remote w /\ trace w' = trace w.
Proof.
  unfold open_write.
  destruct (lookup_node w p) as [[c|]|] eqn:Hp; [| done |].
  - destruct (write_all "" vs) as [written [e|]]; [done|].
    intros [= <- <-]. split_and!; try done.
    unfold lookup_node in *. simpl.
    destruct (Path.parts p); [done|]. apply lookup_insert_eq.
  - destruct (parent_error w p); [done|].
    destruct (write_all "" vs) as [written [e|]]; [done|].
    intros [= <- <-]. split_and!; try done.
    unfold lookup_node in *. simpl.
    destruct (Path.parts p); [done|]. apply lookup_insert_eq.
Qed.

(** Whenever a chunk is processed, its text is in its checkpoint. *)
Lemma process_chunk_saves prompt total fuel c text w w' :
  Transcriber.process_chunk self prompt total fuel c w = (Return text, w') ->
  checkpointed w' c text.
Proof.
  unfold Transcriber.process_chunk. rewrite bind_path_exists.
  destruct (lookup_node w (Path.parse (Transcriber.chunk_transcript_file c)))
    as [nd|] eqn:Hck.
  - unfold read_text. rewrite Hck. destruct nd; [|done]. by intros [= <- <-].
  - intros Hrun.
    apply bind_return_inv in Hrun as (up & w1 & _ & Hrun).
    apply bind_return_inv in Hrun as (tr & w2 & _ & Hrun).
    by apply open_write_return in Hrun as [? _].
Qed.

Lemma process_chunks_acc prompt total fuel cs acc w ts w' :
  Transcriber.process_chunks self prompt total fuel cs acc w = (Return ts, w') ->
  exists new, ts = (acc ++ new)%list /\ Forall2 (checkpointed w') cs new.
Proof.
  revert acc w. induction cs as [|c cs IH]; intros acc w Hrun.
  - injection Hrun as <- <-. exists []. by rewrite app_nil_r.
  - simpl in Hrun. apply bind_return_inv in Hrun as (t & w1 & Hc & Hrun).
    pose proof (process_chunk_saves _ _ _ _ _ _ _ Hc) as Hsaved.
    pose proof (process_chunks_preserves self prompt total fuel cs (acc ++ [t]) w1
                  _ _ Hsaved) as Hkept.
    rewrite Hrun in Hkept. simpl in Hkept.
    apply IH in Hrun as (new & -> & Hnew).
    exists (t :: new). rewrite <- app_assoc. split; [done|]. by constructor.
Qed.

End Saving.

(** X16. Saving and reloading. Whenever the work on a chunk returns a
    transcript, the checkpoint of that chunk holds exactly that transcript,
    and doing the work on the chunk again returns the same transcript and
    changes nothing: no request is made and no file is written. *)
Theorem X16_checkpoint_round_trip `{E : Env} (self : Transcriber.t)
    (prompt prompt' : string) (total total' fuel fuel' : nat) (c : Chunk)
    (text : string) (w w' : World) :
  Transcriber.process_chunk self prompt total fuel c w = (Return text, w') ->
  checkpointed w' c text /\
  Transcriber.process_chunk self prompt' total' fuel' c w' = (Return text, w').
Proof.
  intros Hrun. pose proof (process_chunk_saves self _ _ _ _ _ _ _ Hrun) as Hsaved.
  split; [done|]. by apply process_chunk_loaded.
Qed.

Lemma X16_witness :
  fs (snd (@Transcriber.process_chunk (Demo.env 2500 0) (Demo.transcriber 1200 10)
             "Transcribe." 1 5 (Demo.chunk 1 0 1200)
             (Demo.chunk_world 2500 0
                [Demo.listing []; Demo.upload_started "https://upload.example/session";
                 Demo.uploaded "uri-1" "files/1"; Demo.file_state "ACTIVE";
                 Demo.generated "one"])))
  !! "transcript_chunk_01.md" = Some (File "one").
Proof.
  destruct (@X16_checkpoint_round_trip (Demo.env 2500 0) (Demo.transcriber 1200 10)
              "Transcribe." "Again." 1 1 5 5 (Demo.chunk 1 0 1200) "one"
              (Demo.chunk_world 2500 0
                 [Demo.listing []; Demo.upload_started "https://upload.example/session";
                  Demo.uploaded "uri-1" "files/1"; Demo.file_state "ACTIVE";
                  Demo.generated "one"])
              (snd (@Transcriber.process_chunk (Demo.env 2500 0)
                      (Demo.transcriber 1200 10) "Transcribe." 1 5
                      (Demo.chunk 1 0 1200)
                      (Demo.chunk_world 2500 0
                         [Demo.listing [];
                          Demo.upload_started "https://upload.example/session";
                          Demo.uploaded "uri-1" "files/1"; Demo.file_state "ACTIVE";
                          Demo.generated "one"]))))
    as [Hsaved _].
  - vm_compute. reflexivity.
  - exact Hsaved.
Defined.

(** X17. Progress survives a failure. If the loop of [transcribe] gets
    through the chunks [done] and returns their transcripts, then however
    the run over a longer plan [done ++ rest] ends (returning, raising at a
    later chunk, or unfinished), each of those transcripts is in its
    checkpoint afterwards; and a later run over [done] loads them all,
    returning the same transcripts without any effect. *)
Theorem X17_progress_survives_failure `{E : Env} (self : Transcriber.t)
    (prompt : string) (total fuel : nat) (finished rest : list Chunk)
    (texts : list string) (w w1 : World) :
  Transcriber.process_chunks self prompt total fuel finished [] w = (Return texts, w1) ->
  Forall2 (checkpointed
             (snd (Transcriber.process_chunks self prompt total fuel
                     (finished ++ rest) [] w)))
          finished texts /\
  (forall prompt' total' fuel' w2,
     w2 = snd (Transcriber.process_chunks self prompt total fuel
                 (finished ++ rest) [] w) ->
     Transcriber.process_chunks self prompt' total' fuel' finished [] w2
     = (Return texts, w2)).
Proof.
  intros Hrun.
  destruct (process_chunks_acc self _ _ _ _ _ _ _ _ Hrun) as (new & Hts & Hsaved).
  simpl in Hts. subst new.
  assert (Forall2 (checkpointed
             (snd (Transcriber.process_chunks self prompt total fuel
                     (finished ++ rest) [] w))) finished texts) as Hall.
  { rewrite process_chunks_app, (bind_return _ _ _ _ _ Hrun).
    eapply Forall2_impl; [exact Hsaved|].
    intros c t Hc. by apply process_chunks_preserves. }
  split; [done|]. intros prompt' total' fuel' w2 ->.
  by rewrite (process_chunks_loaded self prompt' total' fuel' finished texts []).
Qed.

Lemma X17_witness :
  fst (@Transcriber.process_chunks (Demo.env 2500 0) (Demo.transcriber 1200 10)
         "Transcribe." 2 5 [Demo.chunk 1 0 1200; Demo.chunk 2 1190 2390] []
         (Demo.chunk_world 2500 0
            [Demo.listing []; Demo.upload_started "https://upload.example/session";
             Demo.uploaded "uri-1" "files/1"; Demo.file_state "ACTIVE";
             Demo.generated "one"]))
  = Raise (FileNotFoundError "audio_chunks/chunk_02.wav") /\
  Forall2
    (checkpointed
       (snd (@Transcriber.process_chunks (Demo.env 2500 0) (Demo.transcriber 1200 10)
               "Transcribe." 2 5 ([Demo.chunk 1 0 1200] ++ [Demo.chunk 2 1190 2390]) []
               (Demo.chunk_world 2500 0
                  [Demo.listing [];
                   Demo.upload_started "https://upload.example/session";
                   Demo.uploaded "uri-1" "files/1"; Demo.file_state "ACTIVE";
                   Demo.generated "one"]))))
    [Demo.chunk 1 0 1200] ["one"].
Proof.
  split; [vm_compute; reflexivity|].
  refine (proj1 (@X17_progress_survives_failure (Demo.env 2500 0)
    (Demo.transcriber 1200 10) "Transcribe." 2 5
    [Demo.chunk 1 0 1200] [Demo.chunk 2 1190 2390] ["one"]
    (Demo.chunk_world 2500 0
       [Demo.listing []; Demo.upload_started "https://upload.example/session";
        Demo.uploaded "uri-1" "files/1"; Demo.file_state "ACTIVE";
        Demo.generated "one"])
    (snd (@Transcriber.process_chunks (Demo.env 2500 0) (Demo.transcriber 1200 10)
            "Transcribe." 2 5 [Demo.chunk 1 0 1200] []
            (Demo.chunk_world 2500 0
               [Demo.listing []; Demo.upload_started "https://upload.example/session";
                Demo.uploaded "uri-1" "files/1"; Demo.file_state "ACTIVE";
                Demo.generated "one"]))) _)).
  vm_compute. reflexivity.
Defined.

(** ** The output file *)

(** X18. What a finished run leaves. Whenever [transcribe] returns, what
    it returns is a text, and the output file holds the header followed by
    the rule and that text when a non-empty header was given, and that text
    alone otherwise. *)
Theorem X18_output_file_holds_the_transcript `{E : Env} (self : Transcriber.t)
    (audio out : string) (cp mp ins header speakers : option string)
    (fuel : nat) (v : json) (w w' : World) :
  Transcriber.transcribe self audio out cp mp ins header speakers fuel w
  = (Return v, w') ->
  exists final,
    v = JStr final /\
    lookup_node w' (Path.parse out)
    = Some (File (match GeminiAPI.nonempty header with
                  | Some h => h ++ Transcriber.rule ++ final
                  | None => final
                  end)).
Proof.
  unfold Transcriber.transcribe. rewrite bind_path_exists.
  destruct (negb _); [done|]. intros Hrun.
  apply bind_return_inv in Hrun as (ci & w1 & _ & Hrun).
  apply bind_return_inv in Hrun as (chunks & w2 & _ & Hrun).
  apply bind_return_inv in Hrun as (ts & w3 & _ & Hrun).
  apply bind_return_inv in Hrun as (final & w4 & _ & Hrun).
  apply bind_return_inv in Hrun as (content & w5 & Hwrite & Hret).
  injection Hret as <- <-.
  apply open_write_return in Hwrite as (Hfile & Hall & _).
  destruct (GeminiAPI.nonempty header) as [h|]; simpl in Hall.
  - destruct final as [| | |s| |]; simpl in Hall; try done.
    injection Hall as <-. exists s. split; [done|].
    rewrite Hfile. by rewrite app_assoc_s.
  - destruct final as [| | |s| |]; simpl in Hall; try done.
    injection Hall as <-. by exists s.
Qed.

Lemma X18_witness :
  fs (snd (@Transcriber.transcribe (Demo.env 2500 0) (Demo.transcriber 1200 10)
             "talk.wav" "transcript.md" None None None (Some "# Talk") None 5
             (Demo.resumed_world 2500 0
                [Demo.listing [Demo.remote_file "chunk_03" "ACTIVE" "uri-3" "files/3"];
                 Demo.generated "three"; Demo.generated "merged"])))
  !! "transcript.md"
  = Some (File ("# Talk" ++ Transcriber.rule ++ "merged")).
Proof.
  destruct (@X18_output_file_holds_the_transcript (Demo.env 2500 0)
              (Demo.transcriber 1200 10) "talk.wav" "transcript.md"
              None None None (Some "# Talk") None 5 (JStr "merged")
              (Demo.resumed_world 2500 0
                 [Demo.listing [Demo.remote_file "chunk_03" "ACTIVE" "uri-3" "files/3"];
                  Demo.generated "three"; Demo.generated "merged"])
              (snd (@Transcriber.transcribe (Demo.env 2500 0)
                      (Demo.transcriber 1200 10)
                      "talk.wav" "transcript.md" None None None (Some "# Talk") None 5
                      (Demo.resumed_world 2500 0
                         [Demo.listing
                            [Demo.remote_file "chunk_03" "ACTIVE" "uri-3" "files/3"];
                          Demo.generated "three"; Demo.generated "merged"]))))
    as (final & Hv & Hfile).
  - vm_compute. reflexivity.
  - injection Hv as <-. exact Hfile.
Defined.

(** ** The merge template *)

Section Formatting.

Variables key value : string.

Lemma go_lit_plain (before rest : string) :
  Text.has_char "{" before = false -> Text.has_char "}" before = false ->
  Format.go key value Format.Lit (before ++ rest)
  = obind (Format.go key value Format.Lit rest) (fun r => Return (before ++ r)).
Proof.
  induction before as [|a s IH]; intros Ho Hc.
  - change ("" ++ rest) with rest. by destruct (Format.go _ _ _ rest).
  - rewrite app_cons. simpl in *.
    destruct (decide (a = "{"%char)); [done|].
    destruct (decide (a = "}"%char)); [done|].
    rewrite IH by done. by destruct (Format.go _ _ _ rest).
Qed.

Lemma go_field (name acc rest : string) :
  Text.has_char "}" name = false ->
  Format.go key value (Format.Field acc) (name ++ String "}" rest)
  = obind (Format.resolve key value (String.rev acc ++ name)) (fun v =>
    obind (Format.go key value Format.Lit rest) (fun r => Return (v ++ r))).
Proof.
  revert acc. induction name as [|a n IH]; intros acc Hn.
  - change ("" ++ String "}" rest) with (String "}"%char rest).
    rewrite app_empty_r. reflexivity.
  - rewrite app_cons. simpl in Hn.
    destruct (decide (a = "}"%char)) as [|Ha]; [done|].
    change (Format.go key value (Format.Field acc) (String a (n ++ String "}" rest)))
      with (if decide (a = "}"%char) then
              obind (Format.resolve key value (String.rev acc)) (fun v =>
              obind (Format.go key value Format.Lit (n ++ String "}" rest))
                    (fun r => Return (v ++ r)))
            else Format.go key value (Format.Field (String a acc))
                           (n ++ String "}" rest)).
    destruct (decide (a = "}"%char)); [done|].
    rewrite IH by done.
    replace (String.rev (String a acc) ++ n) with (String.rev acc ++ String a n);
      [done|].
    unfold String.rev. simpl. rewrite (rev_app_spec acc (String a "")).
    by rewrite app_assoc_s.
Qed.

(** The one field of a template, between texts without braces. *)
Lemma format_one_field (before name after : string) :
  Text.has_char "{" before = false -> Text.has_char "}" before = false ->
  Text.has_char "{" after = false -> Text.has_char "}" after = false ->
  name <> "" -> Text.has_char "{" name = false -> Text.has_char "}" name = false ->
  Format.format (before ++ "{" ++ name ++ "}" ++ after) key value
  = obind (Format.resolve key value name) (fun v => Return (before ++ v ++ after)).
Proof.
  intros Hb1 Hb2 Ha1 Ha2 Hne Hn1 Hn2. unfold Format.format.
  rewrite go_lit_plain by done.
  destruct name as [|a n]; [done|].
  simpl in Hn1, Hn2.
  destruct (decide (a = "{"%char)) as [|Ho]; [done|].
  destruct (decide (a = "}"%char)) as [|Hc]; [done|].
  change ("{" ++ String a n ++ "}" ++ after)
    with (String "{"%char (String a (n ++ String "}"%char after))).
  change (Format.go key value Format.Lit
            (String "{"%char (String a (n ++ String "}"%char after))))
    with (if decide (a = "{"%char) then
            obind (Format.go key value Format.Lit (n ++ String "}"%char after))
                  (fun r => Return (String a r))
          else if decide (a = "}"%char) then
            obind (Format.resolve key value "") (fun v =>
            obind (Format.go key value Format.Lit (n ++ String "}"%char after))
                  (fun r => Return (v ++ r)))
          else Format.go key value (Format.Field (String a ""))
                         (n ++ String "}"%char after)).
  destruct (decide (a = "{"%char)); [done|].
  destruct (decide (a = "}"%char)); [done|].
  rewrite go_field by done.
  change (String.rev (String a "") ++ n) with (String a n).
  destruct (Format.resolve key value (String a n)) as [v| |]; simpl; try done.
  pose proof (format_without_braces key value after Ha1 Ha2) as Hafter.
  unfold Format.format in Hafter. by rewrite Hafter.
Qed.

End Formatting.

Lemma plain_without_open (name : string) :
  Text.all_chars (fun a => negb (Format.special a)) name = true ->
  Text.has_char "{" name = false.
Proof.
  induction name as [|a n IH]; [done|]. simpl.
  intros [Ha Hn]%andb_true_iff.
  destruct (decide (a = "{"%char)) as [->|_]; [done|by apply IH].
Qed.

(** X19. The transcript is put into the merge template as it is. For a
    template made of a text without braces, the placeholder [{transcript}]
    and another text without braces, formatting gives the first text, the
    value and the second text, whatever the value contains (braces in a
    transcript are not read as fields), and [merge_transcripts] sends exactly
    that prompt, built from the combined transcripts. The default merge
    prompt is such a template. *)
Theorem X19_transcript_is_inserted_verbatim `{E : Env} (self : Transcriber.t)
    (ts : list string) (before after : string) (w : World) :
  Text.has_char "{" before = false -> Text.has_char "}" before = false ->
  Text.has_char "{" after = false -> Text.has_char "}" after = false ->
  (forall value,
     Format.format (before ++ "{transcript}" ++ after) "transcript" value
     = Return (before ++ value ++ after)) /\
  Transcriber.merge_transcripts self ts (before ++ "{transcript}" ++ after) w
  = GeminiAPI.generate (Transcriber.api self)
      (before ++ Transcriber.combined ts ++ after) JNull "audio/wav" 0.3 100000 900 w /\
  (exists b a,
     DEFAULT_MERGE_PROMPT = b ++ "{transcript}" ++ a /\
     Text.has_char "{" b = false /\ Text.has_char "}" b = false /\
     Text.has_char "{" a = false /\ Text.has_char "}" a = false).
Proof.
  intros Hb1 Hb2 Ha1 Ha2.
  assert (forall value,
     Format.format (before ++ "{transcript}" ++ after) "transcript" value
     = Return (before ++ value ++ after)) as Hfmt.
  { intros value.
    change ("{transcript}" ++ after) with ("{" ++ "transcript" ++ "}" ++ after).
    by rewrite format_one_field. }
  split_and!.
  - done.
  - unfold Transcriber.merge_transcripts. rewrite Hfmt. reflexivity.
  - exists (Text.replace "{transcript}" ""
              (Text.join Text.nl (take 14 (Text.split (ascii_of_nat 10) DEFAULT_MERGE_PROMPT))
               ++ Text.nl)),
           (Text.nl ++ Text.join Text.nl
              (drop 15 (Text.split (ascii_of_nat 10) DEFAULT_MERGE_PROMPT))).
    vm_compute. done.
Qed.

Lemma X19_witness :
  Format.format ("Merge:" ++ Text.nl ++ "{transcript}" ++ Text.nl ++ "Done.")
    "transcript" "He wrote {x} and }."
  = Return ("Merge:" ++ Text.nl ++ "He wrote {x} and }." ++ Text.nl ++ "Done.").
Proof.
  destruct (@X19_transcript_is_inserted_verbatim (Demo.env 2500 0)
              (Demo.transcriber 1200 10) [] ("Merge:" ++ Text.nl)
              (Text.nl ++ "Done.") (Demo.talk_world 2500 0 []))
    as (Hfmt & _ & _); [reflexivity|reflexivity|reflexivity|reflexivity|].
  apply (Hfmt "He wrote {x} and }.").
Defined.

(** X20. A template whose field has another name. For a template with one
    field, between texts without braces, whose name is plain, is not
    [transcript] and is not a number, [merge_transcripts] raises [KeyError]
    for that name and sends nothing: the world is unchanged. *)
Theorem X20_unknown_field_raises_before_sending `{E : Env} (self : Transcriber.t)
    (ts : list string) (before name after : string) (w : World) :
  Text.has_char "{" before = false -> Text.has_char "}" before = false ->
  Text.has_char "{" after = false -> Text.has_char "}" after = false ->
  name <> "" -> name <> "transcript" ->
  Text.all_chars (fun a => negb (Format.special a)) name = true ->
  Text.has_char "}" name = false ->
  Text.all_chars Text.is_digit name = false ->
  Transcriber.merge_transcripts self ts (before ++ "{" ++ name ++ "}" ++ after) w
  = (Raise (KeyError ("'" ++ name ++ "'")), w).
Proof.
  intros Hb1 Hb2 Ha1 Ha2 Hne Hkey Hplain Hclose Hdigits.
  unfold Transcriber.merge_transcripts.
  rewrite format_one_field by (done || by apply plain_without_open).
  unfold Format.resolve. rewrite Hplain. simpl.
  destruct (String.eqb_spec name "transcript") as [|_]; [done|].
  by rewrite Hdigits.
Qed.

Lemma X20_witness :
  @Transcriber.merge_transcripts (Demo.env 2500 0) (Demo.transcriber 1200 10)
     ["first"; "second"] ("Merge " ++ "{" ++ "text" ++ "}" ++ " please")
     (Demo.talk_world 2500 0 [Demo.generated "merged"])
  = (Raise (KeyError ("'" ++ "text" ++ "'")),
     Demo.talk_world 2500 0 [Demo.generated "merged"]).
Proof.
  apply (@X20_unknown_field_raises_before_sending (Demo.env 2500 0));
    (reflexivity || discriminate).
Defined.
